(** * The extraction-and-correlation pipeline of [src/parser.js]

    A shallow embedding of the parser of wordpress-export-to-markdown:
    the record classifier ([getPostTypes]), the record extractor
    ([collectPosts]) with its event enrichment ([getEventMetadata]), the two
    asset collectors ([collectAttachedImages], [collectScrapedImages]) and
    the correlator ([mergeImagesIntoPosts]).

    Conventions of the embedding.
    - A JavaScript value that the code compares with [===] or tests for
      truthiness is a [value]; text that is only copied is a [string].
    - xml2js stores every child element of an item as a non-empty array and
      the code only ever reads index 0 of it, so a field of an item is
      modelled by its first entry, [None] when the element is absent.
      Reading [x[0]] of an absent field throws a [TypeError].
    - A function that can throw returns a [result].
    - An [async] function is a computation over a logical clock: it is run
      from a start time and yields its outcome, the time at which its
      promise settles and the requests it started.  Synchronous code takes
      no time and a timer fires exactly at its deadline.
    - What the code takes from other modules or from the platform
      (luxon, [URL], [decodeURIComponent], the translator, the settings, the
      network) is a field of [Platform], [Settings] or [Network]. *)

From Stdlib Require Import String Ascii List Bool ZArith NArith Lia DecimalString.
Import ListNotations.
Local Open Scope string_scope.
Local Open Scope list_scope.

(** ** JavaScript values *)

Inductive value : Type :=
| VUndefined
| VNull
| VNum (z : Z)
| VStr (s : string).

(** [a === b] on the values above. *)
Definition strict_eq (a b : value) : bool :=
  match a, b with
  | VUndefined, VUndefined => true
  | VNull, VNull => true
  | VNum x, VNum y => Z.eqb x y
  | VStr x, VStr y => String.eqb x y
  | _, _ => false
  end.

(** [ToBoolean]. *)
Definition truthy (v : value) : bool :=
  match v with
  | VUndefined | VNull => false
  | VNum z => negb (Z.eqb z 0)
  | VStr s => negb (String.eqb s "")
  end.

(** [ToString], as a template literal applies it. *)
Definition toString (v : value) : string :=
  match v with
  | VUndefined => "undefined"
  | VNull => "null"
  | VNum z => NilZero.string_of_int (Z.to_int z)
  | VStr s => s
  end.

(** ** Exceptions *)

Inductive error : Type :=
| TypeError (msg : string)
| URIError
| SyntaxError
| AbortError
| OtherError (msg : string).

Inductive result (A : Type) : Type :=
| Ok (a : A)
| Throw (e : error).
Arguments Ok {A} a.
Arguments Throw {A} e.

Definition rbind {A B : Type} (r : result A) (k : A -> result B) : result B :=
  match r with
  | Ok a => k a
  | Throw e => Throw e
  end.

Declare Scope result_scope.
Delimit Scope result_scope with result.
Notation "'let?' x ':=' r 'in' k" := (rbind r (fun x => k))
  (at level 10, x name, r at level 100, k at level 200) : result_scope.

Definition is_ok {A : Type} (r : result A) : bool :=
  match r with Ok _ => true | Throw _ => false end.

(** [xs.map(f)] where [f] can throw: the first exception ends the loop. *)
Fixpoint map_result {A B : Type} (f : A -> result B) (l : list A) : result (list B) :=
  match l with
  | [] => Ok []
  | x :: l' =>
      (let? y := f x in
       let? ys := map_result f l' in
       Ok (y :: ys))%result
  end.

(** [xs.filter(f)] where [f] can throw. *)
Fixpoint filter_result {A : Type} (f : A -> result bool) (l : list A) : result (list A) :=
  match l with
  | [] => Ok []
  | x :: l' =>
      (let? b := f x in
       let? ys := filter_result f l' in
       Ok (if b then x :: ys else ys))%result
  end.

(** [xs.find(f)] where [f] can throw. *)
Fixpoint find_result {A : Type} (f : A -> result bool) (l : list A) : result (option A) :=
  match l with
  | [] => Ok None
  | x :: l' =>
      (let? b := f x in
       if b then Ok (Some x) else find_result f l')%result
  end.

(** [x[0]] for a field [x] of an xml2js node. *)
Definition idx0 {A : Type} (field : option A) : result A :=
  match field with
  | Some a => Ok a
  | None => Throw (TypeError "Cannot read properties of undefined (reading '0')")
  end.

(** [xs.includes(x)] on an array of strings. *)
Definition includes (l : list string) (x : string) : bool :=
  existsb (String.eqb x) l.

(** [[...new Set(xs)]]: a [Set] keeps the insertion order and ignores a
    value that it already holds. *)
Definition Set_add (acc : list string) (x : string) : list string :=
  if includes acc x then acc else acc ++ [x].

Definition new_Set (l : list string) : list string :=
  fold_left Set_add l [].

(** ** The export tree *)

Record PostMeta : Type := {
  meta_key : option string;
  meta_value : option string
}.

(** The attributes [$] of a [category] element. *)
Record CategoryAttrs : Type := {
  domain : value;
  nicename : value
}.

Record Category : Type := {
  attrs : option CategoryAttrs
}.

Record Item : Type := {
  post_type : option string;
  status : option string;
  post_id : option string;
  post_name : option string;
  postmeta : option (list PostMeta);
  title : option string;
  pubDate : option string;
  category : option (list Category);
  creator : option string;
  encoded : option string;
  link : option string;
  attachment_url : option string;
  post_parent : option string
}.

(** [data.rss.channel[0]]: [item] is absent when the export has no item. *)
Record Data : Type := {
  item : option (list Item)
}.

Record Config : Type := {
  includeOtherTypes : bool;
  saveAttachedImages : bool;
  saveScrapedImages : bool
}.

(** ** Record classifier *)

Definition excluded_types : list string :=
  ["attachment"; "revision"; "nav_menu_item"; "custom_css"; "customize_changeset"].

Definition channel_items (data : Data) : result (list Item) :=
  match item data with
  | Some l => Ok l
  | None => Throw (TypeError "Cannot read properties of undefined")
  end.

Definition getPostTypes (data : Data) (config : Config) : result (list string) :=
  if includeOtherTypes config then
    (let? items := channel_items data in
     let? types := map_result (fun it => idx0 (post_type it)) items in
     Ok (new_Set (filter (fun type => negb (includes excluded_types type)) types)))%result
  else
    Ok ["post"].

Definition getItemsOfType (data : Data) (type : string) : result (list Item) :=
  (let? items := channel_items data in
   filter_result (fun it => let? t := idx0 (post_type it) in Ok (String.eqb t type)) items)%result.

(** ** What the parser takes from outside *)

(** [settings.js]. *)
Record Settings : Type := {
  custom_date_formatting : string;
  include_time_with_date : bool;
  filter_categories : list string
}.

(** luxon's [DateTime], the platform's [URL] and [decodeURIComponent], and
    [translator.getPostContent]. [fromRFC2822] is the call with
    [{ zone: 'utc' }]; [newURL_href rel base] is [new URL(rel, base).href]. *)
Record Platform : Type := {
  decodeURIComponent : string -> result string;
  DateTime : Type;
  fromRFC2822 : string -> DateTime;
  toFormat : DateTime -> string -> value;
  toISO : DateTime -> value;
  toISODate : DateTime -> value;
  newURL_href : string -> string -> result string;
  getPostContent : Item -> Config -> result string
}.

(** ** The normalized records *)

Module Meta.
Record t : Type := {
    id : value;
    slug : string;
    coverImageId : value;
    type : string;
    imageUrls : list string
}.
End Meta.

(** The five properties that enrichment spreads into the frontmatter. *)
Module Enriched.
Record t : Type := {
    start_datetime : value;
    end_datetime : value;
    venue : value;
    address : string;
    ical_source_url : value
}.
End Enriched.

Module Frontmatter.
Record t : Type := {
    title : string;
    date : value;
    categories : list string;
    tags : list string;
    wp_id : value;
    wp_type : string;
    wp_slug : string;
    creator : string;
    enriched : option Enriched.t;
    coverImage : option string
}.
End Frontmatter.

Module Post.
Record t : Type := {
    meta : Meta.t;
    frontmatter : Frontmatter.t;
    content : string
}.
End Post.

Module Asset.
Record t : Type := {
    id : value;
    postId : value;
    url : string
}.
End Asset.

(** The [event_data] object of the events service. *)
Module EventData.
Record t : Type := {
    start_datetime : value;
    end_datetime : value;
    venue : value;
    province : value;
    city : value;
    address : value;
    postal_code : value;
    ical_source_url : value
}.
End EventData.

(** What [getEventMetadata] resolves with: a falsy value ([undefined] after
    a non-OK status, or a [null] body), or an object whose [event_data]
    is absent or falsy ([None]) or present. *)
Inductive EventMetadata : Type :=
| MetaFalsy
| MetaObject (event_data : option EventData.t).

(** ** Field accessors of the record extractor *)

Section Extractor.

Variable P : Platform.
Variable settings : Settings.

Definition getPostId (post : Item) : result value :=
  (let? x := idx0 (post_id post) in Ok (VStr x))%result.

Definition getPostSlug (post : Item) : result string :=
  (let? x := idx0 (post_name post) in decodeURIComponent P x)%result.

Definition getPostCoverImageId (post : Item) : result value :=
  match postmeta post with
  | None => Ok VUndefined
  | Some metas =>
      (let? found :=
         find_result
           (fun pm => let? k := idx0 (meta_key pm) in Ok (String.eqb k "_thumbnail_id"))
           metas in
       match found with
       | Some pm => let? v := idx0 (meta_value pm) in Ok (VStr v)
       | None => Ok VUndefined
       end)%result
  end.

Definition getPostTitle (post : Item) : result string :=
  idx0 (title post).

Definition getPostDate (post : Item) : result value :=
  (let? x := idx0 (pubDate post) in
   let dateTime := fromRFC2822 P x in
   if negb (String.eqb (custom_date_formatting settings) "") then
     Ok (toFormat P dateTime (custom_date_formatting settings))
   else if include_time_with_date settings then
     Ok (toISO P dateTime)
   else
     Ok (toISODate P dateTime))%result.

Definition category_attrs (c : Category) : result CategoryAttrs :=
  match attrs c with
  | Some a => Ok a
  | None => Throw (TypeError "Cannot read properties of undefined (reading 'domain')")
  end.

Definition processCategoryTags (post : Item) (dom : string) : result (list string) :=
  match category post with
  | None => Ok []
  | Some cats =>
      (let? kept :=
         filter_result
           (fun c => let? a := category_attrs c in Ok (strict_eq (domain a) (VStr dom)))
           cats in
       map_result
         (fun c => let? a := category_attrs c in decodeURIComponent P (toString (nicename a)))
         kept)%result
  end.

Definition getCategories (post : Item) : result (list string) :=
  (let? cats := processCategoryTags post "category" in
   Ok (filter (fun c => negb (includes (filter_categories settings) c)) cats))%result.

Definition getTags (post : Item) : result (list string) :=
  processCategoryTags post "post_tag".

Definition getPostCreator (post : Item) : result string :=
  idx0 (creator post).

End Extractor.

(** ** Address composition *)

(** White space that [String.prototype.trim] removes, within ASCII. *)
Definition is_white_space (c : ascii) : bool :=
  match nat_of_ascii c with
  | 9 | 10 | 11 | 12 | 13 | 32 => true
  | _ => false
  end.

Fixpoint trimStart (s : string) : string :=
  match s with
  | EmptyString => EmptyString
  | String c s' => if is_white_space c then trimStart s' else s
  end.

Fixpoint trimEnd (s : string) : string :=
  match s with
  | EmptyString => EmptyString
  | String c s' =>
      match trimEnd s' with
      | EmptyString => if is_white_space c then EmptyString else String c EmptyString
      | t => String c t
      end
  end.

Definition trim (s : string) : string := trimEnd (trimStart s).

(** [eventMetadata.event_data.x] reads through [event_data]. *)
Definition event_data_of (eventMetadata : EventMetadata) : result EventData.t :=
  match eventMetadata with
  | MetaObject (Some d) => Ok d
  | _ => Throw (TypeError "Cannot read properties of undefined")
  end.

(** What [Array.prototype.join] writes for an element. *)
Definition join_element (v : value) : string :=
  match v with
  | VUndefined | VNull => ""
  | _ => toString v
  end.

(** The variant of the parser that reads the events from [events.json]
    (the first [getAddress] of the source). *)
Module Historical.

(** [component && component.trim() !== ''] *)
Definition valid_component (component : value) : result bool :=
  if truthy component then
    match component with
    | VStr s => Ok (negb (String.eqb (trim s) ""))
    | _ => Throw (TypeError "component.trim is not a function")
    end
  else Ok false.

Definition getAddress (eventMetadata : EventMetadata) : result string :=
  (let? d := event_data_of eventMetadata in
   let province := EventData.province d in
   let city := EventData.city d in
   let address := EventData.address d in
   let postal_code := EventData.postal_code d in
   let addressComponents := [address; city; province; postal_code] in
   let? validComponents := filter_result valid_component addressComponents in
   Ok (String.concat ", " (map join_element validComponents)))%result.

End Historical.

(** The variant that fetches the events (the second [getAddress]). *)
Definition getAddress (eventMetadata : EventMetadata) : result string :=
  (let? d := event_data_of eventMetadata in
   let province := EventData.province d in
   let city := EventData.city d in
   let address := EventData.address d in
   let postal_code := EventData.postal_code d in
   Ok (toString address ++ ", " ++ toString city ++ ", "
         ++ toString province ++ ", " ++ toString postal_code)%string)%result.

(** ** Asynchronous code over a logical clock *)

(** A settled promise: its outcome, when it settled, and the requests that
    the computation started, each with its start time. *)
Record Settled (A : Type) : Type := {
  outcome : result A;
  settled_at : N;
  requests : list (N * string)
}.
Arguments outcome {A} s.
Arguments settled_at {A} s.
Arguments requests {A} s.

Definition Async (A : Type) : Type := N -> Settled A.

Definition lift {A : Type} (r : result A) : Async A :=
  fun t => {| outcome := r; settled_at := t; requests := [] |}.

Definition resolve {A : Type} (a : A) : Async A := lift (Ok a).

Definition reject {A : Type} (e : error) : Async A := lift (Throw e).

(** [const x = await c; k x] *)
Definition await {A B : Type} (c : Async A) (k : A -> Async B) : Async B :=
  fun t =>
    let r := c t in
    match outcome r with
    | Ok a =>
        let r' := k a (settled_at r) in
        {| outcome := outcome r';
           settled_at := settled_at r';
           requests := requests r ++ requests r' |}
    | Throw e =>
        {| outcome := Throw e; settled_at := settled_at r; requests := requests r |}
    end.

(** [c.catch(handler)] *)
Definition async_catch {A : Type} (c : Async A) (handler : error -> Async A) : Async A :=
  fun t =>
    let r := c t in
    match outcome r with
    | Ok a => r
    | Throw e =>
        let r' := handler e (settled_at r) in
        {| outcome := outcome r';
           settled_at := settled_at r';
           requests := requests r ++ requests r' |}
    end.

Declare Scope async_scope.
Delimit Scope async_scope with async.
Notation "'let*' x ':=' c 'in' k" := (await c (fun x => k))
  (at level 10, x name, c at level 100, k at level 200) : async_scope.

(** [new Promise(resolve => setTimeout(resolve, ms))] *)
Definition delay (ms : N) : Async unit :=
  fun t => {| outcome := Ok tt; settled_at := (t + ms)%N; requests := [] |}.

Fixpoint first_rejection {A : Type} (rs : list (Settled A)) : option (error * N) :=
  match rs with
  | [] => None
  | r :: rs' =>
      match outcome r, first_rejection rs' with
      | Throw e, Some (e', t') =>
          if (settled_at r <=? t')%N then Some (e, settled_at r) else Some (e', t')
      | Throw e, None => Some (e, settled_at r)
      | Ok _, other => other
      end
  end.

Fixpoint fulfilled_values {A : Type} (rs : list (Settled A)) : list A :=
  match rs with
  | [] => []
  | r :: rs' =>
      match outcome r with
      | Ok a => a :: fulfilled_values rs'
      | Throw _ => fulfilled_values rs'
      end
  end.

Definition latest {A : Type} (t : N) (rs : list (Settled A)) : N :=
  fold_left (fun m r => N.max m (settled_at r)) rs t.

(** [Promise.all(cs)] for promises created at the same instant: it rejects
    with the first rejection in time (the lowest index on a tie), and
    otherwise fulfils, with the values in the order of [cs], when the last
    one has settled. The other computations run on after a rejection. *)
Definition Promise_all {A : Type} (cs : list (Async A)) : Async (list A) :=
  fun t =>
    let rs := map (fun c => c t) cs in
    let reqs := concat (map requests rs) in
    match first_rejection rs with
    | Some (e, t') => {| outcome := Throw e; settled_at := t'; requests := reqs |}
    | None =>
        {| outcome := Ok (fulfilled_values rs);
           settled_at := latest t rs;
           requests := reqs |}
    end.

(** [xs.map((x, index) => f x index)] *)
Fixpoint mapi_from {A B : Type} (f : A -> nat -> B) (index : nat) (l : list A) : list B :=
  match l with
  | [] => []
  | x :: l' => f x index :: mapi_from f (S index) l'
  end.

Definition mapi {A B : Type} (f : A -> nat -> B) (l : list A) : list B :=
  mapi_from f 0 l.

(** ** The events service *)

Inductive Body : Type :=
| JsonBody (data : EventMetadata)
| InvalidBody.

Record Response : Type := {
  ok : bool;
  http_status : Z;
  body : Body
}.

(** What the network does with a request: the response arrives after
    [latency], the request fails after [latency], or nothing ever comes. *)
Inductive NetOutcome : Type :=
| Responds (latency : N) (res : Response)
| Fails (latency : N)
| Hangs.

Definition Network : Type := string -> NetOutcome.

(** ** Event enricher and record extractor *)

Section Collector.

Variable P : Platform.
Variable settings : Settings.
Variable network : Network.

(** [fetch(url, { signal })] together with the timer that aborts the request
    after [abort_after]: the timer is cleared only when the response has
    come, so it wins against anything that takes at least as long. *)
Definition fetch_with_abort (url : string) (abort_after : N) : Async Response :=
  fun t =>
    let aborted :=
      {| outcome := Throw AbortError;
         settled_at := (t + abort_after)%N;
         requests := [(t, url)] |} in
    match network url with
    | Responds latency res =>
        if (latency <? abort_after)%N then
          {| outcome := Ok res; settled_at := (t + latency)%N; requests := [(t, url)] |}
        else aborted
    | Fails latency =>
        if (latency <? abort_after)%N then
          {| outcome := Throw (TypeError "fetch failed");
             settled_at := (t + latency)%N;
             requests := [(t, url)] |}
        else aborted
    | Hangs => aborted
    end.

(** [res.json()] *)
Definition json (res : Response) : Async EventMetadata :=
  match body res with
  | JsonBody data => resolve data
  | InvalidBody => reject SyntaxError
  end.

Definition events_url (id : value) : string :=
  ("https://dssg.fas.harvard.edu/wp-json/wp/v2/events/" ++ toString id)%string.

Definition getEventMetadata (id : value) : Async EventMetadata :=
  async_catch
    (let* res := fetch_with_abort (events_url id) 10000 in
     if negb (ok res) then resolve MetaFalsy else json res)%async
    (fun err => reject err).

(** [{ ...frontmatter, start_datetime: ..., ... }] *)
Definition enrich (frontmatter : Frontmatter.t) (d : EventData.t) (address : string)
  : Frontmatter.t :=
  {| Frontmatter.title := Frontmatter.title frontmatter;
     Frontmatter.date := Frontmatter.date frontmatter;
     Frontmatter.categories := Frontmatter.categories frontmatter;
     Frontmatter.tags := Frontmatter.tags frontmatter;
     Frontmatter.wp_id := Frontmatter.wp_id frontmatter;
     Frontmatter.wp_type := Frontmatter.wp_type frontmatter;
     Frontmatter.wp_slug := Frontmatter.wp_slug frontmatter;
     Frontmatter.creator := Frontmatter.creator frontmatter;
     Frontmatter.enriched :=
       Some {| Enriched.start_datetime := EventData.start_datetime d;
               Enriched.end_datetime := EventData.end_datetime d;
               Enriched.venue := EventData.venue d;
               Enriched.address := address;
               Enriched.ical_source_url := EventData.ical_source_url d |};
     Frontmatter.coverImage := Frontmatter.coverImage frontmatter |}.

(** The [meta] that the callback builds before anything is awaited. *)
Definition build_meta (postType : string) (post : Item) : result Meta.t :=
  (let? id := getPostId post in
   let? slug := getPostSlug P post in
   let? coverImageId := getPostCoverImageId post in
   Ok {| Meta.id := id;
         Meta.slug := slug;
         Meta.coverImageId := coverImageId;
         Meta.type := postType;
         Meta.imageUrls := [] |})%result.

(** The [frontmatter] before enrichment. *)
Definition build_frontmatter (postType : string) (post : Item) : result Frontmatter.t :=
  (let? title := getPostTitle post in
   let? date := getPostDate P settings post in
   let? categories := getCategories P settings post in
   let? tags := getTags P post in
   let? wp_id := getPostId post in
   let? wp_slug := getPostSlug P post in
   let? creator := getPostCreator post in
   Ok {| Frontmatter.title := title;
         Frontmatter.date := date;
         Frontmatter.categories := categories;
         Frontmatter.tags := tags;
         Frontmatter.wp_id := wp_id;
         Frontmatter.wp_type := postType;
         Frontmatter.wp_slug := wp_slug;
         Frontmatter.creator := creator;
         Frontmatter.enriched := None;
         Frontmatter.coverImage := None |})%result.

Definition build_post (config : Config) (post : Item) (meta : Meta.t)
    (frontmatter : Frontmatter.t) : Async Post.t :=
  (let* content := lift (getPostContent P post config) in
   resolve {| Post.meta := meta; Post.frontmatter := frontmatter; Post.content := content |})%async.

(** The callback of [postsForType.map(async (post, index) => ...)]. *)
Definition processPost (config : Config) (postType : string) (post : Item) (index : nat)
  : Async Post.t :=
  (let* _ := (if negb (Nat.eqb index 0) then delay 5000 else resolve tt) in
   let* meta := lift (build_meta postType post) in
   let* frontmatter := lift (build_frontmatter postType post) in
   if negb (String.eqb postType "ai1ec_event") then
     build_post config post meta frontmatter
   else
     let* _ := lift (getPostId post) in
     let* id := lift (getPostId post) in
     let* eventMetadata := getEventMetadata id in
     match eventMetadata with
     | MetaObject (Some d) =>
         let* address := lift (getAddress eventMetadata) in
         build_post config post meta (enrich frontmatter d address)
     | _ => build_post config post meta frontmatter
     end)%async.

(** [post.status[0] !== 'trash' && post.status[0] !== 'draft'] *)
Definition published (post : Item) : result bool :=
  (let? s := idx0 (status post) in
   Ok (negb (String.eqb s "trash") && negb (String.eqb s "draft")))%result.

(** [Boolean(post)]: an object is truthy. *)
Definition Boolean (post : Post.t) : bool := true.

(** The body of [for (const postType of postTypes)], with [allPosts]
    passed along. *)
Fixpoint collectPosts_from (data : Data) (config : Config) (postTypes : list string)
    (allPosts : list Post.t) : Async (list Post.t) :=
  match postTypes with
  | [] => resolve allPosts
  | postType :: rest =>
      (let* postsForType :=
         lift (let? items := getItemsOfType data postType in
               filter_result published items)%result in
       let postsPromises := mapi (processPost config postType) postsForType in
       let* resolvedPostsForType := Promise_all postsPromises in
       collectPosts_from data config rest
         (allPosts ++ filter Boolean resolvedPostsForType))%async
  end.

Definition collectPosts (data : Data) (postTypes : list string) (config : Config)
  : Async (list Post.t) :=
  collectPosts_from data config postTypes [].

End Collector.

(** ** Regular expressions

    The two patterns of the source use literals, [.], a negated one-character
    class, alternation, [?], a greedy star and a lazy plus on one-character
    classes, one capturing group and [$]. The matcher is the backtracking
    matcher of ECMAScript restricted to these: alternatives are tried from
    left to right, a greedy quantifier tries the longest repetition first, a
    lazy one the shortest. *)

Inductive char_class : Type :=
| AnyChar
| NotChar (c : ascii)
| Char (c : ascii).

Inductive regex : Type :=
| Empty
| One (cl : char_class)
| Seq (r1 r2 : regex)
| Alt (r1 r2 : regex)
| Opt (r : regex)
| Star (cl : char_class)
| LazyPlus (cl : char_class)
| Group (r : regex)
| EndOfInput.

Definition to_lower (c : ascii) : ascii :=
  let n := nat_of_ascii c in
  if (65 <=? n)%nat && (n <=? 90)%nat then ascii_of_nat (n + 32) else c.

Definition is_line_terminator (c : ascii) : bool :=
  match nat_of_ascii c with
  | 10 | 13 => true
  | _ => false
  end.

(** One character against a class, under the [i] flag. *)
Definition class_matches (cl : char_class) (c : ascii) : bool :=
  match cl with
  | AnyChar => negb (is_line_terminator c)
  | NotChar x => negb (Ascii.eqb (to_lower x) (to_lower c))
  | Char x => Ascii.eqb (to_lower x) (to_lower c)
  end.

Section Matcher.

Variable R : Type.

Fixpoint star_greedy (cl : char_class) (k : list ascii -> option R) (s : list ascii)
  : option R :=
  match s with
  | c :: s' =>
      if class_matches cl c then
        match star_greedy cl k s' with
        | Some r => Some r
        | None => k s
        end
      else k s
  | [] => k s
  end.

Fixpoint plus_lazy (cl : char_class) (k : list ascii -> option R) (s : list ascii)
  : option R :=
  match s with
  | c :: s' =>
      if class_matches cl c then
        match k s' with
        | Some r => Some r
        | None => plus_lazy cl k s'
        end
      else None
  | [] => None
  end.

(** [rmatch r s cap k]: match [r] at the head of [s], with [cap] the text of
    the capturing group so far, and go on with [k] on what is left. *)
Fixpoint rmatch (r : regex) (s : list ascii) (cap : option (list ascii))
    (k : list ascii -> option (list ascii) -> option R) : option R :=
  match r with
  | Empty => k s cap
  | One cl =>
      match s with
      | c :: s' => if class_matches cl c then k s' cap else None
      | [] => None
      end
  | Seq r1 r2 => rmatch r1 s cap (fun s' cap' => rmatch r2 s' cap' k)
  | Alt r1 r2 =>
      match rmatch r1 s cap k with
      | Some x => Some x
      | None => rmatch r2 s cap k
      end
  | Opt r1 =>
      match rmatch r1 s cap k with
      | Some x => Some x
      | None => k s cap
      end
  | Star cl => star_greedy cl (fun s' => k s' cap) s
  | LazyPlus cl => plus_lazy cl (fun s' => k s' cap) s
  | Group r1 =>
      rmatch r1 s cap (fun s' _ => k s' (Some (firstn (length s - length s') s)))
  | EndOfInput =>
      match s with
      | [] => k s cap
      | _ :: _ => None
      end
  end.

End Matcher.

(** One attempt at the head of [s]: what is left after the match and the
    text of the group. *)
Definition match_here (r : regex) (s : list ascii)
  : option (list ascii * option (list ascii)) :=
  rmatch _ r s None (fun s' cap => Some (s', cap)).

(** [r.test(s)]: is there a match at some position. *)
Fixpoint test_from (r : regex) (s : list ascii) : bool :=
  match match_here r s with
  | Some _ => true
  | None =>
      match s with
      | [] => false
      | _ :: s' => test_from r s'
      end
  end.

Definition regex_test (r : regex) (s : string) : bool :=
  test_from r (list_ascii_of_string s).

(** [[...s.matchAll(r)]] with the [g] flag: the search for the next match
    starts where the last one ended, one character further after an empty
    match. [skip] counts the characters of the last match still to pass.
    Each match is given by [match[1]]. *)
Fixpoint matchAll_from (r : regex) (s : list ascii) (skip : nat) : list (option (list ascii)) :=
  match s with
  | [] =>
      match skip, match_here r [] with
      | 0, Some (_, cap) => [cap]
      | _, _ => []
      end
  | _ :: s' =>
      match skip with
      | S n => matchAll_from r s' n
      | 0 =>
          match match_here r s with
          | Some (rest, cap) => cap :: matchAll_from r s' (length s - length rest - 1)
          | None => matchAll_from r s' 0
          end
      end
  end.

(** [match[1]] as the argument of [new URL]. *)
Definition group1 (cap : option (list ascii)) : string :=
  match cap with
  | Some l => string_of_list_ascii l
  | None => toString VUndefined
  end.

Definition matchAll (r : regex) (s : string) : list string :=
  map group1 (matchAll_from r (list_ascii_of_string s) 0).

(** A literal text. *)
Fixpoint lit (s : string) : regex :=
  match s with
  | EmptyString => Empty
  | String c EmptyString => One (Char c)
  | String c s' => Seq (One (Char c)) (lit s')
  end.

Definition dquote : ascii := "034"%char.

(** [gif|jpe?g|png] *)
Definition image_extension : regex :=
  Alt (lit "gif") (Alt (Seq (lit "jp") (Seq (Opt (One (Char "e"))) (lit "g"))) (lit "png")).

(** [/\.(gif|jpe?g|png)$/i] *)
Definition attachment_pattern : regex :=
  Seq (One (Char ".")) (Seq image_extension EndOfInput).

(** [/<img[^>]*src="(.+?\.(?:gif|jpe?g|png))"[^>]*>/gi] *)
Definition img_pattern : regex :=
  Seq (lit "<img")
    (Seq (Star (NotChar ">"))
       (Seq (lit "src=")
          (Seq (One (Char dquote))
             (Seq (Group (Seq (LazyPlus AnyChar) (Seq (One (Char ".")) image_extension)))
                (Seq (One (Char dquote))
                   (Seq (Star (NotChar ">")) (One (Char ">")))))))).

(** ** Asset collectors *)

Definition collectAttachedImages (data : Data) : result (list Asset.t) :=
  (let? attachments := getItemsOfType data "attachment" in
   let? images :=
     filter_result
       (fun attachment =>
          let? u := idx0 (attachment_url attachment) in
          Ok (regex_test attachment_pattern u))
       attachments in
   map_result
     (fun attachment =>
        let? id := idx0 (post_id attachment) in
        let? parent := idx0 (post_parent attachment) in
        let? u := idx0 (attachment_url attachment) in
        Ok {| Asset.id := VStr id; Asset.postId := VStr parent; Asset.url := u |})
     images)%result.

Section Scraper.

Variable P : Platform.

(** The body of [getItemsOfType(data, postType).forEach(post => ...)]: the
    assets pushed for one post. *)
Definition scrapePost (post : Item) : result (list Asset.t) :=
  (let? postId := idx0 (post_id post) in
   let? postContent := idx0 (encoded post) in
   let? postLink := idx0 (link post) in
   let matches := matchAll img_pattern postContent in
   map_result
     (fun match1 =>
        let? url := newURL_href P match1 postLink in
        Ok {| Asset.id := VNum (-1); Asset.postId := VStr postId; Asset.url := url |})
     matches)%result.

Definition collectScrapedImages (data : Data) (postTypes : list string)
  : result (list Asset.t) :=
  (let? perType :=
     map_result
       (fun postType =>
          let? posts := getItemsOfType data postType in
          let? perPost := map_result scrapePost posts in
          Ok (concat perPost))
       postTypes in
   Ok (concat perType))%result.

End Scraper.

(** ** Correlator *)

(** Modelled from the spec: the loop of [shared.getFilenameFromUrl], of
    [shared.js], which is not part of the sources at hand. The spec has it
    return the filename portion of the URL, the path segment after the last
    [/]; [segment] is the segment read so far. *)
Fixpoint getFilenameFromUrl_from (segment : string) (url : string) : string :=
  match url with
  | EmptyString => segment
  | String c url' =>
      if Ascii.eqb c "/" then getFilenameFromUrl_from EmptyString url'
      else getFilenameFromUrl_from (segment ++ String c EmptyString)%string url'
  end.

(** Modelled from the spec: [shared.getFilenameFromUrl(url)], the path
    segment of [url] after its last [/] (the whole of [url] when it has
    none). *)
Definition getFilenameFromUrl (url : string) : string :=
  getFilenameFromUrl_from EmptyString url.

(** Rule A: [image.postId === post.meta.id]. *)
Definition attachment_of (image : Asset.t) (post : Post.t) : bool :=
  strict_eq (Asset.postId image) (Meta.id (Post.meta post)).

(** Rule B: [image.id === post.meta.coverImageId]. *)
Definition cover_of (image : Asset.t) (post : Post.t) : bool :=
  strict_eq (Asset.id image) (Meta.coverImageId (Post.meta post)).

Definition set_coverImage (frontmatter : Frontmatter.t) (name : string) : Frontmatter.t :=
  {| Frontmatter.title := Frontmatter.title frontmatter;
     Frontmatter.date := Frontmatter.date frontmatter;
     Frontmatter.categories := Frontmatter.categories frontmatter;
     Frontmatter.tags := Frontmatter.tags frontmatter;
     Frontmatter.wp_id := Frontmatter.wp_id frontmatter;
     Frontmatter.wp_type := Frontmatter.wp_type frontmatter;
     Frontmatter.wp_slug := Frontmatter.wp_slug frontmatter;
     Frontmatter.creator := Frontmatter.creator frontmatter;
     Frontmatter.enriched := Frontmatter.enriched frontmatter;
     Frontmatter.coverImage := Some name |}.

Definition set_imageUrls (meta : Meta.t) (urls : list string) : Meta.t :=
  {| Meta.id := Meta.id meta;
     Meta.slug := Meta.slug meta;
     Meta.coverImageId := Meta.coverImageId meta;
     Meta.type := Meta.type meta;
     Meta.imageUrls := urls |}.

(** The body of the inner loop, [posts.forEach(post => ...)], as the new
    state of [post]. *)
Definition mergeImageIntoPost (image : Asset.t) (post : Post.t) : Post.t :=
  let shouldAttach := false in
  let shouldAttach := if attachment_of image post then true else shouldAttach in
  let cover := cover_of image post in
  let shouldAttach := if cover then true else shouldAttach in
  let frontmatter :=
    if cover then set_coverImage (Post.frontmatter post) (getFilenameFromUrl (Asset.url image))
    else Post.frontmatter post in
  let meta :=
    if shouldAttach && negb (includes (Meta.imageUrls (Post.meta post)) (Asset.url image))
    then set_imageUrls (Post.meta post) (Meta.imageUrls (Post.meta post) ++ [Asset.url image])
    else Post.meta post in
  {| Post.meta := meta; Post.frontmatter := frontmatter; Post.content := Post.content post |}.

(** [images.forEach(image => posts.forEach(post => ...))]: every post is an
    object of its own, so the inner loop updates the posts one by one. *)
Definition mergeImagesIntoPosts (images : list Asset.t) (posts : list Post.t) : list Post.t :=
  fold_left (fun posts image => map (mergeImageIntoPost image) posts) images posts.

(** ** The whole parse, from the parsed export on *)

Definition parseFilePromise (P : Platform) (settings : Settings) (network : Network)
    (data : Data) (config : Config) : Async (list Post.t) :=
  (let* postTypes := lift (getPostTypes data config) in
   let* posts := collectPosts P settings network data postTypes config in
   let* attached :=
     lift (if saveAttachedImages config then collectAttachedImages data else Ok []) in
   let* scraped :=
     lift (if saveScrapedImages config then collectScrapedImages P data postTypes
           else Ok []) in
   resolve (mergeImagesIntoPosts (attached ++ scraped) posts))%async.

(** ** A model of [new URL(rel, base).href]

    The URL parser of the platform on the fragment that needs no
    normalization beyond the path: [http] and [https], a lower-case host name
    without port or credentials, and a path, query and fragment made of
    characters that the parser copies as they are. The path is resolved
    against the base and its dot segments are removed as the URL Standard
    says. Outside of this fragment the model answers [OtherError]. *)
Module URLModel.

Definition is_alpha (c : ascii) : bool :=
  let n := nat_of_ascii (to_lower c) in (97 <=? n)%nat && (n <=? 122)%nat.

Definition is_digit (c : ascii) : bool :=
  let n := nat_of_ascii c in (48 <=? n)%nat && (n <=? 57)%nat.

Definition one_of (chars : string) (c : ascii) : bool :=
  existsb (Ascii.eqb c) (list_ascii_of_string chars).

(** Characters that the path state copies unchanged. *)
Definition path_char (c : ascii) : bool :=
  is_alpha c || is_digit c || one_of "-._~!$&'()*+,;=:@%/" c.

Definition query_char (c : ascii) : bool :=
  is_alpha c || is_digit c || one_of "-._~!$&()*+,;=:@%/?" c.

Definition fragment_char (c : ascii) : bool :=
  is_alpha c || is_digit c || one_of "-._~!$&'()*+,;=:@%/?#" c.

Definition host_char (c : ascii) : bool :=
  (is_alpha c && Ascii.eqb c (to_lower c)) || is_digit c || one_of "-." c.

(** [s.split(sep)] *)
Fixpoint split_on (sep : ascii) (s : list ascii) : list (list ascii) :=
  match s with
  | [] => [[]]
  | c :: s' =>
      if Ascii.eqb c sep then [] :: split_on sep s'
      else
        match split_on sep s' with
        | seg :: rest => (c :: seg) :: rest
        | [] => [[c]]
        end
  end.

(** The text before the first [sep] and, when there is one, the text after. *)
Fixpoint cut_at (sep : ascii) (s : list ascii) : list ascii * option (list ascii) :=
  match s with
  | [] => ([], None)
  | c :: s' =>
      if Ascii.eqb c sep then ([], Some s')
      else let (before, after) := cut_at sep s' in (c :: before, after)
  end.

Fixpoint strip_prefix (p s : list ascii) : option (list ascii) :=
  match p, s with
  | [], _ => Some s
  | a :: p', b :: s' => if Ascii.eqb a b then strip_prefix p' s' else None
  | _ :: _, [] => None
  end.

Definition lower_eq (a b : list ascii) : bool :=
  if list_eq_dec Ascii.ascii_dec (map to_lower a) (map to_lower b) then true else false.

Definition is_single_dot (seg : list ascii) : bool :=
  lower_eq seg (list_ascii_of_string ".") || lower_eq seg (list_ascii_of_string "%2e").

Definition is_double_dot (seg : list ascii) : bool :=
  lower_eq seg (list_ascii_of_string "..")
  || lower_eq seg (list_ascii_of_string ".%2e")
  || lower_eq seg (list_ascii_of_string "%2e.")
  || lower_eq seg (list_ascii_of_string "%2e%2e").

(** The path state: [stack] holds the path so far, last segment first. *)
Fixpoint walk (stack : list (list ascii)) (segs : list (list ascii)) : list (list ascii) :=
  match segs with
  | [] => rev stack
  | seg :: rest =>
      let last := match rest with [] => true | _ :: _ => false end in
      if is_double_dot seg then
        if last then walk ([] :: tl stack) rest else walk (tl stack) rest
      else if is_single_dot seg then
        if last then walk ([] :: stack) rest else walk stack rest
      else walk (seg :: stack) rest
  end.

Record t : Type := {
  scheme : list ascii;
  host : list ascii;
  path : list (list ascii);
  query : option (list ascii);
  fragment : option (list ascii)
}.

(** The labels of a host that the host parser leaves alone: no empty host,
    a last label that starts with a letter (so the host is no IPv4
    address), and no punycode label. *)
Definition plain_host (h : list ascii) : bool :=
  forallb host_char h
  && match rev (split_on "." h) with
     | (c :: _) :: _ => is_alpha c
     | _ => false
     end
  && forallb
       (fun label =>
          match strip_prefix (list_ascii_of_string "xn--") label with
          | Some _ => false
          | None => true
          end)
       (split_on "." h).

(** Query and fragment of a reference, split off its front part. *)
Definition cut_tail (s : list ascii)
  : list ascii * option (list ascii) * option (list ascii) :=
  let (s1, fragment) := cut_at "#" s in
  let (s2, query) := cut_at "?" s1 in
  (s2, query, fragment).

Definition plain_tail (query fragment : option (list ascii)) : bool :=
  match query with Some q => forallb query_char q | None => true end
  && match fragment with Some f => forallb fragment_char f | None => true end.

(** [host/path...] after the two slashes. *)
Definition parse_authority (sch : list ascii) (s : list ascii)
    (query fragment : option (list ascii)) : option t :=
  let (h, p) := cut_at "/" s in
  let segs := match p with Some p' => split_on "/" p' | None => [[]] end in
  if plain_host h && forallb path_char s && plain_tail query fragment then
    Some {| scheme := sch; host := h; path := walk [] segs;
            query := query; fragment := fragment |}
  else None.

Definition parse_absolute (s : list ascii) : option t :=
  let '(front, query, fragment) := cut_tail s in
  match strip_prefix (list_ascii_of_string "http://") front with
  | Some rest => parse_authority (list_ascii_of_string "http") rest query fragment
  | None =>
      match strip_prefix (list_ascii_of_string "https://") front with
      | Some rest => parse_authority (list_ascii_of_string "https") rest query fragment
      | None => None
      end
  end.

(** Does the reference start with [scheme:]? *)
Definition has_scheme (front : list ascii) : bool :=
  match front with
  | c :: _ =>
      is_alpha c
      && match cut_at ":" front with
         | (before, Some _) =>
             forallb (fun x => is_alpha x || is_digit x || one_of "+-." x) before
         | (_, None) => false
         end
  | [] => false
  end.

Definition resolve_reference (rel : list ascii) (base : t) : option t :=
  let '(front, query, fragment) := cut_tail rel in
  if has_scheme front then parse_absolute rel
  else
    match strip_prefix (list_ascii_of_string "//") front with
    | Some rest => parse_authority (scheme base) rest query fragment
    | None =>
        if negb (forallb path_char front && plain_tail query fragment) then None
        else
          match front with
          | [] =>
              Some {| scheme := scheme base; host := host base; path := path base;
                      query := match query with Some q => Some q | None => URLModel.query base end;
                      fragment := fragment |}
          | c :: front' =>
              if Ascii.eqb c "/" then
                Some {| scheme := scheme base; host := host base;
                        path := walk [] (split_on "/" front');
                        query := query; fragment := fragment |}
              else
                Some {| scheme := scheme base; host := host base;
                        path := walk (tl (rev (path base))) (split_on "/" front);
                        query := query; fragment := fragment |}
          end
    end.

Fixpoint join_path (segs : list (list ascii)) : list ascii :=
  match segs with
  | [] => []
  | seg :: rest => "/"%char :: seg ++ join_path rest
  end.

Definition href (u : t) : string :=
  string_of_list_ascii
    (scheme u ++ list_ascii_of_string "://" ++ host u
       ++ (match path u with [] => ["/"%char] | _ :: _ => join_path (path u) end)
       ++ (match query u with Some q => "?"%char :: q | None => [] end)
       ++ (match fragment u with Some f => "#"%char :: f | None => [] end)).

Definition newURL_href (rel base : string) : result string :=
  match parse_absolute (list_ascii_of_string base) with
  | None => Throw (OtherError "base outside the URL model")
  | Some b =>
      match resolve_reference (list_ascii_of_string rel) b with
      | None => Throw (OtherError "reference outside the URL model")
      | Some u => Ok (href u)
      end
  end.

End URLModel.

(** ** A model of luxon's [DateTime]

    [DateTime.fromRFC2822(text, { zone: 'utc' })] with [toISODate] and [toISO]:
    the text is cleaned as luxon cleans it, read against luxon's pattern
    for RFC 2822, checked (ranges of the fields, the weekday against the
    date), and turned into seconds since the epoch; the date is then written
    in UTC. An invalid [DateTime] renders as [null]. *)
Module LuxonModel.

Inductive t : Type :=
| Invalid
| Valid (ts : Z).

Local Open Scope Z_scope.

(** Days since 1970-01-01 of a date of the proleptic Gregorian calendar. *)
Definition days_from_civil (y m d : Z) : Z :=
  let y' := if m <=? 2 then y - 1 else y in
  let era := y' / 400 in
  let yoe := y' - era * 400 in
  let doy := (153 * (if 2 <? m then m - 3 else m + 9) + 2) / 5 + d - 1 in
  let doe := yoe * 365 + yoe / 4 - yoe / 100 + doy in
  era * 146097 + doe - 719468.

Definition civil_from_days (days : Z) : Z * Z * Z :=
  let z := days + 719468 in
  let era := z / 146097 in
  let doe := z - era * 146097 in
  let yoe := (doe - doe / 1460 + doe / 36524 - doe / 146096) / 365 in
  let doy := doe - (365 * yoe + yoe / 4 - yoe / 100) in
  let mp := (5 * doy + 2) / 153 in
  let d := doy - (153 * mp + 2) / 5 + 1 in
  let m := if mp <? 10 then mp + 3 else mp - 9 in
  let y := yoe + era * 400 in
  ((if m <=? 2 then y + 1 else y), m, d).

Definition isLeapYear (y : Z) : bool :=
  (y mod 4 =? 0) && (negb (y mod 100 =? 0) || (y mod 400 =? 0)).

Definition daysInMonth (y m : Z) : Z :=
  if m =? 2 then (if isLeapYear y then 29 else 28)
  else if (m =? 4) || (m =? 6) || (m =? 9) || (m =? 11) then 30
  else 31.

(** luxon's weekday of a day since the epoch: 1 is Monday, 7 is Sunday. *)
Definition weekday_of_days (days : Z) : Z := (days + 3) mod 7 + 1.

Definition is_digit (c : ascii) : bool :=
  let n := nat_of_ascii c in (48 <=? n)%nat && (n <=? 57)%nat.

Definition digit_value (c : ascii) : Z := Z.of_nat (nat_of_ascii c) - 48.

Definition number_of (digits : list ascii) : Z :=
  fold_left (fun n c => 10 * n + digit_value c) digits 0.

(** At most [most] digits from the head of [s], as many as there are. *)
Fixpoint take_digits (most : nat) (s : list ascii) : list ascii * list ascii :=
  match most, s with
  | S n, c :: s' =>
      if is_digit c then let (ds, rest) := take_digits n s' in (c :: ds, rest)
      else ([], s)
  | _, _ => ([], s)
  end.

(** Between [least] and [most] digits, then something that is no digit. *)
Definition digits_between (least most : nat) (s : list ascii) : option (list ascii * list ascii) :=
  let (ds, rest) := take_digits most s in
  if (least <=? length ds)%nat
     && match rest with c :: _ => negb (is_digit c) | [] => true end
  then Some (ds, rest) else None.

Fixpoint strip_prefix (p s : list ascii) : option (list ascii) :=
  match p, s with
  | [], _ => Some s
  | a :: p', b :: s' => if Ascii.eqb a b then strip_prefix p' s' else None
  | _ :: _, [] => None
  end.

(** The first name of [names] that starts [s], with its number from [i]. *)
Fixpoint one_of_names (names : list string) (i : Z) (s : list ascii) : option (Z * list ascii) :=
  match names with
  | [] => None
  | name :: names' =>
      match strip_prefix (list_ascii_of_string name) s with
      | Some rest => Some (i, rest)
      | None => one_of_names names' (i + 1) s
      end
  end.

Definition weekdayNames : list string :=
  ["Mon"; "Tue"; "Wed"; "Thu"; "Fri"; "Sat"; "Sun"].

Definition monthNames : list string :=
  ["Jan"; "Feb"; "Mar"; "Apr"; "May"; "Jun"; "Jul"; "Aug"; "Sep"; "Oct"; "Nov"; "Dec"].

(** The offsets, in minutes, of the zone names that the pattern admits.
    [UT] is admitted by the pattern and is not in luxon's table, which
    leaves the [DateTime] invalid. *)
Definition obsOffsets : list (string * Z) :=
  [("GMT", 0); ("EDT", -4 * 60); ("EST", -5 * 60); ("CDT", -5 * 60); ("CST", -6 * 60);
   ("MDT", -6 * 60); ("MST", -7 * 60); ("PDT", -7 * 60); ("PST", -8 * 60)].

(** One white space, [\s]. *)
Definition space (s : list ascii) : option (list ascii) :=
  match s with
  | c :: s' => if is_white_space c then Some s' else None
  | [] => None
  end.

(** The zone, up to the end of the text: its offset in minutes. *)
Definition parse_zone (s : list ascii) : option Z :=
  match find (fun entry => String.eqb (fst entry) (string_of_list_ascii s)) obsOffsets with
  | Some entry => Some (snd entry)
  | None =>
      match s with
      | [c] => if Ascii.eqb c "Z" || Ascii.eqb c "z" then Some 0 else None
      | [sign; h1; h2; m1; m2] =>
          if (Ascii.eqb sign "+" || Ascii.eqb sign "-")
             && is_digit h1 && is_digit h2 && is_digit m1 && is_digit m2
          then
            let minutes := 60 * number_of [h1; h2] + number_of [m1; m2] in
            Some (if Ascii.eqb sign "-" then - minutes else minutes)
          else None
      | _ => None
      end
  end.

(** [text] from a parenthesis on: the length of a comment body [[^()]*]
    that a closing parenthesis ends. *)
Fixpoint comment_body (s : list ascii) : option nat :=
  match s with
  | [] => None
  | c :: s' =>
      if Ascii.eqb c ")" then Some 0%nat
      else if Ascii.eqb c "(" then None
      else option_map S (comment_body s')
  end.

(** [s.replace(/\([^()]*\)|[\n\t]/g, " ")] *)
Fixpoint replace_comments (s : list ascii) (skip : nat) : list ascii :=
  match s with
  | [] => []
  | c :: s' =>
      match skip with
      | S n => replace_comments s' n
      | O =>
          if Ascii.eqb c "(" then
            match comment_body s' with
            | Some n => " "%char :: replace_comments s' (S n)
            | None => c :: replace_comments s' 0
            end
          else if Ascii.eqb c "010" || Ascii.eqb c "009" then " "%char :: replace_comments s' 0
          else c :: replace_comments s' 0
      end
  end.

(** [s.replace(/(\s\s+)/g, " ")]: [in_run] says that the last character was
    part of a run of white space that has been replaced. *)
Fixpoint collapse_spaces (s : list ascii) (in_run : bool) : list ascii :=
  match s with
  | [] => []
  | c :: s' =>
      if is_white_space c then
        if in_run then collapse_spaces s' true
        else
          match s' with
          | c2 :: _ =>
              if is_white_space c2 then " "%char :: collapse_spaces s' true
              else c :: collapse_spaces s' false
          | [] => [c]
          end
      else c :: collapse_spaces s' false
  end.

Definition preprocessRFC2822 (text : string) : list ascii :=
  list_ascii_of_string
    (trim (string_of_list_ascii
             (collapse_spaces (replace_comments (list_ascii_of_string text) 0) false))).

Record Fields : Type := {
  weekday : option Z;
  day : Z;
  month : Z;
  year : Z;
  hour : Z;
  minute : Z;
  second : Z;
  offset : Z
}.

Definition obind {A B : Type} (o : option A) (k : A -> option B) : option B :=
  match o with
  | Some a => k a
  | None => None
  end.

Notation "'let!' x ':=' o 'in' k" := (obind o (fun x => k))
  (at level 10, x name, o at level 100, k at level 200).

Definition untruncateYear (y : Z) : Z := if 60 <? y then 1900 + y else 2000 + y.

(** The optional [Www, ] in front. *)
Definition parse_weekday (s : list ascii) : option Z * list ascii :=
  match one_of_names weekdayNames 1 s with
  | Some (w, c :: rest) =>
      if Ascii.eqb c "," then
        match space rest with
        | Some rest' => (Some w, rest')
        | None => (None, s)
        end
      else (None, s)
  | _ => (None, s)
  end.

(** The optional [:ss]. *)
Definition parse_seconds (s : list ascii) : Z * list ascii :=
  match s with
  | c :: s' =>
      if Ascii.eqb c ":" then
        match digits_between 2 2 s' with
        | Some (ds, rest) => (number_of ds, rest)
        | None => (0, s)
        end
      else (0, s)
  | [] => (0, s)
  end.

Definition extractRFC2822 (s : list ascii) : option Fields :=
  let (wd, s1) := parse_weekday s in
  let! dd := digits_between 1 2 s1 in
  let! s2 := space (snd dd) in
  let! mo := one_of_names monthNames 1 s2 in
  let! s3 := space (snd mo) in
  let! yy := digits_between 2 4 s3 in
  let! s4 := space (snd yy) in
  let! hh := digits_between 2 2 s4 in
  let! s5 := strip_prefix [":"%char] (snd hh) in
  let! mi := digits_between 2 2 s5 in
  let (sec, s6) := parse_seconds (snd mi) in
  let! s7 := space s6 in
  let! off := parse_zone s7 in
  Some {| weekday := wd;
          day := number_of (fst dd);
          month := fst mo;
          year := if (length (fst yy) =? 2)%nat then untruncateYear (number_of (fst yy))
                  else number_of (fst yy);
          hour := number_of (fst hh);
          minute := number_of (fst mi);
          second := sec;
          offset := off |}.

Definition valid_fields (f : Fields) : bool :=
  (1 <=? day f) && (day f <=? daysInMonth (year f) (month f))
  && ((hour f <=? 23) || ((hour f =? 24) && (minute f =? 0) && (second f =? 0)))
  && (minute f <=? 59) && (second f <=? 59).

Definition fromRFC2822 (text : string) : t :=
  match extractRFC2822 (preprocessRFC2822 text) with
  | None => Invalid
  | Some f =>
      if valid_fields f then
        let localSeconds :=
          days_from_civil (year f) (month f) (day f) * 86400
          + hour f * 3600 + minute f * 60 + second f in
        match weekday f with
        | Some w =>
            if w =? weekday_of_days (localSeconds / 86400)
            then Valid (localSeconds - offset f * 60)
            else Invalid
        | None => Valid (localSeconds - offset f * 60)
        end
      else Invalid
  end.

(** [n] decimal digits of [z], for [0 <= z]. *)
Fixpoint pad (n : nat) (z : Z) : string :=
  match n with
  | O => EmptyString
  | S n' => (pad n' (z / 10) ++ String (ascii_of_nat (48 + Z.to_nat (z mod 10))) EmptyString)%string
  end.

Definition year_string (y : Z) : string :=
  if (0 <=? y) && (y <=? 9999) then pad 4 y
  else if 0 <=? y then ("+" ++ pad 6 y)%string
  else ("-" ++ pad 6 (- y))%string.

Definition isoDate (ts : Z) : string :=
  let '(y, m, d) := civil_from_days (ts / 86400) in
  (year_string y ++ "-" ++ pad 2 m ++ "-" ++ pad 2 d)%string.

Definition isoTime (ts : Z) : string :=
  let s := ts mod 86400 in
  (pad 2 (s / 3600) ++ ":" ++ pad 2 (s mod 3600 / 60) ++ ":" ++ pad 2 (s mod 60) ++ ".000Z")%string.

Definition toISODate (dt : t) : value :=
  match dt with
  | Invalid => VNull
  | Valid ts => VStr (isoDate ts)
  end.

Definition toISO (dt : t) : value :=
  match dt with
  | Invalid => VNull
  | Valid ts => VStr (isoDate ts ++ "T" ++ isoTime ts)%string
  end.

End LuxonModel.

(** ** A platform to run the parser on examples

    luxon and [URL] are the models above. The rest stands in for what is not
    modelled: [decodeURIComponent] decodes the escapes byte by byte and does
    not check that the bytes are UTF-8, [toFormat] knows the tokens [yyyy],
    [MM], [dd], [HH], [mm] and [ss] and copies every other character, and the
    translator returns the body as it is. *)
Module Example.

Definition hex_value (c : ascii) : option nat :=
  let n := nat_of_ascii (to_lower c) in
  if (48 <=? n)%nat && (n <=? 57)%nat then Some (n - 48)
  else if (97 <=? n)%nat && (n <=? 102)%nat then Some (n - 87)
  else None.

Fixpoint decodeURIComponent_model (s : string) : result string :=
  match s with
  | EmptyString => Ok EmptyString
  | String c s' =>
      if Ascii.eqb c "%" then
        match s' with
        | String h (String l s'') =>
            match hex_value h, hex_value l with
            | Some a, Some b =>
                (let? rest := decodeURIComponent_model s'' in
                 Ok (String (ascii_of_nat (16 * a + b)) rest))%result
            | _, _ => Throw URIError
            end
        | _ => Throw URIError
        end
      else
        (let? rest := decodeURIComponent_model s' in Ok (String c rest))%result
  end.

Definition tokens (ts : Z) : list (string * string) :=
  let '(y, m, d) := LuxonModel.civil_from_days (ts / 86400)%Z in
  let s := (ts mod 86400)%Z in
  [("yyyy", LuxonModel.year_string y); ("MM", LuxonModel.pad 2 m); ("dd", LuxonModel.pad 2 d);
   ("HH", LuxonModel.pad 2 (s / 3600)%Z); ("mm", LuxonModel.pad 2 (s mod 3600 / 60)%Z);
   ("ss", LuxonModel.pad 2 (s mod 60)%Z)].

Fixpoint format_from (table : list (string * string)) (fmt : list ascii) (skip : nat) : string :=
  match fmt with
  | [] => EmptyString
  | c :: fmt' =>
      match skip with
      | S n => format_from table fmt' n
      | O =>
          match find (fun entry =>
                        match LuxonModel.strip_prefix (list_ascii_of_string (fst entry)) fmt with
                        | Some _ => true
                        | None => false
                        end) table with
          | Some entry =>
              (snd entry ++ format_from table fmt' (String.length (fst entry) - 1))%string
          | None => String c (format_from table fmt' 0)
          end
      end
  end.

Definition toFormat_model (dt : LuxonModel.t) (fmt : string) : value :=
  match dt with
  | LuxonModel.Invalid => VStr "Invalid DateTime"
  | LuxonModel.Valid ts => VStr (format_from (tokens ts) (list_ascii_of_string fmt) 0)
  end.

Definition getPostContent_model (post : Item) (config : Config) : result string :=
  idx0 (encoded post).

Definition platform : Platform :=
  {| decodeURIComponent := decodeURIComponent_model;
     DateTime := LuxonModel.t;
     fromRFC2822 := LuxonModel.fromRFC2822;
     toFormat := toFormat_model;
     toISO := LuxonModel.toISO;
     toISODate := LuxonModel.toISODate;
     newURL_href := URLModel.newURL_href;
     getPostContent := getPostContent_model |}.

(** The settings as the repository ships them: no custom format, dates
    without time, no category left out. *)
Definition settings : Settings :=
  {| custom_date_formatting := "";
     include_time_with_date := false;
     filter_categories := [] |}.

Definition config : Config :=
  {| includeOtherTypes := true; saveAttachedImages := true; saveScrapedImages := true |}.

(** An item with the fields that WordPress always writes. *)
Definition item_of (type id name body : string) : Item :=
  {| post_type := Some type;
     status := Some "publish";
     post_id := Some id;
     post_name := Some name;
     postmeta := None;
     title := Some name;
     pubDate := Some "Wed, 01 Jan 2020 12:00:00 +0000";
     category := None;
     creator := Some "admin";
     encoded := Some body;
     link := Some ("https://site.test/post/" ++ id ++ "/")%string;
     attachment_url := None;
     post_parent := None |}.

End Example.

(** ** Vocabulary of the specification *)

(** Deduplication that keeps the first occurrence of every value, in the
    order in which the values were first seen. *)
Fixpoint dedup_first (l : list string) : list string :=
  match l with
  | [] => []
  | x :: l' => x :: filter (fun y => negb (String.eqb y x)) (dedup_first l')
  end.

(** An item that the extractor selects for the type [postType]. *)
Definition selected (data : Data) (postType : string) (post : Item) : Prop :=
  exists items s,
    item data = Some items /\ In post items /\ post_type post = Some postType
    /\ status post = Some s /\ s <> "trash" /\ s <> "draft".

(** The request of a record fails: the network fails, or nothing has come
    when the timer of 10000 ms fires. *)
Definition request_fails (network : Network) (id : value) : Prop :=
  match network (events_url id) with
  | Responds latency _ => (10000 <= latency)%N
  | Fails _ => True
  | Hangs => True
  end.



(** The other composition: the four components, joined whatever they are. *)
Definition compose_all (d : EventData.t) : string :=
  String.concat ", "
    (map toString
       [EventData.address d; EventData.city d; EventData.province d;
        EventData.postal_code d]).


(** The assets that the correlator attaches to [post]: rule A or rule B. *)
Definition attaches (image : Asset.t) (post : Post.t) : bool :=
  attachment_of image post || cover_of image post.

(** The state of one post after the correlator has seen [images]. *)
Definition mergeImagesIntoPost (images : list Asset.t) (post : Post.t) : Post.t :=
  fold_left (fun post image => mergeImageIntoPost image post) images post.



(** The example of the correlator: two attachments of the record 10, the
    second of which is its cover image. *)
Definition C4_a : Asset.t :=
  {| Asset.id := VStr "5"; Asset.postId := VStr "10"; Asset.url := "http://ex.com/a.png" |}.

Definition C4_b : Asset.t :=
  {| Asset.id := VStr "6"; Asset.postId := VStr "10"; Asset.url := "http://ex.com/b.gif" |}.

Definition C4_record : Post.t :=
  {| Post.meta :=
       {| Meta.id := VStr "10"; Meta.slug := "record"; Meta.coverImageId := VStr "6";
          Meta.type := "post"; Meta.imageUrls := [] |};
     Post.frontmatter :=
       {| Frontmatter.title := "record"; Frontmatter.date := VStr "2020-01-01";
          Frontmatter.categories := []; Frontmatter.tags := [];
          Frontmatter.wp_id := VStr "10"; Frontmatter.wp_type := "post";
          Frontmatter.wp_slug := "record"; Frontmatter.creator := "admin";
          Frontmatter.enriched := None; Frontmatter.coverImage := None |};
     Post.content := "" |}.

(** The cover image once more, as an image scraped from the body. *)
Definition C5_scraped : Asset.t :=
  {| Asset.id := VNum (-1); Asset.postId := VStr "10"; Asset.url := "http://ex.com/b.gif" |}.

(** The reading of C2 that the specification gives: a selected item
    without id is skipped, the run goes on and returns the records of the
    other selected items. *)
Definition skips_malformed_records (P : Platform) (settings : Settings) (network : Network)
    (data : Data) (postTypes : list string) (config : Config) (t : N) : Prop :=
  forall postType post,
    In postType postTypes -> selected data postType post -> post_id post = None ->
    exists posts,
      outcome (collectPosts P settings network data postTypes config t) = Ok posts
      /\ forall other id,
          selected data postType other -> post_id other = Some id ->
          exists p, In p posts /\ Meta.id (Post.meta p) = VStr id.

(** An item whose [post_id] is absent. *)
Definition C2_malformed : Item :=
  {| post_type := Some "post";
     status := Some "publish";
     post_id := None;
     post_name := Some "second";
     postmeta := None;
     title := Some "second";
     pubDate := Some "Wed, 01 Jan 2020 12:00:00 +0000";
     category := None;
     creator := Some "admin";
     encoded := Some "";
     link := Some "https://site.test/post/2/";
     attachment_url := None;
     post_parent := None |}.

Definition C2_data : Data :=
  {| item := Some [Example.item_of "post" "1" "first" ""; C2_malformed;
                   Example.item_of "post" "3" "third" ""] |}.

(** A network on which nothing ever answers. *)
Definition silent_network : Network := fun _ => Hangs.

Definition C1_event : EventData.t :=
  {| EventData.start_datetime := VStr "2020-01-01 18:00:00";
     EventData.end_datetime := VStr "2020-01-01 20:00:00";
     EventData.venue := VStr "Hall";
     EventData.province := VStr "MA";
     EventData.city := VStr "";
     EventData.address := VStr "1 Main St";
     EventData.postal_code := VUndefined;
     EventData.ical_source_url := VStr "" |}.

(** A network that serves the event 7 and fails on the event 8. *)
Definition C1_network : Network :=
  fun url =>
    if String.eqb url "https://dssg.fas.harvard.edu/wp-json/wp/v2/events/8" then Fails 20
    else Responds 300 {| ok := true; http_status := 200;
                         body := JsonBody (MetaObject (Some C1_event)) |}.

Definition C1_data : Data :=
  {| item := Some [Example.item_of "ai1ec_event" "7" "seven" "";
                   Example.item_of "ai1ec_event" "8" "eight" ""] |}.

(** Request starts that follow one another at the distance [d]. *)
Definition spaced (d : N) (starts : list N) : Prop :=
  forall i a b,
    nth_error starts i = Some a -> nth_error starts (S i) = Some b -> b = (a + d)%N.

(** The reading of C3 that the specification gives, for the records
    [events] of the enrichable type and the records [others] of another
    type, all processed from the time [t]: the requests start 5000 ms one
    after the other, and a record of the other type is not delayed. *)
Definition throttles_events_only (P : Platform) (settings : Settings) (network : Network)
    (config : Config) (events others : list Item) (otherType : string) (t : N) : Prop :=
  spaced 5000
    (map fst (requests (Promise_all
                          (mapi (processPost P settings network config "ai1ec_event") events)
                          t)))
  /\ (otherType <> "ai1ec_event" ->
      forall post index,
        nth_error others index = Some post ->
        settled_at (processPost P settings network config otherType post index t) = t).

(** A computation that does not go back in time: it settles, and starts
    its requests, no earlier than it is started. *)
Definition causal {A : Type} (c : Async A) : Prop :=
  forall t,
    (t <= settled_at (c t))%N /\ Forall (fun r => (t <= fst r)%N) (requests (c t)).

Definition C3_events : list Item :=
  [Example.item_of "ai1ec_event" "7" "seven" "";
   Example.item_of "ai1ec_event" "8" "eight" "";
   Example.item_of "ai1ec_event" "9" "nine" ""].

Definition C3_posts : list Item :=
  [Example.item_of "post" "1" "first" ""; Example.item_of "post" "2" "second" ""].

(** A network that answers every request after 300 ms. *)
Definition C3_network : Network :=
  fun _ => Responds 300 {| ok := true; http_status := 200;
                           body := JsonBody (MetaObject (Some C1_event)) |}.


(** [accepts r s cap s' cap']: the pattern [r] matches a prefix of [s] and
    leaves [s']; [cap] and [cap'] are the text of the group before and
    after. *)
Inductive accepts : regex -> list ascii -> option (list ascii) ->
                    list ascii -> option (list ascii) -> Prop :=
| accepts_Empty s cap : accepts Empty s cap s cap
| accepts_One cl c s cap :
    class_matches cl c = true -> accepts (One cl) (c :: s) cap s cap
| accepts_Seq r1 r2 s cap s1 cap1 s2 cap2 :
    accepts r1 s cap s1 cap1 -> accepts r2 s1 cap1 s2 cap2 ->
    accepts (Seq r1 r2) s cap s2 cap2
| accepts_Alt_l r1 r2 s cap s' cap' :
    accepts r1 s cap s' cap' -> accepts (Alt r1 r2) s cap s' cap'
| accepts_Alt_r r1 r2 s cap s' cap' :
    accepts r2 s cap s' cap' -> accepts (Alt r1 r2) s cap s' cap'
| accepts_Opt_some r s cap s' cap' :
    accepts r s cap s' cap' -> accepts (Opt r) s cap s' cap'
| accepts_Opt_none r s cap : accepts (Opt r) s cap s cap
| accepts_Star_nil cl s cap : accepts (Star cl) s cap s cap
| accepts_Star_cons cl c s cap s' :
    class_matches cl c = true -> accepts (Star cl) s cap s' cap ->
    accepts (Star cl) (c :: s) cap s' cap
| accepts_LazyPlus_one cl c s cap :
    class_matches cl c = true -> accepts (LazyPlus cl) (c :: s) cap s cap
| accepts_LazyPlus_more cl c s cap s' :
    class_matches cl c = true -> accepts (LazyPlus cl) s cap s' cap ->
    accepts (LazyPlus cl) (c :: s) cap s' cap
| accepts_Group r s cap s' cap' :
    accepts r s cap s' cap' ->
    accepts (Group r) s cap s' (Some (firstn (length s - length s') s))
| accepts_EndOfInput cap : accepts EndOfInput [] cap [] cap.




(** A record whose cover image is declared with the text [-1], and whose
    body holds an image. *)
Definition C10_item : Item :=
  {| post_type := Some "post";
     status := Some "publish";
     post_id := Some "1";
     post_name := Some "first";
     postmeta := Some [{| meta_key := Some "_edit_last"; meta_value := Some "2" |};
                       {| meta_key := Some "_thumbnail_id"; meta_value := Some "-1" |}];
     title := Some "first";
     pubDate := Some "Wed, 01 Jan 2020 12:00:00 +0000";
     category := None;
     creator := Some "admin";
     encoded := Some ("<img src=" ++ String dquote ("../img/x.jpg" ++ String dquote ">"))%string;
     link := Some "https://site.test/post/1/";
     attachment_url := None;
     post_parent := None |}.

Definition C10_data : Data := {| item := Some [C10_item] |}.

(** The record that the extractor returns for [C10_data], and the asset that
    the scraper emits for it. *)
Definition C10_posts : list Post.t :=
  Eval vm_compute in
    match outcome (collectPosts Example.platform Example.settings silent_network C10_data
                     ["post"] Example.config 0%N) with
    | Ok posts => posts
    | Throw _ => []
    end.

Definition C10_images : list Asset.t :=
  Eval vm_compute in
    match collectScrapedImages Example.platform C10_data ["post"] with
    | Ok images => images
    | Throw _ => []
    end.

(** What the whole parse returns for [C10_data]. *)
Definition C5_parsed : list Post.t :=
  Eval vm_compute in
    match outcome (parseFilePromise Example.platform Example.settings silent_network C10_data
                     Example.config 0%N) with
    | Ok posts => posts
    | Throw _ => []
    end.

(** ** The parser that reads the events from [events.json]

    The first version of the source: [collectPosts] is synchronous, looks
    the event of a record up in the object that [events.json] holds, and
    composes the address with [Historical.getAddress]; the correlator tests
    its operands for truthiness before it compares them. The accessors and
    the collectors are those of the other version. *)
Module EventsJson.

(** [eventsData[id]]: the entry of a key, [MetaFalsy] when the object has
    no such key. *)
Definition EventsData : Type := string -> EventMetadata.

Section Collector.

Variable P : Platform.
Variable settings : Settings.
Variable eventsData : EventsData.

(** The part [if (postType === 'ai1ec_event') { ... }] of the callback. *)
Definition enrichFromLookup (postType : string) (meta : Meta.t)
    (frontmatter : Frontmatter.t) : result Frontmatter.t :=
  if String.eqb postType "ai1ec_event" then
    match eventsData (toString (Meta.id meta)) with
    | MetaFalsy => Ok frontmatter
    | eventData =>
        (let? d := event_data_of eventData in
         let? address := Historical.getAddress eventData in
         Ok (enrich frontmatter d address))%result
    end
  else Ok frontmatter.

(** The callback of [.map(post => ...)]. *)
Definition processPost (config : Config) (postType : string) (post : Item) : result Post.t :=
  (let? meta := build_meta P postType post in
   let? frontmatter := build_frontmatter P settings postType post in
   let? frontmatter' := enrichFromLookup postType meta frontmatter in
   let? content := getPostContent P post config in
   Ok {| Post.meta := meta; Post.frontmatter := frontmatter'; Post.content := content |})%result.

(** The body of [postTypes.forEach(postType => ...)]: the records pushed
    for one type. *)
Definition postsForType (data : Data) (config : Config) (postType : string)
  : result (list Post.t) :=
  (let? items := getItemsOfType data postType in
   let? kept := filter_result published items in
   map_result (processPost config postType) kept)%result.

Definition collectPosts (data : Data) (postTypes : list string) (config : Config)
  : result (list Post.t) :=
  (let? perType := map_result (postsForType data config) postTypes in
   Ok (concat perType))%result.

End Collector.

(** [post.meta.id && image.postId && image.postId === post.meta.id] *)
Definition attachment_of (image : Asset.t) (post : Post.t) : bool :=
  truthy (Meta.id (Post.meta post)) && truthy (Asset.postId image)
  && strict_eq (Asset.postId image) (Meta.id (Post.meta post)).

(** [image.id && post.meta.coverImageId && image.id === post.meta.coverImageId] *)
Definition cover_of (image : Asset.t) (post : Post.t) : bool :=
  truthy (Asset.id image) && truthy (Meta.coverImageId (Post.meta post))
  && strict_eq (Asset.id image) (Meta.coverImageId (Post.meta post)).

Definition mergeImageIntoPost (image : Asset.t) (post : Post.t) : Post.t :=
  let shouldAttach := false in
  let shouldAttach := if attachment_of image post then true else shouldAttach in
  let cover := cover_of image post in
  let shouldAttach := if cover then true else shouldAttach in
  let frontmatter :=
    if cover then set_coverImage (Post.frontmatter post) (getFilenameFromUrl (Asset.url image))
    else Post.frontmatter post in
  let meta :=
    if shouldAttach && negb (includes (Meta.imageUrls (Post.meta post)) (Asset.url image))
    then set_imageUrls (Post.meta post) (Meta.imageUrls (Post.meta post) ++ [Asset.url image])
    else Post.meta post in
  {| Post.meta := meta; Post.frontmatter := frontmatter; Post.content := Post.content post |}.

Definition mergeImagesIntoPosts (images : list Asset.t) (posts : list Post.t) : list Post.t :=
  fold_left (fun posts image => map (mergeImageIntoPost image) posts) images posts.

Definition parseFilePromise (P : Platform) (settings : Settings) (eventsData : EventsData)
    (data : Data) (config : Config) : result (list Post.t) :=
  (let? postTypes := getPostTypes data config in
   let? posts := collectPosts P settings eventsData data postTypes config in
   let? attached := if saveAttachedImages config then collectAttachedImages data else Ok [] in
   let? scraped :=
     if saveScrapedImages config then collectScrapedImages P data postTypes else Ok [] in
   Ok (mergeImagesIntoPosts (attached ++ scraped) posts))%result.

End EventsJson.

(** ** Vocabulary of the further properties *)

(** The items of the export, none when the channel has no [item]. *)
Definition items_of (data : Data) : list Item :=
  match item data with
  | Some items => items
  | None => []
  end.

(** The item declares the type [type]. *)
Definition has_type (type : string) (it : Item) : bool :=
  match post_type it with
  | Some t => String.eqb t type
  | None => false
  end.

(** The item is an attachment whose URL passes the test of
    [collectAttachedImages]. *)
Definition image_attachment (it : Item) : bool :=
  has_type "attachment" it
  && match attachment_url it with
     | Some u => regex_test attachment_pattern u
     | None => false
     end.

(** The text ends in a dot and one of the four extensions, in any case;
    nothing need come before the dot. *)
Definition has_image_extension (s : string) : Prop :=
  exists stem ext,
    list_ascii_of_string s = stem ++ "."%char :: ext
    /\ In (string_of_list_ascii (map to_lower ext)) ["gif"; "jpg"; "jpeg"; "png"].

(** An export for the examples of the collectors: a post, an attachment
    that is an image, one that is none, and a draft. *)
Definition attachment_of_post (id parent u : string) : Item :=
  {| post_type := Some "attachment";
     status := Some "inherit";
     post_id := Some id;
     post_name := Some id;
     postmeta := None;
     title := Some id;
     pubDate := Some "Wed, 01 Jan 2020 12:00:00 +0000";
     category := None;
     creator := Some "admin";
     encoded := Some "";
     link := Some u;
     attachment_url := Some u;
     post_parent := Some parent |}.

(** An item without any field. *)
Definition X_untyped : Item :=
  {| post_type := None; status := None; post_id := None; post_name := None;
     postmeta := None; title := None; pubDate := None; category := None;
     creator := None; encoded := None; link := None; attachment_url := None;
     post_parent := None |}.

Definition X_data : Data :=
  {| item := Some [Example.item_of "post" "10" "first" "";
                   attachment_of_post "5" "10" "http://ex.com/a.PNG";
                   attachment_of_post "6" "10" "http://ex.com/notes.pdf";
                   Example.item_of "page" "11" "about" ""] |}.

(** The asset that [collectAttachedImages] returns for [X_data]. *)
Definition X_images : list Asset.t :=
  [{| Asset.id := VStr "5"; Asset.postId := VStr "10"; Asset.url := "http://ex.com/a.PNG" |}].

(** An export with an attachment that has no URL. *)
Definition X_no_url : Item :=
  {| post_type := Some "attachment"; status := None; post_id := Some "7";
     post_name := None; postmeta := None; title := None; pubDate := None;
     category := None; creator := None; encoded := None; link := None;
     attachment_url := None; post_parent := Some "10" |}.

(** A metadata entry with another key than [_thumbnail_id]. *)
Definition other_key (pm : PostMeta) : Prop :=
  exists k, meta_key pm = Some k /\ k <> "_thumbnail_id".

(** An item whose only metadata entry has another key, and no value. *)
Definition X_other_meta : Item :=
  {| post_type := None; status := None; post_id := None; post_name := None;
     postmeta := Some [{| meta_key := Some "_edit_last"; meta_value := None |}];
     title := None; pubDate := None; category := None; creator := None;
     encoded := None; link := None; attachment_url := None; post_parent := None |}.

(** The category entry of the attributes [domain] and [nicename]. *)
Definition category_entry (dom name : string) : Category :=
  {| attrs := Some {| domain := VStr dom; nicename := VStr name |} |}.

(** The entry has the domain [dom]. *)
Definition in_domain (dom : string) (c : Category) : bool :=
  match attrs c with
  | Some a => strict_eq (domain a) (VStr dom)
  | None => false
  end.

(** A post with three category entries, one of them twice, and a format. *)
Definition X_categorized : Item :=
  {| post_type := Some "post"; status := Some "publish"; post_id := Some "1";
     post_name := Some "first"; postmeta := None; title := Some "first";
     pubDate := Some "Wed, 01 Jan 2020 12:00:00 +0000";
     category := Some [category_entry "category" "news";
                       category_entry "post_tag" "rocq";
                       category_entry "post_format" "post-format-aside";
                       category_entry "category" "uncategorized";
                       category_entry "post_tag" "rocq"];
     creator := Some "admin"; encoded := Some ""; link := Some "https://site.test/post/1/";
     attachment_url := None; post_parent := None |}.

(** Settings that leave the category [uncategorized] out. *)
Definition X_settings : Settings :=
  {| custom_date_formatting := "";
     include_time_with_date := false;
     filter_categories := ["uncategorized"] |}.

(** The item is one that the extractor selects for the type. *)
Definition selectedb (postType : string) (it : Item) : bool :=
  has_type postType it
  && match status it with
     | Some s => negb (String.eqb s "trash") && negb (String.eqb s "draft")
     | None => false
     end.

(** The selected items of the export, each with its type: type after type
    in the order of [postTypes], and within a type in the order of the
    export. *)
Definition selection (data : Data) (postTypes : list string) : list (string * Item) :=
  flat_map
    (fun postType => map (pair postType) (filter (selectedb postType) (items_of data)))
    postTypes.

(** An export with a draft and a post in the bin between two posts and a
    page. *)
Definition X_drafts : Data :=
  {| item := Some [Example.item_of "page" "4" "about" "";
                   Example.item_of "post" "1" "first" "";
                   {| post_type := Some "post"; status := Some "draft"; post_id := Some "2";
                      post_name := Some "second"; postmeta := None; title := Some "second";
                      pubDate := Some ""; category := None; creator := Some "admin";
                      encoded := Some ""; link := Some ""; attachment_url := None;
                      post_parent := None |};
                   {| post_type := Some "post"; status := Some "trash"; post_id := Some "3";
                      post_name := Some "third"; postmeta := None; title := Some "third";
                      pubDate := Some ""; category := None; creator := Some "admin";
                      encoded := Some ""; link := Some ""; attachment_url := None;
                      post_parent := None |};
                   Example.item_of "post" "5" "fifth" ""] |}.

(** The records that the extractor returns for [X_drafts], posts first. *)
Definition X_drafts_posts : list Post.t :=
  Eval vm_compute in
    match outcome (collectPosts Example.platform Example.settings silent_network X_drafts
                     ["post"; "page"] Example.config 0%N) with
    | Ok posts => posts
    | Throw _ => []
    end.


(** A network on which the events service answers with the status 404. *)
Definition X_not_found : Network :=
  fun _ => Responds 120 {| ok := false; http_status := 404; body := InvalidBody |}.

(** A network on which the service answers with an object without event. *)
Definition X_no_event : Network :=
  fun _ => Responds 120 {| ok := true; http_status := 200; body := JsonBody (MetaObject None) |}.

(** A network on which the service answers with a body that is no JSON. *)
Definition X_garbled : Network :=
  fun _ => Responds 120 {| ok := true; http_status := 200; body := InvalidBody |}.

(** The meta and the frontmatter of the event 7 of the examples. *)
Definition X_event_meta : Meta.t :=
  Eval vm_compute in
    match build_meta Example.platform "ai1ec_event"
            (Example.item_of "ai1ec_event" "7" "seven" "") with
    | Ok meta => meta
    | Throw _ => set_imageUrls (Post.meta C4_record) []
    end.

Definition X_event_frontmatter : Frontmatter.t :=
  Eval vm_compute in
    match build_frontmatter Example.platform Example.settings "ai1ec_event"
            (Example.item_of "ai1ec_event" "7" "seven" "") with
    | Ok fm => fm
    | Throw _ => Post.frontmatter C4_record
    end.

(** The last of the assets that satisfy rule B for the post. *)
Definition last_cover (images : list Asset.t) (post : Post.t) : option Asset.t :=
  match rev (filter (fun image => cover_of image post) images) with
  | [] => None
  | image :: _ => Some image
  end.

(** A second asset with the id of the cover image of [C4_record]. *)
Definition X_second_cover : Asset.t :=
  {| Asset.id := VStr "6"; Asset.postId := VStr "99"; Asset.url := "http://ex.com/img/c.jpg" |}.

(** An asset of another record. *)
Definition X_unrelated : Asset.t :=
  {| Asset.id := VStr "8"; Asset.postId := VStr "99"; Asset.url := "http://ex.com/d.png" |}.

(** The records that the whole parse returns for [X_drafts], with every
    type and the images. *)
Definition X_drafts_parsed : list Post.t :=
  Eval vm_compute in
    match outcome (parseFilePromise Example.platform Example.settings silent_network
                     X_drafts Example.config 0%N) with
    | Ok posts => posts
    | Throw _ => []
    end.

(** The object of [events.json] with the event 7 of the examples, and an
    entry 8 without [event_data]. *)
Definition X_eventsData : EventsJson.EventsData :=
  fun id =>
    if String.eqb id "7" then MetaObject (Some C1_event)
    else if String.eqb id "8" then MetaObject None
    else MetaFalsy.

(** [m] is written in [content] as the scraper reads it: between double
    quotes after [src=], inside a tag that opens with [<img] and is closed
    by the first [>] that follows. *)
Definition written_in (m content : string) : Prop :=
  exists pre opening mid attr tail post,
    list_ascii_of_string content
    = pre ++ opening ++ mid ++ attr
        ++ dquote :: list_ascii_of_string m ++ dquote :: tail ++ ">"%char :: post
    /\ map to_lower opening = list_ascii_of_string "<img"
    /\ map to_lower attr = list_ascii_of_string "src="
    /\ ~ In ">"%char mid
    /\ ~ In ">"%char tail.

(** A record whose image is written between single quotes. *)
Definition X_single_quotes : Item :=
  Example.item_of "post" "1" "first" "<img src='../img/x.jpg'>".

(** * Properties *)

(** ** Exceptions and loops *)

Lemma map_result_Ok {A B : Type} (f : A -> result B) (g : A -> B) (l : list A) :
  (forall x, In x l -> f x = Ok (g x)) -> map_result f l = Ok (map g l).
Proof.
  induction l as [|x l IH]; simpl; intros H; [reflexivity|].
  rewrite (H x (or_introl eq_refl)); simpl.
  rewrite IH by (intros y Hy; apply H; right; exact Hy).
  reflexivity.
Qed.

Lemma map_result_Forall2 {A B : Type} (f : A -> result B) (l : list A) (l' : list B) :
  map_result f l = Ok l' -> Forall2 (fun x y => f x = Ok y) l l'.
Proof.
  revert l'; induction l as [|x l IH]; simpl; intros l' H.
  - injection H as <-. constructor.
  - destruct (f x) as [y|e] eqn:Hx; simpl in H; [|discriminate].
    destruct (map_result f l) as [ys|e] eqn:Hl; simpl in H; [|discriminate].
    injection H as <-. constructor; [exact Hx | apply IH; reflexivity].
Qed.

Lemma filter_result_Ok {A : Type} (f : A -> result bool) (g : A -> bool) (l : list A) :
  (forall x, In x l -> f x = Ok (g x)) -> filter_result f l = Ok (filter g l).
Proof.
  induction l as [|x l IH]; simpl; intros H; [reflexivity|].
  rewrite (H x (or_introl eq_refl)); simpl.
  rewrite IH by (intros y Hy; apply H; right; exact Hy).
  reflexivity.
Qed.

Lemma filter_result_In {A : Type} (f : A -> result bool) (l l' : list A) (x : A) :
  filter_result f l = Ok l' -> (In x l' <-> In x l /\ f x = Ok true).
Proof.
  revert l'; induction l as [|y l IH]; simpl; intros l' H.
  - injection H as <-. simpl. tauto.
  - destruct (f y) as [b|e] eqn:Hy; simpl in H; [|discriminate].
    destruct (filter_result f l) as [ys|e] eqn:Hl; simpl in H; [|discriminate].
    injection H as <-. specialize (IH ys eq_refl).
    destruct b; simpl; rewrite IH; split.
    + intros [->|[H1 H2]]; [split; [left; reflexivity | exact Hy] | split; [right|]; assumption].
    + intros [[->|H1] H2]; [left; reflexivity | right; split; assumption].
    + intros [H1 H2]; split; [right|]; assumption.
    + intros [[->|H1] H2]; [congruence | split; assumption].
Qed.

Lemma includes_In (l : list string) (x : string) : includes l x = true <-> In x l.
Proof.
  unfold includes. rewrite existsb_exists. split.
  - intros [y [Hy Heq]]. apply String.eqb_eq in Heq. subst. exact Hy.
  - intros H. exists x. split; [exact H | apply String.eqb_refl].
Qed.

Lemma includes_app (l1 l2 : list string) (x : string) :
  includes (l1 ++ l2) x = includes l1 x || includes l2 x.
Proof. unfold includes. apply existsb_app. Qed.

(** ** Deduplication in first-seen order *)

Lemma filter_comm {A : Type} (p q : A -> bool) (l : list A) :
  filter p (filter q l) = filter q (filter p l).
Proof.
  induction l as [|x l IH]; simpl; [reflexivity|].
  destruct (p x) eqn:Hp, (q x) eqn:Hq; simpl; rewrite ?Hp, ?Hq, IH; reflexivity.
Qed.

Lemma filter_absorb {A : Type} (p q : A -> bool) (l : list A) :
  (forall x, p x = true -> q x = true) -> filter p (filter q l) = filter p l.
Proof.
  intros H. induction l as [|x l IH]; simpl; [reflexivity|].
  destruct (q x) eqn:Hq; simpl; rewrite IH; [reflexivity|].
  destruct (p x) eqn:Hp; [|reflexivity].
  rewrite (H x Hp) in Hq. discriminate.
Qed.

Lemma dedup_first_filter (p : string -> bool) (l : list string) :
  dedup_first (filter p l) = filter p (dedup_first l).
Proof.
  induction l as [|y l IH]; simpl; [reflexivity|].
  destruct (p y) eqn:Hp; simpl.
  - rewrite IH, filter_comm. reflexivity.
  - rewrite IH. symmetry. apply filter_absorb.
    intros z Hz. destruct (String.eqb_spec z y) as [->|]; [congruence | reflexivity].
Qed.

Lemma dedup_first_In (l : list string) (x : string) : In x (dedup_first l) <-> In x l.
Proof.
  induction l as [|y l IH]; simpl; [tauto|].
  rewrite filter_In, IH. destruct (String.eqb_spec x y) as [->|Hne]; simpl.
  - split; [intros _; left; reflexivity | intros _; left; reflexivity].
  - split; [intros [H|[H _]]; [left; exact H | right; exact H]|].
    intros [H|H]; [congruence | right; split; [exact H | reflexivity]].
Qed.

Lemma dedup_first_NoDup (l : list string) : NoDup (dedup_first l).
Proof.
  induction l as [|y l IH]; simpl; constructor.
  - rewrite filter_In. intros [_ H]. rewrite String.eqb_refl in H. discriminate.
  - apply NoDup_filter. exact IH.
Qed.


Lemma filter_filter {A : Type} (p q : A -> bool) (l : list A) :
  filter p (filter q l) = filter (fun x => q x && p x) l.
Proof.
  induction l as [|x l IH]; simpl; [reflexivity|].
  destruct (q x); simpl; [destruct (p x)|]; rewrite IH; reflexivity.
Qed.

(** A [Set] that is filled from [acc] with the values of [l] holds [acc],
    then the new values of [l] in first-seen order. *)
Lemma fold_Set_add (l acc : list string) :
  fold_left Set_add l acc
  = acc ++ dedup_first (filter (fun x => negb (includes acc x)) l).
Proof.
  revert acc; induction l as [|x l IH]; intros acc; simpl.
  - rewrite app_nil_r. reflexivity.
  - unfold Set_add at 2. destruct (includes acc x) eqn:Hx; simpl.
    + apply IH.
    + rewrite IH, <- app_assoc. simpl. do 2 f_equal.
      rewrite <- dedup_first_filter, filter_filter. f_equal.
      apply filter_ext. intros y.
      rewrite includes_app, negb_orb. f_equal.
      unfold includes. simpl. rewrite orb_false_r. reflexivity.
Qed.


(** ** C6: the record classifier *)




(** ** The correlator *)

Lemma mergeImagesIntoPosts_map (images : list Asset.t) (posts : list Post.t) :
  mergeImagesIntoPosts images posts = map (mergeImagesIntoPost images) posts.
Proof.
  unfold mergeImagesIntoPosts, mergeImagesIntoPost.
  revert posts; induction images as [|image images IH]; intros posts; simpl.
  - symmetry. apply map_id.
  - rewrite IH, map_map. reflexivity.
Qed.

Lemma mergeImageIntoPost_id (image : Asset.t) (post : Post.t) :
  Meta.id (Post.meta (mergeImageIntoPost image post)) = Meta.id (Post.meta post)
  /\ Meta.coverImageId (Post.meta (mergeImageIntoPost image post))
     = Meta.coverImageId (Post.meta post).
Proof.
  unfold mergeImageIntoPost. simpl.
  destruct (_ && _); simpl; split; reflexivity.
Qed.

Lemma attaches_mergeImageIntoPost (image image' : Asset.t) (post : Post.t) :
  attachment_of image (mergeImageIntoPost image' post) = attachment_of image post
  /\ cover_of image (mergeImageIntoPost image' post) = cover_of image post.
Proof.
  unfold attachment_of, cover_of.
  destruct (mergeImageIntoPost_id image' post) as [-> ->]. split; reflexivity.
Qed.

Lemma attaches_mergeImagesIntoPost (image : Asset.t) (images : list Asset.t) (post : Post.t) :
  attachment_of image (mergeImagesIntoPost images post) = attachment_of image post
  /\ cover_of image (mergeImagesIntoPost images post) = cover_of image post.
Proof.
  unfold mergeImagesIntoPost.
  revert post; induction images as [|image' images IH]; intros post; simpl.
  - split; reflexivity.
  - destruct (IH (mergeImageIntoPost image' post)) as [-> ->].
    apply attaches_mergeImageIntoPost.
Qed.

(** One step of the inner loop on the URLs: the URL of an asset that
    attaches is added as to a [Set]. *)
Lemma imageUrls_mergeImageIntoPost (image : Asset.t) (post : Post.t) :
  Meta.imageUrls (Post.meta (mergeImageIntoPost image post))
  = if attaches image post
    then Set_add (Meta.imageUrls (Post.meta post)) (Asset.url image)
    else Meta.imageUrls (Post.meta post).
Proof.
  unfold mergeImageIntoPost, attaches, Set_add. simpl.
  destruct (attachment_of image post), (cover_of image post); simpl;
    try destruct (includes _ _); reflexivity.
Qed.

Lemma imageUrls_mergeImagesIntoPost (images : list Asset.t) (post : Post.t) :
  Meta.imageUrls (Post.meta (mergeImagesIntoPost images post))
  = fold_left Set_add
      (map Asset.url (filter (fun image => attaches image post) images))
      (Meta.imageUrls (Post.meta post)).
Proof.
  unfold mergeImagesIntoPost.
  revert post; induction images as [|image images IH]; intros post; simpl.
  - reflexivity.
  - rewrite IH, imageUrls_mergeImageIntoPost.
    rewrite (filter_ext (fun image0 => attaches image0 (mergeImageIntoPost image post))
               (fun image0 => attaches image0 post)).
    + destruct (attaches image post); reflexivity.
    + intros im. unfold attaches.
      destruct (attaches_mergeImageIntoPost im image post) as [-> ->]. reflexivity.
Qed.

Lemma frontmatter_mergeImageIntoPost (image : Asset.t) (post : Post.t) :
  Post.frontmatter (mergeImageIntoPost image post)
  = if cover_of image post
    then set_coverImage (Post.frontmatter post) (getFilenameFromUrl (Asset.url image))
    else Post.frontmatter post.
Proof. reflexivity. Qed.

Lemma getFilenameFromUrl_from_plain (segment name : string) :
  (forall c, In c (list_ascii_of_string name) -> c <> "/"%char) ->
  getFilenameFromUrl_from segment name = (segment ++ name)%string.
Proof.
  revert segment; induction name as [|c name IH]; intros segment Hname; simpl.
  - induction segment; simpl; [reflexivity | f_equal; assumption].
  - destruct (Ascii.eqb_spec c "/") as [->|_].
    + exfalso. apply (Hname "/"%char); [left; reflexivity | reflexivity].
    + rewrite IH by (intros x Hx; apply Hname; right; exact Hx).
      clear. induction segment; simpl; [reflexivity | f_equal; assumption].
Qed.

Lemma getFilenameFromUrl_from_slash (segment url name : string) :
  (forall c, In c (list_ascii_of_string name) -> c <> "/"%char) ->
  getFilenameFromUrl_from segment (url ++ "/" ++ name)%string = name.
Proof.
  intros Hname. revert segment; induction url as [|c url IH]; intros segment; simpl.
  - apply (getFilenameFromUrl_from_plain EmptyString name Hname).
  - destruct (Ascii.eqb c "/"); apply IH.
Qed.

(** The filename of a URL: what follows its last slash. *)
Lemma getFilenameFromUrl_after_slash (url name : string) :
  (forall c, In c (list_ascii_of_string name) -> c <> "/"%char) ->
  getFilenameFromUrl (url ++ "/" ++ name)%string = name.
Proof. apply getFilenameFromUrl_from_slash. Qed.

Lemma In_fold_Set_add (l acc : list string) (u : string) :
  In u (fold_left Set_add l acc) <-> In u acc \/ In u l.
Proof.
  rewrite fold_Set_add, in_app_iff, dedup_first_In, filter_In.
  rewrite negb_true_iff, <- not_true_iff_false, includes_In.
  destruct (in_dec string_dec u acc); tauto.
Qed.

Lemma NoDup_fold_Set_add (l acc : list string) :
  NoDup acc -> NoDup (fold_left Set_add l acc).
Proof.
  intros Hacc. rewrite fold_Set_add.
  apply NoDup_app; [exact Hacc | apply dedup_first_NoDup |].
  intros u Hu. rewrite dedup_first_In, filter_In.
  rewrite negb_true_iff, <- not_true_iff_false, includes_In. tauto.
Qed.


(** After the whole pass, a record that started without image URLs holds
    the URLs of the assets that satisfy rule A or rule B for it. *)
Lemma mergeImagesIntoPosts_attached (images : list Asset.t) (posts : list Post.t)
    (i : nat) (post : Post.t) :
  nth_error posts i = Some post ->
  Meta.imageUrls (Post.meta post) = [] ->
  exists post',
    nth_error (mergeImagesIntoPosts images posts) i = Some post'
    /\ forall u,
        In u (Meta.imageUrls (Post.meta post'))
        <-> exists image,
            In image images /\ Asset.url image = u
            /\ (attachment_of image post = true \/ cover_of image post = true).
Proof.
  intros Hi Hempty.
  exists (mergeImagesIntoPost images post). split.
  - rewrite mergeImagesIntoPosts_map, nth_error_map, Hi. reflexivity.
  - intros u. rewrite imageUrls_mergeImagesIntoPost, Hempty, In_fold_Set_add.
    rewrite in_map_iff. simpl. split.
    + intros [[]|[image [Hu Him]]]. apply filter_In in Him as [Him Hatt].
      exists image. repeat split; try assumption.
      unfold attaches in Hatt. apply orb_true_iff in Hatt. exact Hatt.
    + intros [image [Him [Hu Hatt]]]. right. exists image. split; [exact Hu|].
      apply filter_In. split; [exact Him|].
      unfold attaches. apply orb_true_iff. exact Hatt.
Qed.

(** C4. For every asset and record, one step of the correlator leaves the
    URL of the asset among the image URLs of the record if and only if
    rule A ([image.postId === post.meta.id]) or rule B
    ([image.id === post.meta.coverImageId]) holds, or the URL was there
    already; it adds no other URL; under rule B it sets the cover image to
    the filename of the URL, and otherwise it leaves the frontmatter as it
    is. After the whole pass, a record that started without image URLs
    holds exactly the URLs of the assets that satisfy rule A or rule B for
    it. The filename is what follows the last slash. On the two attachments
    and the record of the example the result is the two URLs in order and
    the cover image [b.gif]. *)
Theorem C4_mergeImagesIntoPosts_rules :
  (forall image post,
      let post' := mergeImageIntoPost image post in
      (In (Asset.url image) (Meta.imageUrls (Post.meta post'))
       <-> (attachment_of image post = true \/ cover_of image post = true)
           \/ In (Asset.url image) (Meta.imageUrls (Post.meta post)))
      /\ (forall u, In u (Meta.imageUrls (Post.meta post')) ->
                    u = Asset.url image \/ In u (Meta.imageUrls (Post.meta post)))
      /\ (cover_of image post = true ->
          Frontmatter.coverImage (Post.frontmatter post')
          = Some (getFilenameFromUrl (Asset.url image)))
      /\ (cover_of image post = false -> Post.frontmatter post' = Post.frontmatter post))
  /\ (forall images posts i post,
         nth_error posts i = Some post ->
         Meta.imageUrls (Post.meta post) = [] ->
         exists post',
           nth_error (mergeImagesIntoPosts images posts) i = Some post'
           /\ forall u,
               In u (Meta.imageUrls (Post.meta post'))
               <-> exists image,
                   In image images /\ Asset.url image = u
                   /\ (attachment_of image post = true \/ cover_of image post = true))
  /\ (forall url name,
         (forall c, In c (list_ascii_of_string name) -> c <> "/"%char) ->
         getFilenameFromUrl (url ++ "/" ++ name)%string = name)
  /\ map (fun post => (Meta.imageUrls (Post.meta post),
                       Frontmatter.coverImage (Post.frontmatter post)))
         (mergeImagesIntoPosts [C4_a; C4_b] [C4_record])
     = [(["http://ex.com/a.png"; "http://ex.com/b.gif"], Some "b.gif")].
Proof.
  split; [|split; [|split]].
  - intros image post post'. subst post'.
    rewrite imageUrls_mergeImageIntoPost, frontmatter_mergeImageIntoPost.
    unfold attaches, Set_add.
    destruct (attachment_of image post) eqn:HA, (cover_of image post) eqn:HB; simpl;
      (split; [|split; [|split]]); try discriminate; try reflexivity;
      try (destruct (includes _ _) eqn:Hin;
           [apply includes_In in Hin | rewrite ?in_app_iff; simpl]).
    all: try (intros u; rewrite ?in_app_iff; simpl).
    all: try tauto.
    all: try (intros [H|[H|[]]]; auto).
    + split; [tauto | intros [[H|H]|H]; [discriminate | discriminate | exact H]].
  - apply mergeImagesIntoPosts_attached.
  - apply getFilenameFromUrl_after_slash.
  - reflexivity.
Qed.

Lemma C4_mergeImagesIntoPosts_rules_witness :
  Frontmatter.coverImage (Post.frontmatter (mergeImageIntoPost C4_b C4_record)) = Some "b.gif"
  /\ Post.frontmatter (mergeImageIntoPost C4_a C4_record) = Post.frontmatter C4_record
  /\ (exists post',
         nth_error (mergeImagesIntoPosts [C4_a; C4_b] [C4_record]) 0 = Some post'
         /\ forall u,
             In u (Meta.imageUrls (Post.meta post'))
             <-> exists image,
                 In image [C4_a; C4_b] /\ Asset.url image = u
                 /\ (attachment_of image C4_record = true \/ cover_of image C4_record = true))
  /\ getFilenameFromUrl "http://ex.com/b.gif" = "b.gif".
Proof.
  destruct C4_mergeImagesIntoPosts_rules as [Hpair [Hpass [Hname _]]].
  split; [|split; [|split]].
  - exact (proj1 (proj2 (proj2 (Hpair C4_b C4_record))) eq_refl).
  - exact (proj2 (proj2 (proj2 (Hpair C4_a C4_record))) eq_refl).
  - exact (Hpass [C4_a; C4_b] [C4_record] 0%nat C4_record eq_refl eq_refl).
  - apply (Hname "http://ex.com" "b.gif").
    intros c Hc. simpl in Hc.
    repeat (destruct Hc as [<-|Hc]; [discriminate|]). contradiction.
Defined.


(** ** Address composition *)








(** ** Asynchronous code *)

Lemma await_Throw {A B : Type} (c : Async A) (k : A -> Async B) (t : N) (e : error) :
  outcome (c t) = Throw e -> outcome (await c k t) = Throw e.
Proof. intros H. unfold await. rewrite H. reflexivity. Qed.

Lemma await_Ok {A B : Type} (c : Async A) (k : A -> Async B) (t : N) (a : A) :
  outcome (c t) = Ok a ->
  outcome (await c k t) = outcome (k a (settled_at (c t))).
Proof. intros H. unfold await. rewrite H. reflexivity. Qed.

Lemma await_inv {A B : Type} (c : Async A) (k : A -> Async B) (t : N) (b : B) :
  outcome (await c k t) = Ok b ->
  exists a, outcome (c t) = Ok a /\ outcome (k a (settled_at (c t))) = Ok b.
Proof.
  unfold await. destruct (outcome (c t)) as [a|e]; simpl; [|discriminate].
  intros H. exists a. split; [reflexivity | exact H].
Qed.

(** An awaited computation that rejects, or a continuation that does,
    rejects the whole. *)
Lemma await_rejects {A B : Type} (c : Async A) (k : A -> Async B) (t : N) :
  (forall a, outcome (c t) = Ok a ->
             exists e, outcome (k a (settled_at (c t))) = Throw e) ->
  exists e, outcome (await c k t) = Throw e.
Proof.
  intros H. unfold await. destruct (outcome (c t)) as [a|e] eqn:Hc; simpl.
  - apply (H a eq_refl).
  - exists e. reflexivity.
Qed.

Lemma first_rejection_Some {A : Type} (rs : list (Settled A)) (r : Settled A) (e : error) :
  In r rs -> outcome r = Throw e -> exists e' t', first_rejection rs = Some (e', t').
Proof.
  induction rs as [|r0 rs IH]; simpl; [contradiction|].
  intros [->|Hin] He.
  - rewrite He. destruct (first_rejection rs) as [[e' t']|]; [|eauto].
    destruct (_ <=? _)%N; eauto.
  - destruct (IH Hin He) as [e' [t' ->]].
    destruct (outcome r0); [eauto|]. destruct (_ <=? _)%N; eauto.
Qed.

Lemma first_rejection_None {A : Type} (rs : list (Settled A)) :
  first_rejection rs = None ->
  Forall2 (fun r a => outcome r = Ok a) rs (fulfilled_values rs).
Proof.
  induction rs as [|r rs IH]; simpl; intros H; [constructor|].
  destruct (outcome r) as [a|e] eqn:Hr.
  - constructor; [exact Hr | apply IH; exact H].
  - destruct (first_rejection rs) as [[e' t']|]; [destruct (_ <=? _)%N|]; discriminate.
Qed.

(** [Promise.all] rejects as soon as one of the promises does. *)
Lemma Promise_all_rejects {A : Type} (cs : list (Async A)) (c : Async A) (t : N) (e : error) :
  In c cs -> outcome (c t) = Throw e -> exists e', outcome (Promise_all cs t) = Throw e'.
Proof.
  intros Hin He. unfold Promise_all.
  destruct (first_rejection_Some (map (fun c0 => c0 t) cs) (c t) e) as [e' [t' ->]].
  - apply in_map_iff. exists c. split; [reflexivity | exact Hin].
  - exact He.
  - exists e'. reflexivity.
Qed.

(** When it fulfils, its values are those of the promises, in order. *)
Lemma Promise_all_inv {A : Type} (cs : list (Async A)) (t : N) (l : list A) :
  outcome (Promise_all cs t) = Ok l ->
  Forall2 (fun c a => outcome (c t) = Ok a) cs l.
Proof.
  unfold Promise_all.
  destruct (first_rejection (map (fun c => c t) cs)) as [[e t']|] eqn:Hfirst; simpl;
    [discriminate|].
  intros H. injection H as <-. apply first_rejection_None in Hfirst.
  remember (fulfilled_values (map (fun c => c t) cs)) as vs eqn:Hvs. clear Hvs.
  revert vs Hfirst. induction cs as [|c cs IH]; simpl; intros vs H.
  - inversion H. constructor.
  - inversion H as [|r a rs vs' Hr Hrest]; subst. constructor; [exact Hr | apply IH; exact Hrest].
Qed.

Lemma mapi_from_In {A B : Type} (f : A -> nat -> B) (l : list A) (x : A) (start : nat) :
  In x l -> exists index, In (f x index) (mapi_from f start l).
Proof.
  revert start; induction l as [|y l IH]; simpl; intros start; [contradiction|].
  intros [->|Hin].
  - exists start. left. reflexivity.
  - destruct (IH (S start) Hin) as [index Hindex]. exists index. right. exact Hindex.
Qed.

Lemma mapi_from_Forall2 {A B : Type} (f : A -> nat -> B) (l : list A) (start : nat)
    {C : Type} (R : B -> C -> Prop) (l' : list C) :
  Forall2 R (mapi_from f start l) l' ->
  Forall (fun c => exists x index, In x l /\ R (f x index) c) l'.
Proof.
  revert start l'; induction l as [|y l IH]; simpl; intros start l' H.
  - inversion H. constructor.
  - inversion H as [|b c bs cs Hbc Hrest]; subst. constructor.
    + exists y, start. split; [left; reflexivity | exact Hbc].
    + apply IH in Hrest. eapply Forall_impl; [|exact Hrest].
      intros c' [x [index [Hx HR]]]. exists x, index. split; [right; exact Hx | exact HR].
Qed.

(** ** The record extractor *)

Section CollectorFacts.

Variable P : Platform.
Variable settings : Settings.
Variable network : Network.
Variable config : Config.

(** The items that the loop of [collectPosts] takes for a type are the
    selected ones. *)
Lemma selection_In (data : Data) (postType : string) (postsForType : list Item) (post : Item) :
  (let? items := getItemsOfType data postType in filter_result published items)%result
  = Ok postsForType ->
  (In post postsForType <-> selected data postType post).
Proof.
  unfold getItemsOfType, channel_items, selected.
  destruct (item data) as [items|]; simpl; [|discriminate].
  destruct (filter_result _ items) as [ofType|e] eqn:HofType; simpl; [|discriminate].
  intros Hpub.
  rewrite (filter_result_In _ _ _ post Hpub), (filter_result_In _ _ _ post HofType).
  unfold published. split.
  - intros [[Hin Hty] Hst].
    destruct (post_type post) as [ty|]; simpl in Hty; [|discriminate].
    destruct (status post) as [s|]; simpl in Hst; [|discriminate].
    injection Hty as Hty. injection Hst as Hst.
    apply String.eqb_eq in Hty. subst ty.
    apply andb_true_iff in Hst as [H1 H2].
    apply negb_true_iff, String.eqb_neq in H1, H2.
    exists items, s. repeat split; assumption || reflexivity.
  - intros [items' [s [Hitems [Hin [Hty [Hst [H1 H2]]]]]]].
    injection Hitems as <-. rewrite Hty, Hst. simpl.
    rewrite String.eqb_refl.
    apply String.eqb_neq in H1, H2. rewrite H1, H2. repeat split; assumption || reflexivity.
Qed.

Lemma getEventMetadata_rejects (id : value) (t : N) :
  request_fails network id -> exists e, outcome (getEventMetadata network id t) = Throw e.
Proof.
  unfold request_fails, getEventMetadata, async_catch, await, fetch_with_abort.
  destruct (network (events_url id)) as [latency res|latency|]; simpl.
  - intros H. apply N.ltb_ge in H. rewrite H. simpl. eauto.
  - intros _. destruct (_ <? _)%N; simpl; eauto.
  - intros _. eauto.
Qed.

Lemma getEventMetadata_inv (id : value) (t : N) (m : EventMetadata) :
  outcome (getEventMetadata network id t) = Ok m ->
  exists latency res,
    network (events_url id) = Responds latency res /\ (latency < 10000)%N
    /\ (if ok res then body res = JsonBody m else m = MetaFalsy).
Proof.
  unfold getEventMetadata, async_catch, await, fetch_with_abort.
  destruct (network (events_url id)) as [latency res|latency|]; simpl.
  - destruct (latency <? 10000)%N eqn:Hlat; simpl; [|discriminate].
    apply N.ltb_lt in Hlat. intros H. exists latency, res.
    split; [reflexivity | split; [exact Hlat|]].
    destruct (ok res); simpl in H.
    + unfold json in H. destruct (body res); simpl in H; [|discriminate].
      injection H as <-. reflexivity.
    + injection H as <-. reflexivity.
  - destruct (_ <? _)%N; simpl; discriminate.
  - discriminate.
Qed.

(** A record without id rejects its promise. *)
Lemma processPost_missing_id (postType : string) (post : Item) (index : nat) (t : N) :
  post_id post = None ->
  exists e, outcome (processPost P settings network config postType post index t) = Throw e.
Proof.
  intros Hid. unfold processPost.
  apply await_rejects. intros _ _. apply await_rejects. intros meta Hmeta.
  exfalso. unfold lift, build_meta, getPostId in Hmeta. rewrite Hid in Hmeta.
  simpl in Hmeta. discriminate.
Qed.

(** An event whose request fails rejects its promise. *)
Lemma processPost_request_fails (post : Item) (index : nat) (t : N) (id : string) :
  post_id post = Some id ->
  request_fails network (VStr id) ->
  exists e,
    outcome (processPost P settings network config "ai1ec_event" post index t) = Throw e.
Proof.
  intros Hid Hfails. unfold processPost.
  apply await_rejects. intros _ _. apply await_rejects. intros meta _.
  apply await_rejects. intros frontmatter _. simpl.
  apply await_rejects. intros _ _. apply await_rejects. intros id' Hid'.
  unfold lift, getPostId in Hid'. rewrite Hid in Hid'. simpl in Hid'.
  injection Hid' as <-.
  apply await_rejects. intros m Hm.
  match type of Hm with
  | outcome (getEventMetadata _ _ ?t') = _ =>
      destruct (getEventMetadata_rejects (VStr id) t' Hfails) as [e He]
  end.
  rewrite He in Hm. discriminate.
Qed.

(** A rejected record rejects the whole of [collectPosts]. *)
Lemma collectPosts_from_rejects (data : Data) (postType : string) (post : Item)
    (postTypes : list string) :
  In postType postTypes ->
  selected data postType post ->
  (forall index t,
      exists e, outcome (processPost P settings network config postType post index t) = Throw e) ->
  forall allPosts t,
    exists e,
      outcome (collectPosts_from P settings network data config postTypes allPosts t) = Throw e.
Proof.
  intros Hin Hsel Hrej.
  induction postTypes as [|ty rest IH]; [contradiction|].
  intros allPosts t. simpl.
  apply await_rejects. intros postsForType Hsome.
  apply await_rejects. intros resolved Hall.
  destruct (string_dec ty postType) as [->|Hne].
  - exfalso. unfold lift in Hsome. simpl in Hsome.
    apply (selection_In data postType postsForType post Hsome) in Hsel.
    destruct (mapi_from_In (processPost P settings network config postType)
                postsForType post 0 Hsel) as [index Hindex].
    destruct (Hrej index (settled_at
                (lift (let? items := getItemsOfType data postType
                       in filter_result published items)%result t))) as [e He].
    destruct (Promise_all_rejects _ _ _ e Hindex He) as [e' He'].
    unfold mapi in Hall. rewrite He' in Hall. discriminate.
  - apply IH. destruct Hin as [Heq|Hin]; [congruence | exact Hin].
Qed.

End CollectorFacts.


(** ** C1 and C2: a record that fails *)

(** A rejection of [collectPosts] is a rejection of the whole parse. *)
Lemma parseFilePromise_rejects (P : Platform) (settings : Settings) (network : Network)
    (data : Data) (config : Config) (postTypes : list string) (t : N) :
  getPostTypes data config = Ok postTypes ->
  (forall t', exists e,
      outcome (collectPosts P settings network data postTypes config t') = Throw e) ->
  exists e, outcome (parseFilePromise P settings network data config t) = Throw e.
Proof.
  intros Htypes Hrej. unfold parseFilePromise.
  apply await_rejects. intros postTypes' Hok. simpl in Hok.
  rewrite Htypes in Hok. injection Hok as <-.
  apply await_rejects. intros posts Hposts.
  destruct (Hrej (settled_at (lift (getPostTypes data config) t))) as [e He].
  rewrite He in Hposts. discriminate.
Qed.

(** C1. The code does not keep the record: when the request of a selected
    event fails on the network, or has no answer when its timer of
    10000 ms fires, [getEventMetadata] rejects, nothing catches the
    rejection, and [collectPosts] rejects as a whole; so does
    [parseFilePromise], when the event type is among the classified types. *)
Theorem C1_failed_request_rejects_run :
  forall P settings network data postTypes config t post id,
    In "ai1ec_event" postTypes ->
    selected data "ai1ec_event" post ->
    post_id post = Some id ->
    request_fails network (VStr id) ->
    (exists e, outcome (collectPosts P settings network data postTypes config t) = Throw e)
    /\ (getPostTypes data config = Ok postTypes ->
        exists e, outcome (parseFilePromise P settings network data config t) = Throw e).
Proof.
  intros P settings network data postTypes config t post id Hin Hsel Hid Hfails.
  assert (Hrej : forall t', exists e,
             outcome (collectPosts P settings network data postTypes config t') = Throw e).
  { intros t'. unfold collectPosts.
    apply (collectPosts_from_rejects P settings network config data "ai1ec_event" post);
      [exact Hin | exact Hsel |].
    intros index t''.
    apply (processPost_request_fails P settings network config post index t'' id);
      assumption. }
  split; [apply Hrej|].
  intros Htypes. apply (parseFilePromise_rejects P settings network data config postTypes t);
    assumption.
Qed.

Lemma C1_selected :
  selected C1_data "ai1ec_event" (Example.item_of "ai1ec_event" "8" "eight" "").
Proof.
  exists [Example.item_of "ai1ec_event" "7" "seven" "";
          Example.item_of "ai1ec_event" "8" "eight" ""], "publish".
  repeat split; try reflexivity; try discriminate. right. left. reflexivity.
Qed.

Lemma C1_failed_request_rejects_run_witness :
  (exists e,
      outcome (collectPosts Example.platform Example.settings C1_network C1_data
                 ["ai1ec_event"] Example.config 0%N)
      = Throw e)
  /\ (exists e,
         outcome (parseFilePromise Example.platform Example.settings C1_network C1_data
                    Example.config 0%N)
         = Throw e).
Proof.
  destruct (C1_failed_request_rejects_run Example.platform Example.settings C1_network
              C1_data ["ai1ec_event"] Example.config 0%N
              (Example.item_of "ai1ec_event" "8" "eight" "") "8"
              (or_introl eq_refl) C1_selected eq_refl I) as [Hcollect Hparse].
  split; [exact Hcollect | exact (Hparse eq_refl)].
Defined.

(** The run of the example: the second request fails 20 ms after its start
    and the run is rejected with the error of [fetch]; the record 7, whose
    request would have been answered, is not returned either. *)
Example C1_run :
  collectPosts Example.platform Example.settings C1_network C1_data
    ["ai1ec_event"] Example.config 0%N
  = {| outcome := Throw (TypeError "fetch failed");
       settled_at := 5020%N;
       requests := [(0%N, "https://dssg.fas.harvard.edu/wp-json/wp/v2/events/7");
                    (5000%N, "https://dssg.fas.harvard.edu/wp-json/wp/v2/events/8")] |}.
Proof. vm_compute. reflexivity. Qed.

(** The same with a request that is never answered: the timer aborts it
    after 10000 ms and the run is rejected with the [AbortError]. *)
Example C1_run_timeout :
  outcome (collectPosts Example.platform Example.settings silent_network C1_data
             ["ai1ec_event"] Example.config 0%N)
  = Throw AbortError.
Proof. vm_compute. reflexivity. Qed.

Lemma C2_selected : selected C2_data "post" C2_malformed.
Proof.
  exists [Example.item_of "post" "1" "first" ""; C2_malformed;
          Example.item_of "post" "3" "third" ""], "publish".
  repeat split; try reflexivity; try discriminate. right. left. reflexivity.
Qed.

(** C2, as stated, fails: on an export of three posts the second of which
    has no id, the run is rejected and returns no record. *)
Lemma C2_counterexample :
  ~ skips_malformed_records Example.platform Example.settings silent_network C2_data
      ["post"] Example.config 0%N.
Proof.
  intros H.
  destruct (H "post" C2_malformed (or_introl eq_refl) C2_selected eq_refl)
    as [posts [Hok _]].
  vm_compute in Hok. discriminate.
Qed.

(** C2, amended. Reading the id of a selected item that has none throws a
    [TypeError], and the whole of [collectPosts] is rejected, and with it
    [parseFilePromise]: no record is skipped and the run returns no list
    of records. *)
Theorem C2_missing_id_rejects_run :
  forall P settings network data postTypes config t postType post,
    In postType postTypes ->
    selected data postType post ->
    post_id post = None ->
    getPostId post = Throw (TypeError "Cannot read properties of undefined (reading '0')")
    /\ (exists e, outcome (collectPosts P settings network data postTypes config t) = Throw e)
    /\ (getPostTypes data config = Ok postTypes ->
        exists e, outcome (parseFilePromise P settings network data config t) = Throw e).
Proof.
  intros P settings network data postTypes config t postType post Hin Hsel Hid.
  assert (Hrej : forall t', exists e,
             outcome (collectPosts P settings network data postTypes config t') = Throw e).
  { intros t'. unfold collectPosts.
    apply (collectPosts_from_rejects P settings network config data postType post);
      [exact Hin | exact Hsel |].
    intros index t''. apply processPost_missing_id. exact Hid. }
  split; [|split].
  - unfold getPostId. rewrite Hid. reflexivity.
  - apply Hrej.
  - intros Htypes.
    apply (parseFilePromise_rejects P settings network data config postTypes t); assumption.
Qed.

Lemma C2_missing_id_rejects_run_witness :
  getPostId C2_malformed
  = Throw (TypeError "Cannot read properties of undefined (reading '0')")
  /\ (exists e,
         outcome (collectPosts Example.platform Example.settings silent_network C2_data
                    ["post"] Example.config 0%N)
         = Throw e)
  /\ (exists e,
         outcome (parseFilePromise Example.platform Example.settings silent_network C2_data
                    Example.config 0%N)
         = Throw e).
Proof.
  destruct (C2_missing_id_rejects_run Example.platform Example.settings silent_network
              C2_data ["post"] Example.config 0%N "post" C2_malformed
              (or_introl eq_refl) C2_selected eq_refl) as [Hid [Hcollect Hparse]].
  split; [exact Hid | split; [exact Hcollect | exact (Hparse eq_refl)]].
Defined.


(** ** C3: the delay *)

Lemma causal_lift {A : Type} (r : result A) : causal (lift r).
Proof. intros t. simpl. split; [apply N.le_refl | constructor]. Qed.

Lemma causal_delay (ms : N) : causal (delay ms).
Proof. intros t. simpl. split; [lia | constructor]. Qed.

Lemma causal_await {A B : Type} (c : Async A) (k : A -> Async B) :
  causal c -> (forall a, causal (k a)) -> causal (await c k).
Proof.
  intros Hc Hk t. unfold await. destruct (Hc t) as [Ht Hreq].
  destruct (outcome (c t)) as [a|e]; simpl; [|split; assumption].
  destruct (Hk a (settled_at (c t))) as [Ht' Hreq']. split; [lia|].
  apply Forall_app. split; [exact Hreq|].
  eapply Forall_impl; [|exact Hreq']. simpl. intros r Hr. lia.
Qed.

Lemma causal_catch {A : Type} (c : Async A) (handler : error -> Async A) :
  causal c -> (forall e, causal (handler e)) -> causal (async_catch c handler).
Proof.
  intros Hc Hh t. unfold async_catch. destruct (Hc t) as [Ht Hreq].
  destruct (outcome (c t)) as [a|e]; simpl; [split; assumption|].
  destruct (Hh e (settled_at (c t))) as [Ht' Hreq']. split; [lia|].
  apply Forall_app. split; [exact Hreq|].
  eapply Forall_impl; [|exact Hreq']. simpl. intros r Hr. lia.
Qed.

Lemma causal_getEventMetadata (network : Network) (id : value) :
  causal (getEventMetadata network id).
Proof.
  unfold getEventMetadata. apply causal_catch; [|intros e; apply causal_lift].
  apply causal_await.
  - intros t. unfold fetch_with_abort.
    destruct (network (events_url id)) as [latency res|latency|];
      try destruct (_ <? _)%N; simpl; (split; [lia | repeat constructor; simpl; lia]).
  - intros res. destruct (negb (ok res)); [apply causal_lift|].
    unfold json. destruct (body res); apply causal_lift.
Qed.

Section Delay.

Variable P : Platform.
Variable settings : Settings.
Variable network : Network.
Variable config : Config.

Lemma causal_build_post (post : Item) (meta : Meta.t) (frontmatter : Frontmatter.t) :
  causal (build_post P config post meta frontmatter).
Proof.
  unfold build_post. apply causal_await; [apply causal_lift|].
  intros content. apply causal_lift.
Qed.

Lemma causal_processPost (postType : string) (post : Item) (index : nat) :
  causal (processPost P settings network config postType post index).
Proof.
  unfold processPost. apply causal_await.
  { destruct (negb _); [apply causal_delay | apply causal_lift]. }
  intros _. apply causal_await; [apply causal_lift|]. intros meta.
  apply causal_await; [apply causal_lift|]. intros frontmatter.
  destruct (negb _); [apply causal_build_post|].
  apply causal_await; [apply causal_lift|]. intros _.
  apply causal_await; [apply causal_lift|]. intros id.
  apply causal_await; [apply causal_getEventMetadata|]. intros m.
  destruct m as [|[d|]]; [apply causal_build_post | | apply causal_build_post].
  apply causal_await; [apply causal_lift|]. intros address. apply causal_build_post.
Qed.

(** A record that is not the first of its type is processed as the first
    one would be 5000 ms later. *)
Lemma processPost_later (postType : string) (post : Item) (index : nat) (t : N) :
  processPost P settings network config postType post (S index) t
  = processPost P settings network config postType post 0 (t + 5000)%N.
Proof. reflexivity. Qed.

(** The first record of a type that is not the enrichable one settles at
    once and starts no request. *)
Lemma processPost_other_first (postType : string) (post : Item) (t : N) :
  postType <> "ai1ec_event" ->
  settled_at (processPost P settings network config postType post 0 t) = t
  /\ requests (processPost P settings network config postType post 0 t) = [].
Proof.
  intros Hty. apply String.eqb_neq in Hty.
  unfold processPost, await, lift, build_post, resolve. simpl.
  destruct (build_meta P postType post); simpl; [|split; reflexivity].
  destruct (build_frontmatter P settings postType post); simpl; [|split; reflexivity].
  rewrite Hty. simpl.
  destruct (getPostContent P post config); simpl; split; reflexivity.
Qed.

Lemma requests_await_instant {A B : Type} (Q : N * string -> Prop) (r : result A)
    (k : A -> Async B) (t : N) :
  (forall a, Forall Q (requests (k a t))) -> Forall Q (requests (await (lift r) k t)).
Proof.
  intros H. unfold await, lift. simpl. destruct r as [a|e]; simpl; [apply H | constructor].
Qed.

Lemma requests_build_post (post : Item) (meta : Meta.t) (frontmatter : Frontmatter.t) (t : N) :
  requests (build_post P config post meta frontmatter t) = [].
Proof.
  unfold build_post, await, lift, resolve. simpl.
  destruct (getPostContent P post config); reflexivity.
Qed.

Lemma requests_getEventMetadata (id : value) (t : N) :
  Forall (fun r => fst r = t) (requests (getEventMetadata network id t)).
Proof.
  unfold getEventMetadata, async_catch, await, fetch_with_abort, json, resolve, reject, lift.
  destruct (network (events_url id)) as [latency res|latency|]; simpl;
    try destruct (_ <? _)%N; simpl; repeat constructor.
  destruct (negb (ok res)); simpl; [repeat constructor|].
  destruct (body res); simpl; repeat constructor.
Qed.

(** The first event starts its request, if it comes to it, at once. *)
Lemma processPost_event_first (post : Item) (t : N) :
  Forall (fun r => fst r = t)
    (requests (processPost P settings network config "ai1ec_event" post 0 t)).
Proof.
  unfold processPost.
  change (if negb (0 =? 0)%nat then delay 5000 else resolve tt) with (lift (Ok tt)).
  apply requests_await_instant. intros _.
  apply requests_await_instant. intros meta.
  apply requests_await_instant. intros frontmatter.
  change (negb (String.eqb "ai1ec_event" "ai1ec_event")) with false. cbv iota.
  apply requests_await_instant. intros _.
  apply requests_await_instant. intros id.
  unfold await at 1.
  pose proof (requests_getEventMetadata id t) as Hreq.
  destruct (outcome (getEventMetadata network id t)) as [m|e]; simpl; [|exact Hreq].
  apply Forall_app. split; [exact Hreq|].
  destruct m as [|[d|]]; rewrite ?requests_build_post; try constructor.
  unfold await, lift. simpl. rewrite requests_build_post. constructor.
Qed.

End Delay.

(** C3, as stated, fails: the second of two records of the type [post],
    which is not the enrichable one, is delayed by 5000 ms. *)
Lemma C3_counterexample :
  ~ throttles_events_only Example.platform Example.settings C3_network Example.config
      C3_events C3_posts "post" 0%N.
Proof.
  intros [_ Hnodelay].
  assert (Hne : "post" <> "ai1ec_event") by discriminate.
  specialize (Hnodelay Hne (Example.item_of "post" "2" "second" "") 1%nat eq_refl).
  vm_compute in Hnodelay. discriminate.
Qed.

(** On the three events of the example the requests start at 0, 5000 and
    5000 ms: the second and the third start together. *)
Example C3_request_starts :
  map fst (requests (Promise_all
                       (mapi (processPost Example.platform Example.settings C3_network
                                Example.config "ai1ec_event") C3_events)
                       0%N))
  = [0%N; 5000%N; 5000%N].
Proof. vm_compute. reflexivity. Qed.

(** C3, amended. Whatever the type of the records, the enrichable one or
    another: the first record of a type is processed without delay (a
    record of another type settles at once, an event starts its request at
    once), and a later record settles, and starts its request, no earlier
    than 5000 ms after the processing of its type began. A record of
    another type than the enrichable one starts no request. *)
Theorem C3_delay_for_every_type :
  forall P settings network config postType post t,
    (postType <> "ai1ec_event" ->
     settled_at (processPost P settings network config postType post 0 t) = t)
    /\ Forall (fun r => fst r = t)
         (requests (processPost P settings network config "ai1ec_event" post 0 t))
    /\ (forall index,
           (t + 5000 <= settled_at (processPost P settings network config postType post
                                      (S index) t))%N
           /\ Forall (fun r => (t + 5000 <= fst r)%N)
                (requests (processPost P settings network config postType post (S index) t)))
    /\ (postType <> "ai1ec_event" ->
        forall index,
          requests (processPost P settings network config postType post index t) = []).
Proof.
  intros P settings network config postType post t. split; [|split; [|split]].
  - intros Hty. apply (processPost_other_first P settings network config postType post t Hty).
  - apply processPost_event_first.
  - intros index. rewrite processPost_later. apply causal_processPost.
  - intros Hty [|index].
    + apply (processPost_other_first P settings network config postType post t Hty).
    + rewrite processPost_later.
      apply (processPost_other_first P settings network config postType post _ Hty).
Qed.

Lemma C3_delay_for_every_type_witness :
  settled_at (processPost Example.platform Example.settings C3_network Example.config "post"
                (Example.item_of "post" "1" "first" "") 0 7%N) = 7%N.
Proof.
  assert (Hne : "post" <> "ai1ec_event") by discriminate.
  exact (proj1 (C3_delay_for_every_type Example.platform Example.settings C3_network
                  Example.config "post" (Example.item_of "post" "1" "first" "") 7%N) Hne).
Defined.


(** ** What a fulfilled record holds *)

Section ExtractorFacts.

Variable P : Platform.
Variable settings : Settings.
Variable network : Network.
Variable config : Config.

Lemma build_post_inv (post : Item) (meta : Meta.t) (frontmatter : Frontmatter.t)
    (t : N) (p : Post.t) :
  outcome (build_post P config post meta frontmatter t) = Ok p ->
  Post.meta p = meta /\ Post.frontmatter p = frontmatter.
Proof.
  unfold build_post. intros H. apply await_inv in H as [content [_ H]].
  simpl in H. injection H as <-. split; reflexivity.
Qed.

Lemma build_frontmatter_enriched (postType : string) (post : Item) (fm : Frontmatter.t) :
  build_frontmatter P settings postType post = Ok fm ->
  Frontmatter.enriched fm = None /\ Frontmatter.coverImage fm = None.
Proof.
  unfold build_frontmatter.
  repeat (match goal with
          | |- rbind ?r _ = _ -> _ => destruct r; simpl; [|discriminate]
          end).
  intros H. injection H as <-. split; reflexivity.
Qed.

Lemma build_meta_inv (postType : string) (post : Item) (meta : Meta.t) :
  build_meta P postType post = Ok meta ->
  getPostId post = Ok (Meta.id meta)
  /\ getPostCoverImageId post = Ok (Meta.coverImageId meta)
  /\ Meta.type meta = postType
  /\ Meta.imageUrls meta = [].
Proof.
  unfold build_meta.
  repeat (match goal with
          | |- rbind ?r _ = _ -> _ => destruct r; simpl; [|discriminate]
          end).
  intros H. injection H as <-. repeat split; reflexivity.
Qed.

(** A fulfilled record holds the meta and the frontmatter of its item, the
    frontmatter either as it was built or enriched with the event data
    that the service sent. *)
Lemma processPost_inv (postType : string) (post : Item) (index : nat) (t : N) (p : Post.t) :
  outcome (processPost P settings network config postType post index t) = Ok p ->
  exists meta fm,
    build_meta P postType post = Ok meta
    /\ build_frontmatter P settings postType post = Ok fm
    /\ Post.meta p = meta
    /\ (Post.frontmatter p = fm
        \/ (postType = "ai1ec_event"
            /\ exists id latency res d,
                post_id post = Some id
                /\ network (events_url (VStr id)) = Responds latency res
                /\ (latency < 10000)%N
                /\ ok res = true
                /\ body res = JsonBody (MetaObject (Some d))
                /\ Post.frontmatter p = enrich fm d (compose_all d))).
Proof.
  unfold processPost. intros H.
  apply await_inv in H as [_ [_ H]].
  apply await_inv in H as [meta [Hmeta H]].
  apply await_inv in H as [fm [Hfm H]].
  simpl in Hmeta, Hfm. exists meta, fm. split; [exact Hmeta | split; [exact Hfm|]].
  destruct (String.eqb_spec postType "ai1ec_event") as [->|Hne]; simpl in H.
  - apply await_inv in H as [_ [_ H]].
    apply await_inv in H as [id [Hid H]].
    apply await_inv in H as [m [Hm H]].
    simpl in Hid. unfold getPostId in Hid.
    destruct (post_id post) as [sid|] eqn:Hsid; simpl in Hid; [|discriminate].
    injection Hid as <-.
    apply getEventMetadata_inv in Hm as [latency [res [Hnet [Hlat Hres]]]].
    destruct m as [|[d|]].
    + apply build_post_inv in H as [H1 H2]. split; [exact H1 | left; exact H2].
    + apply await_inv in H as [address [Haddr H]].
      simpl in Haddr. injection Haddr as <-.
      apply build_post_inv in H as [H1 H2]. split; [exact H1|].
      right. split; [reflexivity|].
      exists sid, latency, res, d.
      destruct (ok res); [|discriminate].
      repeat split; assumption.
    + apply build_post_inv in H as [H1 H2]. split; [exact H1 | left; exact H2].
  - apply build_post_inv in H as [H1 H2]. split; [exact H1 | left; exact H2].
Qed.

(** The records that [collectPosts] returns come each from a selected
    item of one of the types. *)
Lemma collectPosts_from_inv (data : Data) (postTypes : list string) (allPosts : list Post.t)
    (t : N) (posts : list Post.t) :
  outcome (collectPosts_from P settings network data config postTypes allPosts t) = Ok posts ->
  Forall (fun p =>
            In p allPosts
            \/ exists postType post index t',
                In postType postTypes /\ selected data postType post
                /\ outcome (processPost P settings network config postType post index t')
                   = Ok p)
    posts.
Proof.
  revert allPosts t; induction postTypes as [|postType rest IH]; intros allPosts t; simpl.
  - intros H. injection H as <-. apply Forall_forall. intros p Hp. left. exact Hp.
  - intros H.
    apply await_inv in H as [postsForType [Hsel H]].
    apply await_inv in H as [resolved [Hall H]].
    simpl in Hsel.
    apply Promise_all_inv in Hall. unfold mapi in Hall.
    apply mapi_from_Forall2 in Hall.
    apply IH in H. eapply Forall_impl; [|exact H].
    intros p [Hp|[ty [post [index [t' [Hty [Hs Hok]]]]]]].
    + apply in_app_or in Hp as [Hp|Hp]; [left; exact Hp|].
      right. apply filter_In in Hp as [Hp _].
      rewrite Forall_forall in Hall.
      destruct (Hall p Hp) as [post [index [Hpost Hok]]].
      exists postType, post, index. eexists.
      split; [left; reflexivity | split; [|exact Hok]].
      apply (selection_In data postType postsForType post Hsel). exact Hpost.
    + right. exists ty, post, index, t'.
      split; [right; exact Hty | split; assumption].
Qed.

End ExtractorFacts.

(** ** C7: the composed address *)





(** ** The matcher *)

Lemma star_greedy_sound (R : Type) (cl : char_class) (k : list ascii -> option R)
    (cap : option (list ascii)) (s : list ascii) (x : R) :
  star_greedy R cl k s = Some x ->
  exists s', accepts (Star cl) s cap s' cap /\ k s' = Some x.
Proof.
  induction s as [|c s IH]; simpl.
  - intros H. exists []. split; [constructor | exact H].
  - destruct (class_matches cl c) eqn:Hc.
    + destruct (star_greedy R cl k s) as [y|] eqn:Hs.
      * intros H. injection H as <-. destruct (IH eq_refl) as [s' [Hacc Hk]].
        exists s'. split; [constructor; assumption | exact Hk].
      * intros H. exists (c :: s). split; [constructor | exact H].
    + intros H. exists (c :: s). split; [constructor | exact H].
Qed.

Lemma plus_lazy_sound (R : Type) (cl : char_class) (k : list ascii -> option R)
    (cap : option (list ascii)) (s : list ascii) (x : R) :
  plus_lazy R cl k s = Some x ->
  exists s', accepts (LazyPlus cl) s cap s' cap /\ k s' = Some x.
Proof.
  induction s as [|c s IH]; simpl; [discriminate|].
  destruct (class_matches cl c) eqn:Hc; [|discriminate].
  destruct (k s) as [y|] eqn:Hk.
  - intros H. injection H as <-. exists s. split; [constructor; exact Hc | exact Hk].
  - intros H. destruct (IH H) as [s' [Hacc Hk']].
    exists s'. split; [apply accepts_LazyPlus_more; assumption | exact Hk'].
Qed.

(** What the matcher finds, the pattern accepts. *)
Lemma rmatch_sound (R : Type) (r : regex) :
  forall s cap (k : list ascii -> option (list ascii) -> option R) x,
    rmatch R r s cap k = Some x ->
    exists s' cap', accepts r s cap s' cap' /\ k s' cap' = Some x.
Proof.
  induction r as [|cl|r1 IH1 r2 IH2|r1 IH1 r2 IH2|r1 IH1|cl|cl|r1 IH1|];
    intros s cap k x; simpl.
  - intros H. exists s, cap. split; [constructor | exact H].
  - destruct s as [|c s]; [discriminate|].
    destruct (class_matches cl c) eqn:Hc; [|discriminate].
    intros H. exists s, cap. split; [constructor; exact Hc | exact H].
  - intros H. apply IH1 in H as [s1 [cap1 [H1 H]]].
    apply IH2 in H as [s2 [cap2 [H2 H]]].
    exists s2, cap2. split; [econstructor; eassumption | exact H].
  - destruct (rmatch R r1 s cap k) as [y|] eqn:H1.
    + intros H. injection H as <-. apply IH1 in H1 as [s' [cap' [Hacc Hk]]].
      exists s', cap'. split; [apply accepts_Alt_l; exact Hacc | exact Hk].
    + intros H. apply IH2 in H as [s' [cap' [Hacc Hk]]].
      exists s', cap'. split; [apply accepts_Alt_r; exact Hacc | exact Hk].
  - destruct (rmatch R r1 s cap k) as [y|] eqn:H1.
    + intros H. injection H as <-. apply IH1 in H1 as [s' [cap' [Hacc Hk]]].
      exists s', cap'. split; [apply accepts_Opt_some; exact Hacc | exact Hk].
    + intros H. exists s, cap. split; [apply accepts_Opt_none | exact H].
  - intros H. apply (star_greedy_sound R cl _ cap) in H as [s' [Hacc Hk]].
    exists s', cap. split; assumption.
  - intros H. apply (plus_lazy_sound R cl _ cap) in H as [s' [Hacc Hk]].
    exists s', cap. split; assumption.
  - intros H. apply IH1 in H as [s' [cap' [Hacc Hk]]].
    exists s', (Some (firstn (length s - length s') s)).
    split; [econstructor; exact Hacc | exact Hk].
  - destruct s; [|discriminate].
    intros H. exists [], cap. split; [constructor | exact H].
Qed.

(** What is left is a suffix of the text. *)
Lemma accepts_suffix r s cap s' cap' :
  accepts r s cap s' cap' -> exists w, s = w ++ s'.
Proof.
  induction 1;
    repeat match goal with
           | H : exists w, _ |- _ => destruct H as [? ->]
           end;
    try (exists []; reflexivity);
    try (eexists; reflexivity).
  - exists [c]. reflexivity.
  - eexists. rewrite app_assoc. reflexivity.
  - eexists (c :: _). reflexivity.
  - exists [c]. reflexivity.
  - eexists (c :: _). reflexivity.
Qed.


Lemma accepts_Seq_inv r1 r2 s cap s2 cap2 :
  accepts (Seq r1 r2) s cap s2 cap2 ->
  exists s1 cap1, accepts r1 s cap s1 cap1 /\ accepts r2 s1 cap1 s2 cap2.
Proof. inversion 1; subst. eauto. Qed.

Lemma accepts_Char_inv c s cap s' cap' :
  accepts (One (Char c)) s cap s' cap' ->
  exists x, s = x :: s' /\ to_lower x = to_lower c /\ cap' = cap.
Proof.
  inversion 1 as [|cl x s0 cap0 Hx| | | | | | | | | | |]; subst.
  exists x. repeat split.
  simpl in Hx. apply Ascii.eqb_eq in Hx. symmetry. exact Hx.
Qed.

Lemma accepts_lit (text : string) s cap s' cap' :
  accepts (lit text) s cap s' cap' ->
  exists w,
    s = w ++ s'
    /\ map to_lower w = map to_lower (list_ascii_of_string text)
    /\ cap' = cap.
Proof.
  revert s cap; induction text as [|c text IH]; intros s cap; simpl.
  - inversion 1; subst. exists []. repeat split.
  - destruct text as [|c' text].
    + intros H. apply accepts_Char_inv in H as [x [-> [Hx ->]]].
      exists [x]. simpl. rewrite Hx. repeat split.
    + intros H. apply accepts_Seq_inv in H as [s1 [cap1 [H1 H2]]].
      apply accepts_Char_inv in H1 as [x [-> [Hx ->]]].
      apply IH in H2 as [w [-> [Hw ->]]].
      exists (x :: w). simpl in *. rewrite Hx, Hw. repeat split.
Qed.

Lemma accepts_image_extension s cap s' cap' :
  accepts image_extension s cap s' cap' ->
  exists ext,
    s = ext ++ s'
    /\ In (string_of_list_ascii (map to_lower ext)) ["gif"; "jpg"; "jpeg"; "png"]
    /\ cap' = cap.
Proof.
  unfold image_extension.
  inversion 1 as [| | |r1 r2 s0 c0 s0' c0' Hgif|r1 r2 s0 c0 s0' c0' Hrest| | | | | | | |]; subst.
  - apply (accepts_lit "gif") in Hgif as [w [-> [Hw ->]]].
    exists w. rewrite Hw. split; [reflexivity | split; [left; reflexivity | reflexivity]].
  - inversion Hrest as [| | |r1 r2 s0 c0 s0' c0' Hjpg|r1 r2 s0 c0 s0' c0' Hpng| | | | | | | |];
      subst.
    + apply accepts_Seq_inv in Hjpg as [s1 [cap1 [Hjp Hjpg]]].
      apply accepts_Seq_inv in Hjpg as [s2 [cap2 [He Hg]]].
      apply (accepts_lit "jp") in Hjp as [w1 [-> [Hw1 ->]]].
      apply (accepts_lit "g") in Hg as [w3 [-> [Hw3 ->]]].
      inversion He as [| | | | |r s0 c0 s0' c0' Hsome|r s0 c0| | | | | |]; subst.
      * apply accepts_Char_inv in Hsome as [x [-> [Hx ->]]].
        exists (w1 ++ x :: w3). rewrite <- app_assoc. simpl.
        split; [reflexivity|]. split; [|reflexivity].
        rewrite map_app. simpl. rewrite Hw1, Hw3, Hx. right. right. left. reflexivity.
      * exists (w1 ++ w3). rewrite <- app_assoc.
        split; [reflexivity|]. split; [|reflexivity].
        rewrite map_app, Hw1, Hw3. right. left. reflexivity.
    + apply (accepts_lit "png") in Hpng as [w [-> [Hw ->]]].
      exists w. rewrite Hw.
      split; [reflexivity | split; [right; right; right; left; reflexivity | reflexivity]].
Qed.



Lemma firstn_consumed {A : Type} (w s' : list A) :
  firstn (length (w ++ s') - length s') (w ++ s') = w.
Proof.
  rewrite length_app, Nat.add_sub.
  rewrite firstn_app, Nat.sub_diag, firstn_all. simpl. apply app_nil_r.
Qed.





(** ** C8: the scraped assets *)

Lemma map_result_iff {A B : Type} (f : A -> result B) (l : list A) (l' : list B) :
  map_result f l = Ok l' <-> Forall2 (fun x y => f x = Ok y) l l'.
Proof.
  split; [apply map_result_Forall2|].
  induction 1 as [|x y l l' Hxy _ IH]; simpl; [reflexivity|].
  rewrite Hxy, IH. reflexivity.
Qed.

Lemma Forall2_iff {A B : Type} (R1 R2 : A -> B -> Prop) (l : list A) (l' : list B) :
  (forall x y, R1 x y <-> R2 x y) -> (Forall2 R1 l l' <-> Forall2 R2 l l').
Proof.
  intros H. split; apply Forall2_impl; intros x y; apply H.
Qed.

Section ScraperFacts.

Variable P : Platform.


Lemma scrapePost_sentinel (post : Item) (assets : list Asset.t) :
  scrapePost P post = Ok assets ->
  Forall (fun asset => Asset.id asset = VNum (-1)) assets.
Proof.
  unfold scrapePost.
  destruct (idx0 (post_id post)) as [id|]; simpl; [|discriminate].
  destruct (idx0 (encoded post)) as [content|]; simpl; [|discriminate].
  destruct (idx0 (link post)) as [lnk|]; simpl; [|discriminate].
  intros H. apply map_result_Forall2 in H.
  induction H as [|m asset ms assets Hm _ IH]; constructor; [|exact IH].
  destruct (newURL_href P m lnk); simpl in Hm; [|discriminate].
  injection Hm as <-. reflexivity.
Qed.

Lemma collectScrapedImages_iff (data : Data) (postTypes : list string)
    (images : list Asset.t) :
  collectScrapedImages P data postTypes = Ok images
  <-> exists perType,
      Forall2
        (fun postType assets =>
           exists posts perPost,
             getItemsOfType data postType = Ok posts
             /\ Forall2 (fun post found => scrapePost P post = Ok found) posts perPost
             /\ assets = concat perPost)
        postTypes perType
      /\ images = concat perType.
Proof.
  unfold collectScrapedImages.
  match goal with
  | |- rbind (map_result ?g _) _ = _ <-> _ => set (perTypeOf := g)
  end.
  assert (Hg : forall postType assets,
             perTypeOf postType = Ok assets
             <-> exists posts perPost,
                 getItemsOfType data postType = Ok posts
                 /\ Forall2 (fun post found => scrapePost P post = Ok found) posts perPost
                 /\ assets = concat perPost).
  { intros postType assets. unfold perTypeOf.
    destruct (getItemsOfType data postType) as [posts|e]; simpl.
    - destruct (map_result (scrapePost P) posts) as [perPost|e] eqn:Hmap; simpl.
      + apply map_result_iff in Hmap. split.
        * intros H. injection H as <-. exists posts, perPost. repeat split. exact Hmap.
        * intros [posts' [perPost' [Hposts [Hall ->]]]]. injection Hposts as <-.
          apply map_result_iff in Hall, Hmap. rewrite Hall in Hmap.
          injection Hmap as ->. reflexivity.
      + split; [discriminate|].
        intros [posts' [perPost' [Hposts [Hall _]]]]. injection Hposts as <-.
        apply map_result_iff in Hall. rewrite Hall in Hmap. discriminate.
    - split; [discriminate|]. intros [posts [perPost [H _]]]. discriminate. }
  destruct (map_result perTypeOf postTypes) as [perType|e] eqn:Hmap; simpl.
  - apply map_result_iff in Hmap. split.
    + intros H. injection H as <-. exists perType. split; [|reflexivity].
      apply (Forall2_iff _ _ _ _ Hg). exact Hmap.
    + intros [perType' [Hall ->]]. apply (Forall2_iff _ _ _ _ Hg) in Hall.
      apply map_result_iff in Hall, Hmap. rewrite Hall in Hmap.
      injection Hmap as ->. reflexivity.
  - split; [discriminate|]. intros [perType [Hall _]].
    apply (Forall2_iff _ _ _ _ Hg) in Hall. apply map_result_iff in Hall.
    rewrite Hall in Hmap. discriminate.
Qed.

Lemma collectScrapedImages_sentinel (data : Data) (postTypes : list string)
    (images : list Asset.t) :
  collectScrapedImages P data postTypes = Ok images ->
  Forall (fun asset => Asset.id asset = VNum (-1)) images.
Proof.
  intros H. apply collectScrapedImages_iff in H as [perType [Hall ->]].
  apply Forall_concat. induction Hall as [|postType assets tys perType Hone _ IH];
    constructor; [|exact IH].
  destruct Hone as [posts [perPost [_ [Hposts ->]]]].
  apply Forall_concat. induction Hposts as [|post found posts perPost Hpost _ IHp];
    constructor; [|exact IHp].
  apply scrapePost_sentinel with (post := post). exact Hpost.
Qed.

End ScraperFacts.




(** ** C10: scraped assets and cover images *)

Lemma find_result_inv {A : Type} (f : A -> result bool) (l : list A) (x : A) :
  find_result f l = Ok (Some x) -> In x l /\ f x = Ok true.
Proof.
  induction l as [|y l IH]; simpl; [discriminate|].
  destruct (f y) as [[|]|e] eqn:Hy; simpl; try discriminate.
  - intros H. injection H as <-. split; [left; reflexivity | exact Hy].
  - intros H. apply IH in H as [Hin Hx]. split; [right; exact Hin | exact Hx].
Qed.

(** The cover image id of a record is [undefined], or the text of the
    metadata entry [_thumbnail_id] of its item. *)
Lemma getPostCoverImageId_shape (post : Item) (v : value) :
  getPostCoverImageId post = Ok v ->
  v = VUndefined
  \/ exists metas pm s,
      postmeta post = Some metas /\ In pm metas
      /\ meta_key pm = Some "_thumbnail_id" /\ meta_value pm = Some s
      /\ v = VStr s.
Proof.
  unfold getPostCoverImageId. destruct (postmeta post) as [metas|].
  - destruct (find_result _ metas) as [[pm|]|e] eqn:Hfind; simpl; try discriminate.
    + apply find_result_inv in Hfind as [Hin Hkey].
      destruct (meta_value pm) as [s|] eqn:Hs; simpl; [|discriminate].
      intros H. injection H as <-. right. exists metas, pm, s.
      repeat split; try assumption.
      destruct (meta_key pm) as [k|]; simpl in Hkey; [|discriminate].
      injection Hkey as Hkey. apply String.eqb_eq in Hkey. subst k. reflexivity.
    + intros H. injection H as <-. left. reflexivity.
  - intros H. injection H as <-. left. reflexivity.
Qed.

Lemma frontmatter_mergeImagesIntoPost (images : list Asset.t) (post : Post.t) :
  (forall image, In image images -> cover_of image post = false) ->
  Post.frontmatter (mergeImagesIntoPost images post) = Post.frontmatter post.
Proof.
  unfold mergeImagesIntoPost.
  revert post; induction images as [|image images IH]; intros post Hcover; simpl.
  - reflexivity.
  - rewrite IH.
    + rewrite frontmatter_mergeImageIntoPost, (Hcover image (or_introl eq_refl)).
      reflexivity.
    + intros image' Hin.
      destruct (attaches_mergeImageIntoPost image' image post) as [_ ->].
      apply Hcover. right. exact Hin.
Qed.

(** C10. Every asset that the scraper emits has the number [-1] as id, and
    the cover image id of every record that the extractor returns is
    [undefined] or the text of the metadata entry [_thumbnail_id] of a
    selected item. So no scraped asset satisfies rule B for a record: the
    correlation of scraped assets leaves every frontmatter as it is, the
    cover image included, and the image URLs of a record are then the URLs
    of the scraped assets that satisfy rule A for it. *)
Theorem C10_scraped_assets_never_cover :
  forall P settings network data config postTypes scrapedTypes t posts images,
    outcome (collectPosts P settings network data postTypes config t) = Ok posts ->
    collectScrapedImages P data scrapedTypes = Ok images ->
    Forall (fun image => Asset.id image = VNum (-1)) images
    /\ Forall
         (fun post =>
            Meta.coverImageId (Post.meta post) = VUndefined
            \/ exists postType it metas pm s,
                selected data postType it
                /\ postmeta it = Some metas /\ In pm metas
                /\ meta_key pm = Some "_thumbnail_id" /\ meta_value pm = Some s
                /\ Meta.coverImageId (Post.meta post) = VStr s)
         posts
    /\ (forall image post, In image images -> In post posts -> cover_of image post = false)
    /\ map Post.frontmatter (mergeImagesIntoPosts images posts) = map Post.frontmatter posts
    /\ (forall i post,
           nth_error posts i = Some post ->
           exists post',
             nth_error (mergeImagesIntoPosts images posts) i = Some post'
             /\ forall u,
                 In u (Meta.imageUrls (Post.meta post'))
                 <-> exists image,
                     In image images /\ Asset.url image = u
                     /\ attachment_of image post = true).
Proof.
  intros P settings network data config postTypes scrapedTypes t posts images Hposts Himages.
  pose proof (collectScrapedImages_sentinel P data scrapedTypes images Himages) as Hids.
  unfold collectPosts in Hposts. apply collectPosts_from_inv in Hposts.
  assert (Hmeta : Forall
            (fun post =>
               Meta.imageUrls (Post.meta post) = []
               /\ (Meta.coverImageId (Post.meta post) = VUndefined
                   \/ exists postType it metas pm s,
                       selected data postType it
                       /\ postmeta it = Some metas /\ In pm metas
                       /\ meta_key pm = Some "_thumbnail_id" /\ meta_value pm = Some s
                       /\ Meta.coverImageId (Post.meta post) = VStr s))
            posts).
  { eapply Forall_impl; [|exact Hposts].
    intros p [[]|[postType [it [index [t' [_ [Hsel Hok]]]]]]].
    apply processPost_inv in Hok as [meta [fm [Hm [_ [Heq _]]]]].
    apply build_meta_inv in Hm as [_ [Hcover [_ Hurls]]].
    rewrite Heq. split; [exact Hurls|].
    apply getPostCoverImageId_shape in Hcover
      as [Hu|[metas [pm [s [H1 [H2 [H3 [H4 H5]]]]]]]]; [left; exact Hu|].
    right. exists postType, it, metas, pm, s. repeat split; assumption. }
  assert (Hcover : forall image post,
             In image images -> In post posts -> cover_of image post = false).
  { intros image post Hi Hp. unfold cover_of.
    rewrite Forall_forall in Hids, Hmeta.
    rewrite (Hids image Hi).
    destruct (Hmeta post Hp) as [_ [->|[_ [_ [_ [_ [s [_ [_ [_ [_ [_ ->]]]]]]]]]]]];
      reflexivity. }
  split; [exact Hids|]. split.
  { eapply Forall_impl; [|exact Hmeta]. intros p [_ H]. exact H. }
  split; [exact Hcover|]. split.
  - rewrite mergeImagesIntoPosts_map, map_map. apply map_ext_in.
    intros post Hp. apply frontmatter_mergeImagesIntoPost.
    intros image Hi. apply Hcover; assumption.
  - intros i post Hi.
    assert (Hp : In post posts) by (eapply nth_error_In; exact Hi).
    rewrite Forall_forall in Hmeta. destruct (Hmeta post Hp) as [Hurls _].
    destruct (mergeImagesIntoPosts_attached images posts i post Hi Hurls)
      as [post' [Hnth Hiff]].
    exists post'. split; [exact Hnth|].
    intros u. rewrite Hiff. split.
    + intros [image [H1 [H2 [H3|H3]]]].
      * exists image. repeat split; assumption.
      * rewrite (Hcover image post H1 Hp) in H3. discriminate.
    + intros [image [H1 [H2 H3]]]. exists image. repeat split; try assumption.
      left. exact H3.
Qed.


Lemma C10_scraped_assets_never_cover_witness :
  Forall (fun image => Asset.id image = VNum (-1)) C10_images
  /\ map (fun post => Meta.coverImageId (Post.meta post)) C10_posts = [VStr "-1"]
  /\ map (fun post => Frontmatter.coverImage (Post.frontmatter post))
         (mergeImagesIntoPosts C10_images C10_posts)
     = [None].
Proof.
  assert (Hposts : outcome (collectPosts Example.platform Example.settings silent_network
                              C10_data ["post"] Example.config 0%N) = Ok C10_posts)
    by (vm_compute; reflexivity).
  assert (Himages : collectScrapedImages Example.platform C10_data ["post"] = Ok C10_images)
    by (vm_compute; reflexivity).
  destruct (C10_scraped_assets_never_cover Example.platform Example.settings silent_network
              C10_data Example.config ["post"] ["post"] 0%N C10_posts C10_images
              Hposts Himages) as [Hids [_ [_ [Hfm _]]]].
  split; [exact Hids | split; [reflexivity|]].
  rewrite <- (map_map Post.frontmatter Frontmatter.coverImage), Hfm. reflexivity.
Defined.

(** ** C9: the date *)



(** ** C5: no URL twice *)

Lemma collectPosts_imageUrls (P : Platform) (settings : Settings) (network : Network)
    (data : Data) (postTypes : list string) (config : Config) (t : N) (posts : list Post.t) :
  outcome (collectPosts P settings network data postTypes config t) = Ok posts ->
  Forall (fun post => Meta.imageUrls (Post.meta post) = []) posts.
Proof.
  unfold collectPosts. intros H. apply collectPosts_from_inv in H.
  eapply Forall_impl; [|exact H].
  intros p [[]|[postType [it [index [t' [_ [_ Hok]]]]]]].
  apply processPost_inv in Hok as [meta [fm [Hm [_ [Heq _]]]]].
  apply build_meta_inv in Hm as [_ [_ [_ Hurls]]]. rewrite Heq. exact Hurls.
Qed.

(** What [parseFilePromise] returns is what the correlator makes of the
    records of [collectPosts]. *)
Lemma parseFilePromise_inv (P : Platform) (settings : Settings) (network : Network)
    (data : Data) (config : Config) (t : N) (posts : list Post.t) :
  outcome (parseFilePromise P settings network data config t) = Ok posts ->
  exists postTypes t' posts0 images,
    getPostTypes data config = Ok postTypes
    /\ outcome (collectPosts P settings network data postTypes config t') = Ok posts0
    /\ posts = mergeImagesIntoPosts images posts0.
Proof.
  unfold parseFilePromise. intros H.
  apply await_inv in H as [postTypes [Htypes H]].
  apply await_inv in H as [posts0 [Hposts H]].
  apply await_inv in H as [attached [_ H]].
  apply await_inv in H as [scraped [_ H]].
  simpl in H. injection H as <-.
  exists postTypes. eexists. exists posts0, (attached ++ scraped).
  repeat split; [exact Htypes | exact Hposts].
Qed.

(** C5. After the correlator, the image URLs of a record that had no
    duplicate still have none, whatever the assets: they are the URLs the
    record had, followed by the new URLs of the assets that satisfy rule A
    or rule B, each once, in the order in which they were first seen. So
    no record that [parseFilePromise] returns holds a URL twice. In the
    example, the cover image satisfies both rules and comes once more as a
    scraped image, and its URL is there once. *)
Theorem C5_imageUrls_no_duplicates :
  (forall images posts i post,
      nth_error posts i = Some post ->
      NoDup (Meta.imageUrls (Post.meta post)) ->
      exists post',
        nth_error (mergeImagesIntoPosts images posts) i = Some post'
        /\ NoDup (Meta.imageUrls (Post.meta post'))
        /\ Meta.imageUrls (Post.meta post')
           = Meta.imageUrls (Post.meta post)
             ++ dedup_first
                  (filter (fun u => negb (includes (Meta.imageUrls (Post.meta post)) u))
                     (map Asset.url (filter (fun image => attaches image post) images))))
  /\ (forall P settings network data config t posts,
         outcome (parseFilePromise P settings network data config t) = Ok posts ->
         Forall (fun post => NoDup (Meta.imageUrls (Post.meta post))) posts)
  /\ attachment_of C4_b C4_record && cover_of C4_b C4_record = true
  /\ map (fun post => Meta.imageUrls (Post.meta post))
         (mergeImagesIntoPosts [C4_a; C4_b; C5_scraped] [C4_record])
     = [["http://ex.com/a.png"; "http://ex.com/b.gif"]].
Proof.
  split; [|split; [|split; reflexivity]].
  - intros images posts i post Hi Hnodup.
    exists (mergeImagesIntoPost images post). split; [|split].
    + rewrite mergeImagesIntoPosts_map, nth_error_map, Hi. reflexivity.
    + rewrite imageUrls_mergeImagesIntoPost. apply NoDup_fold_Set_add. exact Hnodup.
    + rewrite imageUrls_mergeImagesIntoPost. apply fold_Set_add.
  - intros P settings network data config t posts H.
    apply parseFilePromise_inv in H as [postTypes [t' [posts0 [images [_ [Hposts ->]]]]]].
    apply collectPosts_imageUrls in Hposts.
    rewrite mergeImagesIntoPosts_map. apply Forall_map.
    eapply Forall_impl; [|exact Hposts]. simpl. intros post Hnil.
    rewrite imageUrls_mergeImagesIntoPost. apply NoDup_fold_Set_add.
    rewrite Hnil. constructor.
Qed.

Lemma C5_imageUrls_no_duplicates_witness :
  (exists post',
      nth_error (mergeImagesIntoPosts [C4_a; C4_b; C5_scraped] [C4_record]) 0 = Some post'
      /\ NoDup (Meta.imageUrls (Post.meta post'))
      /\ Meta.imageUrls (Post.meta post') = ["http://ex.com/a.png"; "http://ex.com/b.gif"])
  /\ Forall (fun post => NoDup (Meta.imageUrls (Post.meta post))) C5_parsed.
Proof.
  split.
  - exact (proj1 C5_imageUrls_no_duplicates [C4_a; C4_b; C5_scraped] [C4_record] 0%nat
             C4_record eq_refl (NoDup_nil string)).
  - assert (Hparsed : outcome (parseFilePromise Example.platform Example.settings
                                 silent_network C10_data Example.config 0%N)
                      = Ok C5_parsed)
      by (vm_compute; reflexivity).
    exact (proj1 (proj2 C5_imageUrls_no_duplicates) Example.platform Example.settings
             silent_network C10_data Example.config 0%N C5_parsed Hparsed).
Defined.



(** * Further properties of the parser *)

(** ** Loops that throw *)

Lemma filter_result_Throw {A : Type} (f : A -> result bool) (l : list A) (x : A) (e : error) :
  In x l -> f x = Throw e -> exists e', filter_result f l = Throw e'.
Proof.
  induction l as [|y l IH]; simpl; [contradiction|].
  intros [->|Hin] He.
  - rewrite He. simpl. eauto.
  - destruct (f y); simpl; [|eauto].
    destruct (IH Hin He) as [e' ->]. simpl. eauto.
Qed.

Lemma map_result_Throw {A B : Type} (f : A -> result B) (l : list A) (x : A) (e : error) :
  In x l -> f x = Throw e -> exists e', map_result f l = Throw e'.
Proof.
  induction l as [|y l IH]; simpl; [contradiction|].
  intros [->|Hin] He.
  - rewrite He. simpl. eauto.
  - destruct (f y); simpl; [|eauto].
    destruct (IH Hin He) as [e' ->]. simpl. eauto.
Qed.

(** What [filter] keeps when the test throws nowhere. *)
Lemma filter_result_filter {A : Type} (f : A -> result bool) (l l' : list A) :
  filter_result f l = Ok l' ->
  l' = filter (fun x => match f x with Ok b => b | Throw _ => false end) l.
Proof.
  revert l'; induction l as [|x l IH]; simpl; intros l' H.
  - injection H as <-. reflexivity.
  - destruct (f x) as [b|e]; simpl in H; [|discriminate].
    destruct (filter_result f l) as [ys|e]; simpl in H; [|discriminate].
    injection H as <-. rewrite (IH ys eq_refl). destruct b; reflexivity.
Qed.

(** ** X1: the items of a type *)

Lemma getItemsOfType_Ok (data : Data) (type : string) (its : list Item) :
  getItemsOfType data type = Ok its -> its = filter (has_type type) (items_of data).
Proof.
  unfold getItemsOfType, channel_items, items_of.
  destruct (item data) as [items|]; simpl; [|discriminate].
  intros H. apply filter_result_filter in H. subst its.
  apply filter_ext. intros it. unfold has_type.
  destruct (post_type it); reflexivity.
Qed.

Lemma getItemsOfType_typed (data : Data) (type : string) (items : list Item) :
  item data = Some items ->
  Forall (fun it => post_type it <> None) items ->
  getItemsOfType data type = Ok (filter (has_type type) items).
Proof.
  intros Hitems Htyped.
  unfold getItemsOfType, channel_items. rewrite Hitems. simpl.
  apply filter_result_Ok. intros it Hin.
  rewrite Forall_forall in Htyped. specialize (Htyped it Hin).
  unfold has_type. destruct (post_type it); [reflexivity | contradiction].
Qed.

(** X1. On an export whose items all declare a type, [getItemsOfType]
    returns the items of the type, in the order of the export. One item
    without type makes it throw for every type, and so does an export
    without item. *)
Theorem getItemsOfType_behaviour :
  (forall data type items,
      item data = Some items ->
      Forall (fun it => post_type it <> None) items ->
      getItemsOfType data type = Ok (filter (has_type type) items))
  /\ (forall data type items it,
         item data = Some items -> In it items -> post_type it = None ->
         exists e, getItemsOfType data type = Throw e)
  /\ (forall data type, item data = None -> exists e, getItemsOfType data type = Throw e).
Proof.
  split; [|split].
  - intros data type items Hitems Htyped.
    unfold getItemsOfType, channel_items. rewrite Hitems. simpl.
    apply filter_result_Ok. intros it Hin.
    rewrite Forall_forall in Htyped. specialize (Htyped it Hin).
    unfold has_type. destruct (post_type it); [reflexivity | contradiction].
  - intros data type items it Hitems Hin Hnone.
    unfold getItemsOfType, channel_items. rewrite Hitems. simpl.
    apply (filter_result_Throw _ items it
             (TypeError "Cannot read properties of undefined (reading '0')") Hin).
    rewrite Hnone. reflexivity.
  - intros data type Hnone. unfold getItemsOfType, channel_items. rewrite Hnone.
    simpl. eauto.
Qed.

Lemma getItemsOfType_behaviour_witness :
  getItemsOfType X_data "attachment"
  = Ok [attachment_of_post "5" "10" "http://ex.com/a.PNG";
        attachment_of_post "6" "10" "http://ex.com/notes.pdf"]
  /\ (exists e,
         getItemsOfType C10_data "post" = Ok [C10_item]
         /\ getItemsOfType {| item := Some [C10_item; X_untyped] |} "post" = Throw e)
  /\ (exists e, getItemsOfType {| item := None |} "post" = Throw e).
Proof.
  destruct getItemsOfType_behaviour as [Hok [Huntyped Hempty]].
  split; [|split].
  - apply (Hok X_data "attachment" _ eq_refl). repeat constructor; discriminate.
  - destruct (Huntyped {| item := Some [C10_item; X_untyped] |} "post" _ _ eq_refl
                (or_intror (or_introl eq_refl)) eq_refl) as [e He].
    exists e. split; [|exact He].
    apply (Hok C10_data "post" _ eq_refl). repeat constructor; discriminate.
  - apply (Hempty {| item := None |} "post" eq_refl).
Defined.

(** ** The matcher finds what the pattern accepts *)

Lemma rmatch_complete r s cap s' cap' :
  accepts r s cap s' cap' ->
  forall (R : Type) (k : list ascii -> option (list ascii) -> option R),
    k s' cap' <> None -> rmatch R r s cap k <> None.
Proof.
  induction 1; intros R k Hk; simpl.
  - exact Hk.
  - rewrite H. exact Hk.
  - apply IHaccepts1. apply IHaccepts2. exact Hk.
  - specialize (IHaccepts R k Hk). destruct (rmatch R r1 s cap k); congruence.
  - destruct (rmatch R r1 s cap k); [discriminate|]. apply IHaccepts. exact Hk.
  - specialize (IHaccepts R k Hk). destruct (rmatch R r s cap k); congruence.
  - destruct (rmatch R r s cap k); [discriminate | exact Hk].
  - destruct s as [|c s]; simpl; [exact Hk|].
    destruct (class_matches cl c); [|exact Hk].
    destruct (star_greedy R cl (fun s' => k s' cap) s); [discriminate | exact Hk].
  - rewrite H. specialize (IHaccepts R k Hk). simpl in IHaccepts.
    destruct (star_greedy R cl (fun s'0 => k s'0 cap) s); congruence.
  - rewrite H. destruct (k s cap); congruence.
  - rewrite H. specialize (IHaccepts R k Hk). simpl in IHaccepts.
    destruct (k s cap); [discriminate | exact IHaccepts].
  - apply IHaccepts. exact Hk.
  - exact Hk.
Qed.

Lemma accepts_lit_intro (text : string) (w s : list ascii) cap :
  map to_lower w = map to_lower (list_ascii_of_string text) ->
  accepts (lit text) (w ++ s) cap s cap.
Proof.
  revert w; induction text as [|c text IH]; intros w Hw; simpl in *.
  - destruct w; [constructor | discriminate].
  - destruct w as [|x w]; [discriminate|]. injection Hw as Hx Hw.
    destruct text as [|c' text].
    + destruct w; [|discriminate]. simpl. constructor. simpl.
      rewrite Hx. apply Ascii.eqb_refl.
    + simpl. econstructor.
      * constructor. simpl. rewrite Hx. apply Ascii.eqb_refl.
      * apply IH. exact Hw.
Qed.

Lemma accepts_image_extension_intro (ext s : list ascii) cap :
  In (string_of_list_ascii (map to_lower ext)) ["gif"; "jpg"; "jpeg"; "png"] ->
  accepts image_extension (ext ++ s) cap s cap.
Proof.
  intros Hin. unfold image_extension.
  assert (Hlist : forall text, text = string_of_list_ascii (map to_lower ext) ->
                               map to_lower ext = list_ascii_of_string text).
  { intros text ->. symmetry. apply list_ascii_of_string_of_list_ascii. }
  destruct Hin as [H|[H|[H|[H|[]]]]]; apply Hlist in H.
  - apply accepts_Alt_l. apply (accepts_lit_intro "gif"). exact H.
  - apply accepts_Alt_r, accepts_Alt_l.
    destruct ext as [|c1 [|c2 [|c3 [|]]]]; try discriminate.
    injection H as H1 H2 H3.
    change ([c1; c2; c3] ++ s) with ([c1; c2] ++ [c3] ++ s).
    econstructor; [apply (accepts_lit_intro "jp"); simpl; rewrite H1, H2; reflexivity|].
    econstructor; [apply accepts_Opt_none|].
    apply (accepts_lit_intro "g"). simpl. rewrite H3. reflexivity.
  - apply accepts_Alt_r, accepts_Alt_l.
    destruct ext as [|c1 [|c2 [|c3 [|c4 [|]]]]]; try discriminate.
    injection H as H1 H2 H3 H4.
    change ([c1; c2; c3; c4] ++ s) with ([c1; c2] ++ c3 :: [c4] ++ s).
    econstructor; [apply (accepts_lit_intro "jp"); simpl; rewrite H1, H2; reflexivity|].
    econstructor.
    + apply accepts_Opt_some. constructor. simpl. rewrite H3. reflexivity.
    + apply (accepts_lit_intro "g"). simpl. rewrite H4. reflexivity.
  - apply accepts_Alt_r, accepts_Alt_r. apply (accepts_lit_intro "png"). exact H.
Qed.

Lemma test_from_complete (r : regex) (stem s : list ascii) :
  match_here r s <> None -> test_from r (stem ++ s) = true.
Proof.
  intros Hm. induction stem as [|c stem IH]; simpl.
  - destruct s; simpl; destruct (match_here r _); congruence.
  - destruct (match_here r (c :: stem ++ s)); [reflexivity | exact IH].
Qed.

Lemma test_from_sound (r : regex) (s : list ascii) :
  test_from r s = true -> exists stem s0, s = stem ++ s0 /\ match_here r s0 <> None.
Proof.
  induction s as [|c s IH]; simpl.
  - destruct (match_here r []) eqn:Hm; [|discriminate].
    intros _. exists [], []. split; [reflexivity | congruence].
  - destruct (match_here r (c :: s)) eqn:Hm.
    + intros _. exists [], (c :: s). split; [reflexivity | congruence].
    + intros H. destruct (IH H) as [stem [s0 [-> Hs0]]].
      exists (c :: stem), s0. split; [reflexivity | exact Hs0].
Qed.

(** ** X2: the test on the URL of an attachment *)

Lemma regex_test_attachment_pattern (u : string) :
  regex_test attachment_pattern u = true <-> has_image_extension u.
Proof.
  unfold regex_test, has_image_extension. split.
  - intros H. apply test_from_sound in H as [stem [s0 [Hu Hm]]].
    unfold match_here in Hm.
    destruct (rmatch _ attachment_pattern s0 None (fun s' cap => Some (s', cap)))
      as [[rest cap]|] eqn:Hr; [|congruence].
    apply rmatch_sound in Hr as [s' [cap' [Hacc _]]].
    unfold attachment_pattern in Hacc.
    apply accepts_Seq_inv in Hacc as [s1 [cap1 [Hdot Hacc]]].
    apply accepts_Seq_inv in Hacc as [s2 [cap2 [Hext Hend]]].
    apply accepts_Char_inv in Hdot as [x [-> [Hx _]]].
    apply accepts_image_extension in Hext as [ext [-> [Hin _]]].
    inversion Hend; subst.
    assert (x = "."%char) as ->.
    { revert Hx. clear. destruct x as [[] [] [] [] [] [] [] []]; vm_compute; congruence. }
    exists stem, ext. rewrite app_nil_r in Hu. split; assumption.
  - intros [stem [ext [-> Hin]]]. apply test_from_complete.
    unfold match_here. apply (rmatch_complete attachment_pattern _ None [] None);
      [|discriminate].
    unfold attachment_pattern.
    econstructor; [constructor; reflexivity|].
    econstructor; [|constructor].
    rewrite <- (app_nil_r ext) at 1. apply accepts_image_extension_intro. exact Hin.
Qed.

(** X2. The test [/\.(gif|jpe?g|png)$/i] of [collectAttachedImages] holds
    of a URL if and only if the URL ends in a dot followed by [gif], [jpg],
    [jpeg] or [png], in any mix of upper and lower case. *)
Theorem attachment_pattern_extension (u : string) :
  regex_test attachment_pattern u = true <-> has_image_extension u.
Proof. apply regex_test_attachment_pattern. Qed.

(** ** X3: the declared attachments *)

Lemma collectAttachedImages_inv (data : Data) (images : list Asset.t) :
  collectAttachedImages data = Ok images ->
  Forall2
    (fun it asset =>
       option_map VStr (post_id it) = Some (Asset.id asset)
       /\ option_map VStr (post_parent it) = Some (Asset.postId asset)
       /\ attachment_url it = Some (Asset.url asset))
    (filter image_attachment (items_of data)) images.
Proof.
  unfold collectAttachedImages.
  destruct (getItemsOfType data "attachment") as [attachments|] eqn:Hatt; simpl;
    [|discriminate].
  apply getItemsOfType_Ok in Hatt.
  destruct (filter_result _ attachments) as [kept|] eqn:Hkept; simpl; [|discriminate].
  apply filter_result_filter in Hkept.
  intros H. apply map_result_Forall2 in H.
  assert (Hk : kept = filter image_attachment (items_of data)).
  { rewrite Hkept, Hatt, filter_filter. apply filter_ext. intros it.
    unfold image_attachment. destruct (has_type "attachment" it); [|reflexivity].
    destruct (attachment_url it); reflexivity. }
  rewrite <- Hk. eapply Forall2_impl; [|exact H].
  intros it [aid apost aurl]. simpl.
  destruct (post_id it); simpl; [|discriminate].
  destruct (post_parent it); simpl; [|discriminate].
  destruct (attachment_url it); simpl; [|discriminate].
  intros Heq. injection Heq as <- <- <-. repeat split.
Qed.

Lemma Forall2_In_r {A B : Type} (R : A -> B -> Prop) (l : list A) (l' : list B) (y : B) :
  Forall2 R l l' -> In y l' -> exists x, In x l /\ R x y.
Proof.
  induction 1 as [|a b l l' Hab _ IH]; simpl; [contradiction|].
  intros [->|Hin].
  - exists a. split; [left; reflexivity | exact Hab].
  - destruct (IH Hin) as [x [Hx HR]]. exists x. split; [right; exact Hx | exact HR].
Qed.

(** X3. When [collectAttachedImages] returns, its assets are, in the order
    of the export, those of the items of type [attachment] whose URL passes
    the test: each with the id of the attachment, the id of its parent and
    its URL as it is. So the URL of every asset ends in one of the four
    extensions and no asset carries the id [-1] of the scraped ones. It
    returns whenever every item declares a type, every attachment a URL, and
    every attachment that passes the test an id and a parent; an attachment
    without URL makes it throw. *)
Theorem collectAttachedImages_assets :
  (forall data images,
      collectAttachedImages data = Ok images ->
      Forall2
        (fun it asset =>
           option_map VStr (post_id it) = Some (Asset.id asset)
           /\ option_map VStr (post_parent it) = Some (Asset.postId asset)
           /\ attachment_url it = Some (Asset.url asset))
        (filter image_attachment (items_of data)) images
      /\ Forall
           (fun asset =>
              has_image_extension (Asset.url asset) /\ Asset.id asset <> VNum (-1))
           images)
  /\ (forall data items,
         item data = Some items ->
         Forall (fun it => post_type it <> None) items ->
         Forall (fun it => has_type "attachment" it = true -> attachment_url it <> None) items ->
         Forall (fun it => image_attachment it = true ->
                           post_id it <> None /\ post_parent it <> None) items ->
         exists images, collectAttachedImages data = Ok images)
  /\ (forall data items it,
         item data = Some items ->
         Forall (fun it => post_type it <> None) items ->
         In it items -> has_type "attachment" it = true -> attachment_url it = None ->
         exists e, collectAttachedImages data = Throw e).
Proof.
  split; [|split].
  - intros data images H. pose proof (collectAttachedImages_inv data images H) as Hall.
    split; [exact Hall|].
    apply Forall_forall. intros asset Hin.
    destruct (Forall2_In_r _ _ _ asset Hall Hin) as [it [Hit [Hid [_ Hurl]]]].
    apply filter_In in Hit as [_ Him]. unfold image_attachment in Him.
    apply andb_true_iff in Him as [_ Him]. rewrite Hurl in Him.
    split; [apply regex_test_attachment_pattern; exact Him|].
    destruct (post_id it); simpl in Hid; [|discriminate].
    injection Hid as <-. discriminate.
  - intros data items Hitems Htyped Hurl Hids.
    unfold collectAttachedImages.
    rewrite (getItemsOfType_typed data "attachment" items Hitems Htyped). simpl.
    rewrite (filter_result_Ok _
               (fun it => match attachment_url it with
                          | Some u => regex_test attachment_pattern u
                          | None => false
                          end)).
    + simpl.
      match goal with
      | |- exists images, map_result ?f ?l = Ok images =>
          assert (Hmap : forall l0, (forall x, In x l0 -> In x l) ->
                                    exists images, map_result f l0 = Ok images)
      end.
      { induction l0 as [|x l0 IH]; intros Hsub; simpl; [eauto|].
        assert (Hx : In x (filter
                            (fun it => match attachment_url it with
                                       | Some u => regex_test attachment_pattern u
                                       | None => false
                                       end)
                            (filter (has_type "attachment") items)))
          by (apply Hsub; left; reflexivity).
        apply filter_In in Hx as [Hx Htest]. apply filter_In in Hx as [Hx Hty].
        rewrite Forall_forall in Hids.
        destruct (Hids x Hx) as [Hid Hparent].
        { unfold image_attachment. rewrite Hty. exact Htest. }
        destruct (post_id x); [|contradiction].
        destruct (post_parent x); [|contradiction].
        destruct (attachment_url x); [|discriminate]. simpl.
        destruct IH as [images ->]; [intros y Hy; apply Hsub; right; exact Hy|].
        simpl. eauto. }
      apply Hmap. auto.
    + intros it Hin. apply filter_In in Hin as [Hin Hty].
      rewrite Forall_forall in Hurl. specialize (Hurl it Hin Hty).
      destruct (attachment_url it); [reflexivity | contradiction].
  - intros data items it Hitems Htyped Hin Hty Hnone.
    unfold collectAttachedImages.
    rewrite (getItemsOfType_typed data "attachment" items Hitems Htyped). simpl.
    destruct (filter_result_Throw
                (fun attachment =>
                   (let? u := idx0 (attachment_url attachment) in
                    Ok (regex_test attachment_pattern u))%result)
                (filter (has_type "attachment") items) it
                (TypeError "Cannot read properties of undefined (reading '0')"))
      as [e' He'].
    + apply filter_In. split; assumption.
    + rewrite Hnone. reflexivity.
    + rewrite He'. simpl. eauto.
Qed.


Lemma collectAttachedImages_assets_witness :
  Forall
    (fun asset => has_image_extension (Asset.url asset) /\ Asset.id asset <> VNum (-1))
    X_images
  /\ (exists images, collectAttachedImages X_data = Ok images)
  /\ (exists e, collectAttachedImages {| item := Some [X_no_url] |} = Throw e).
Proof.
  destruct collectAttachedImages_assets as [Hinv [Hok Hthrow]].
  split; [|split].
  - assert (Hrun : collectAttachedImages X_data = Ok X_images)
      by (vm_compute; reflexivity).
    exact (proj2 (Hinv X_data X_images Hrun)).
  - apply (Hok X_data _ eq_refl).
    + repeat (apply Forall_cons; [discriminate|]). apply Forall_nil.
    + repeat (apply Forall_cons; [intros H; first [discriminate | discriminate H]|]).
      apply Forall_nil.
    + repeat (apply Forall_cons;
              [intros H; first [split; discriminate | discriminate H]|]).
      apply Forall_nil.
  - apply (Hthrow {| item := Some [X_no_url] |} _ X_no_url eq_refl).
    + repeat (apply Forall_cons; [discriminate|]). apply Forall_nil.
    + left. reflexivity.
    + reflexivity.
    + reflexivity.
Defined.


(** ** X4: the cover image id *)

Lemma find_result_skip {A : Type} (f : A -> result bool) (before l : list A) :
  Forall (fun x => f x = Ok false) before ->
  find_result f (before ++ l) = find_result f l.
Proof.
  induction 1 as [|x before Hx _ IH]; simpl; [reflexivity|].
  rewrite Hx. simpl. exact IH.
Qed.

Lemma other_key_test (pm : PostMeta) :
  other_key pm ->
  (let? k := idx0 (meta_key pm) in Ok (String.eqb k "_thumbnail_id"))%result = Ok false.
Proof.
  intros [k [Hk Hne]]. rewrite Hk. simpl. apply String.eqb_neq in Hne. rewrite Hne.
  reflexivity.
Qed.

(** X4. The cover image id of an item is the value of the first metadata
    entry with the key [_thumbnail_id]: the entries after it are not read.
    It is [undefined], and no error, for an item without metadata or
    without such an entry. An entry without key that comes before throws. *)
Theorem getPostCoverImageId_first_entry :
  forall post,
    (postmeta post = None -> getPostCoverImageId post = Ok VUndefined)
    /\ (forall metas,
           postmeta post = Some metas -> Forall other_key metas ->
           getPostCoverImageId post = Ok VUndefined)
    /\ (forall before pm after v,
           postmeta post = Some (before ++ pm :: after) -> Forall other_key before ->
           meta_key pm = Some "_thumbnail_id" -> meta_value pm = Some v ->
           getPostCoverImageId post = Ok (VStr v))
    /\ (forall before pm after,
           postmeta post = Some (before ++ pm :: after) -> Forall other_key before ->
           meta_key pm = None ->
           exists e, getPostCoverImageId post = Throw e).
Proof.
  intros post. unfold getPostCoverImageId. split; [|split; [|split]].
  - intros ->. reflexivity.
  - intros metas -> Hother.
    rewrite <- (app_nil_r metas), find_result_skip; [reflexivity|].
    eapply Forall_impl; [|exact Hother]. apply other_key_test.
  - intros before pm after v -> Hother Hkey Hvalue.
    rewrite find_result_skip
      by (eapply Forall_impl; [|exact Hother]; apply other_key_test).
    simpl. rewrite Hkey. simpl. rewrite Hvalue. reflexivity.
  - intros before pm after -> Hother Hkey.
    rewrite find_result_skip
      by (eapply Forall_impl; [|exact Hother]; apply other_key_test).
    simpl. rewrite Hkey. simpl. eauto.
Qed.

Lemma getPostCoverImageId_first_entry_witness :
  getPostCoverImageId (Example.item_of "post" "1" "first" "") = Ok VUndefined
  /\ getPostCoverImageId C10_item = Ok (VStr "-1")
  /\ getPostCoverImageId
       X_other_meta
     = Ok VUndefined.
Proof.
  split; [|split].
  - exact (proj1 (getPostCoverImageId_first_entry (Example.item_of "post" "1" "first" ""))
             eq_refl).
  - apply (proj1 (proj2 (proj2 (getPostCoverImageId_first_entry C10_item)))
             [{| meta_key := Some "_edit_last"; meta_value := Some "2" |}]
             {| meta_key := Some "_thumbnail_id"; meta_value := Some "-1" |} [] "-1"
             eq_refl).
    + repeat constructor. exists "_edit_last". split; [reflexivity | discriminate].
    + reflexivity.
    + reflexivity.
  - apply (proj1 (proj2 (getPostCoverImageId_first_entry X_other_meta)) _ eq_refl).
    repeat constructor. exists "_edit_last". split; [reflexivity | discriminate].
Defined.

(** ** X5: categories and tags *)

Section CategoryFacts.

Variable P : Platform.
Variable settings : Settings.

Lemma processCategoryTags_inv (post : Item) (dom : string) (entries : list Category)
    (names : list string) :
  category post = Some entries ->
  processCategoryTags P post dom = Ok names ->
  Forall2
    (fun c name =>
       exists a, attrs c = Some a /\ decodeURIComponent P (toString (nicename a)) = Ok name)
    (filter (in_domain dom) entries) names.
Proof.
  intros Hentries. unfold processCategoryTags. rewrite Hentries.
  destruct (filter_result _ entries) as [kept|] eqn:Hkept; simpl; [|discriminate].
  apply filter_result_filter in Hkept.
  intros H. apply map_result_Forall2 in H.
  assert (Hk : kept = filter (in_domain dom) entries).
  { rewrite Hkept. apply filter_ext. intros c. unfold in_domain, category_attrs.
    destruct (attrs c); reflexivity. }
  rewrite <- Hk. eapply Forall2_impl; [|exact H].
  intros c name. unfold category_attrs. destruct (attrs c) as [a|]; simpl; [|discriminate].
  intros Hname. exists a. split; [reflexivity | exact Hname].
Qed.

End CategoryFacts.

(** X5. An item without category entry has no category and no tag. The
    tags of an item are the decoded names of its entries of the domain
    [post_tag], one for each entry and in their order, with repetitions
    kept; the categories are the decoded names of the entries of the
    domain [category], in their order, without those that the settings leave
    out, so that no category of a record is one of these. An entry of any
    other domain is in neither. *)
Theorem categories_and_tags :
  (forall P settings post,
      category post = None ->
      getCategories P settings post = Ok [] /\ getTags P post = Ok [])
  /\ (forall P post entries tags,
         category post = Some entries ->
         getTags P post = Ok tags ->
         Forall2
           (fun c name =>
              exists a,
                attrs c = Some a /\ decodeURIComponent P (toString (nicename a)) = Ok name)
           (filter (in_domain "post_tag") entries) tags)
  /\ (forall P settings post entries categories,
         category post = Some entries ->
         getCategories P settings post = Ok categories ->
         (exists names,
             Forall2
               (fun c name =>
                  exists a,
                    attrs c = Some a
                    /\ decodeURIComponent P (toString (nicename a)) = Ok name)
               (filter (in_domain "category") entries) names
             /\ categories
                = filter (fun c => negb (includes (filter_categories settings) c)) names)
         /\ forall c, In c categories -> ~ In c (filter_categories settings)).
Proof.
  split; [|split].
  - intros P settings post Hnone.
    unfold getCategories, getTags, processCategoryTags. rewrite Hnone. split; reflexivity.
  - intros P post entries tags Hentries Htags.
    apply (processCategoryTags_inv P post "post_tag" entries tags Hentries Htags).
  - intros P settings post entries categories Hentries Hcats.
    unfold getCategories in Hcats.
    destruct (processCategoryTags P post "category") as [names|] eqn:Hnames;
      simpl in Hcats; [|discriminate].
    injection Hcats as <-. split.
    + exists names. split; [|reflexivity].
      apply (processCategoryTags_inv P post "category" entries names Hentries Hnames).
    + intros c Hc. apply filter_In in Hc as [_ Hc].
      apply negb_true_iff in Hc. intros Hin. apply includes_In in Hin. congruence.
Qed.

Lemma categories_and_tags_witness :
  (getCategories Example.platform X_settings (Example.item_of "post" "1" "first" "") = Ok []
   /\ getTags Example.platform (Example.item_of "post" "1" "first" "") = Ok [])
  /\ (forall c, In c ["news"] -> ~ In c (filter_categories X_settings))
  /\ Forall2
       (fun c name =>
          exists a,
            attrs c = Some a
            /\ decodeURIComponent Example.platform (toString (nicename a)) = Ok name)
       [category_entry "post_tag" "rocq"; category_entry "post_tag" "rocq"]
       ["rocq"; "rocq"].
Proof.
  destruct categories_and_tags as [Hnone [Htags Hcats]].
  split; [|split].
  - exact (Hnone Example.platform X_settings (Example.item_of "post" "1" "first" "") eq_refl).
  - exact (proj2 (Hcats Example.platform X_settings X_categorized _ ["news"] eq_refl eq_refl)).
  - exact (Htags Example.platform X_categorized _ ["rocq"; "rocq"] eq_refl eq_refl).
Defined.


(** ** X6 and X7: the records that the extractor returns *)

Lemma mapi_from_Forall2_pos {A B C : Type} (f : A -> nat -> B) (R : B -> C -> Prop)
    (l : list A) (start : nat) (l' : list C) :
  Forall2 R (mapi_from f start l) l' ->
  Forall2 (fun x c => exists index, R (f x index) c) l l'.
Proof.
  revert start l'; induction l as [|x l IH]; simpl; intros start l' H.
  - inversion H. constructor.
  - inversion H as [|b c bs cs Hbc Hrest]; subst. constructor.
    + exists start. exact Hbc.
    + apply IH with (start := S start). exact Hrest.
Qed.

Lemma filter_Boolean (posts : list Post.t) : filter Boolean posts = posts.
Proof.
  induction posts as [|p posts IH]; simpl; [reflexivity | f_equal; exact IH].
Qed.

Lemma selection_filter (data : Data) (postType : string) (its : list Item) :
  (let? items := getItemsOfType data postType in filter_result published items)%result
  = Ok its ->
  its = filter (selectedb postType) (items_of data).
Proof.
  destruct (getItemsOfType data postType) as [ofType|] eqn:Htype; simpl; [|discriminate].
  apply getItemsOfType_Ok in Htype. intros H. apply filter_result_filter in H.
  rewrite H, Htype, filter_filter. apply filter_ext. intros it.
  unfold selectedb, published. destruct (has_type postType it); [|reflexivity].
  destruct (status it); reflexivity.
Qed.

Section OrderFacts.

Variable P : Platform.
Variable settings : Settings.
Variable network : Network.
Variable config : Config.

Lemma collectPosts_from_order (data : Data) (postTypes : list string)
    (allPosts : list Post.t) (t : N) (posts : list Post.t) :
  outcome (collectPosts_from P settings network data config postTypes allPosts t) = Ok posts ->
  exists new,
    posts = allPosts ++ new
    /\ Forall2
         (fun selected p =>
            exists index t',
              outcome (processPost P settings network config (fst selected) (snd selected)
                         index t')
              = Ok p)
         (selection data postTypes) new.
Proof.
  revert allPosts t; induction postTypes as [|postType rest IH]; intros allPosts t; simpl.
  - intros H. injection H as <-. exists []. split; [symmetry; apply app_nil_r | constructor].
  - intros H.
    apply await_inv in H as [postsForType [Hsel H]].
    apply await_inv in H as [resolved [Hall H]].
    simpl in Hsel. apply selection_filter in Hsel. subst postsForType.
    apply Promise_all_inv in Hall. unfold mapi in Hall.
    apply mapi_from_Forall2_pos in Hall.
    apply IH in H as [new [-> Hnew]].
    rewrite filter_Boolean. exists (resolved ++ new).
    split; [symmetry; apply app_assoc|].
    unfold selection. simpl. apply Forall2_app; [|exact Hnew].
    clear - Hall. induction Hall as [|it p its ps [index Hp] _ IHall]; simpl; constructor.
    + exists index. eexists. exact Hp.
    + exact IHall.
Qed.

Lemma build_consistent (postType : string) (post : Item) (meta : Meta.t)
    (fm : Frontmatter.t) :
  build_meta P postType post = Ok meta ->
  build_frontmatter P settings postType post = Ok fm ->
  Frontmatter.wp_id fm = Meta.id meta
  /\ Frontmatter.wp_type fm = Meta.type meta
  /\ Frontmatter.wp_slug fm = Meta.slug meta.
Proof.
  unfold build_meta, build_frontmatter.
  destruct (getPostId post) as [id|]; simpl; [|discriminate].
  destruct (getPostSlug P post) as [slug|]; simpl; [|discriminate].
  destruct (getPostCoverImageId post); simpl; [|discriminate].
  intros Hm. injection Hm as <-.
  destruct (getPostTitle post); simpl; [|discriminate].
  destruct (getPostDate P settings post); simpl; [|discriminate].
  destruct (getCategories P settings post); simpl; [|discriminate].
  destruct (getTags P post); simpl; [|discriminate].
  destruct (getPostCreator post); simpl; [|discriminate].
  intros Hfm. injection Hfm as <-. repeat split.
Qed.

(** What every fulfilled record satisfies. *)
Lemma processPost_consistent (postType : string) (post : Item) (index : nat) (t : N)
    (p : Post.t) :
  outcome (processPost P settings network config postType post index t) = Ok p ->
  Meta.type (Post.meta p) = postType
  /\ option_map VStr (post_id post) = Some (Meta.id (Post.meta p))
  /\ Frontmatter.wp_id (Post.frontmatter p) = Meta.id (Post.meta p)
  /\ Frontmatter.wp_type (Post.frontmatter p) = Meta.type (Post.meta p)
  /\ Frontmatter.wp_slug (Post.frontmatter p) = Meta.slug (Post.meta p)
  /\ Meta.imageUrls (Post.meta p) = []
  /\ Frontmatter.coverImage (Post.frontmatter p) = None
  /\ (Frontmatter.enriched (Post.frontmatter p) <> None -> postType = "ai1ec_event").
Proof.
  intros H. apply processPost_inv in H as [meta [fm [Hm [Hfm [Heq Hcase]]]]].
  destruct (build_consistent postType post meta fm Hm Hfm) as [H1 [H2 H3]].
  destruct (build_frontmatter_enriched P settings postType post fm Hfm) as [Hnone Hcover].
  apply build_meta_inv in Hm as [Hid [_ [Hty Hurls]]].
  rewrite Heq. split; [exact Hty|]. split.
  { unfold getPostId in Hid. destruct (post_id post); simpl in *; [|discriminate].
    injection Hid as <-. reflexivity. }
  destruct Hcase as [->|[Hevent [id [latency [res [d [_ [_ [_ [_ [_ ->]]]]]]]]]]]; simpl.
  - repeat split; try assumption. intros Hne. rewrite Hnone in Hne. contradiction.
  - repeat split; try assumption. intros _. exact Hevent.
Qed.

End OrderFacts.

(** X6. When [collectPosts] fulfils, it returns one record for every
    selected item and nothing else: the records stand in the order of the
    types and, within a type, in the order of the export, whatever the
    times at which their promises settled, and each has the type and the id
    of its item. *)
Theorem collectPosts_order :
  forall P settings network data postTypes config t posts,
    outcome (collectPosts P settings network data postTypes config t) = Ok posts ->
    Forall2
      (fun selected p =>
         Meta.type (Post.meta p) = fst selected
         /\ option_map VStr (post_id (snd selected)) = Some (Meta.id (Post.meta p)))
      (selection data postTypes) posts.
Proof.
  intros P settings network data postTypes config t posts H.
  unfold collectPosts in H. apply collectPosts_from_order in H as [new [-> Hnew]].
  simpl. eapply Forall2_impl; [|exact Hnew].
  intros [postType it] p [index [t' Hp]]. simpl in *.
  apply processPost_consistent in Hp as [H1 [H2 _]]. split; assumption.
Qed.

Lemma collectPosts_order_witness :
  Forall2
    (fun selected p =>
       Meta.type (Post.meta p) = fst selected
       /\ option_map VStr (post_id (snd selected)) = Some (Meta.id (Post.meta p)))
    (selection X_drafts ["post"; "page"]) X_drafts_posts
  /\ map (fun p => Meta.id (Post.meta p)) X_drafts_posts = [VStr "1"; VStr "5"; VStr "4"].
Proof.
  assert (Hrun : outcome (collectPosts Example.platform Example.settings silent_network
                            X_drafts ["post"; "page"] Example.config 0%N)
                 = Ok X_drafts_posts)
    by (vm_compute; reflexivity).
  split; [|reflexivity].
  exact (collectPosts_order Example.platform Example.settings silent_network X_drafts
           ["post"; "page"] Example.config 0%N X_drafts_posts Hrun).
Defined.

(** X7. In every record that [collectPosts] returns, the frontmatter
    repeats the meta: [wp_id] is the id, [wp_type] the type and [wp_slug]
    the slug. The type is one of the classified types, the record has no
    image URL and no cover image yet, and only a record of the type
    [ai1ec_event] is enriched. *)
Theorem collectPosts_records_consistent :
  forall P settings network data postTypes config t posts,
    outcome (collectPosts P settings network data postTypes config t) = Ok posts ->
    Forall
      (fun p =>
         Frontmatter.wp_id (Post.frontmatter p) = Meta.id (Post.meta p)
         /\ Frontmatter.wp_type (Post.frontmatter p) = Meta.type (Post.meta p)
         /\ Frontmatter.wp_slug (Post.frontmatter p) = Meta.slug (Post.meta p)
         /\ In (Meta.type (Post.meta p)) postTypes
         /\ Meta.imageUrls (Post.meta p) = []
         /\ Frontmatter.coverImage (Post.frontmatter p) = None
         /\ (Frontmatter.enriched (Post.frontmatter p) <> None ->
             Meta.type (Post.meta p) = "ai1ec_event"))
      posts.
Proof.
  intros P settings network data postTypes config t posts H.
  unfold collectPosts in H. apply collectPosts_from_inv in H.
  eapply Forall_impl; [|exact H].
  intros p [[]|[postType [it [index [t' [Hin [_ Hp]]]]]]].
  apply processPost_consistent in Hp as [H1 [_ [H3 [H4 [H5 [H6 [H7 H8]]]]]]].
  rewrite H1 in H4 |- *. repeat split; assumption.
Qed.

Lemma collectPosts_records_consistent_witness :
  Forall
    (fun p =>
       Frontmatter.wp_id (Post.frontmatter p) = Meta.id (Post.meta p)
       /\ Frontmatter.wp_type (Post.frontmatter p) = Meta.type (Post.meta p)
       /\ Frontmatter.wp_slug (Post.frontmatter p) = Meta.slug (Post.meta p)
       /\ In (Meta.type (Post.meta p)) ["post"; "page"]
       /\ Meta.imageUrls (Post.meta p) = []
       /\ Frontmatter.coverImage (Post.frontmatter p) = None
       /\ (Frontmatter.enriched (Post.frontmatter p) <> None ->
           Meta.type (Post.meta p) = "ai1ec_event"))
    X_drafts_posts.
Proof.
  assert (Hrun : outcome (collectPosts Example.platform Example.settings silent_network
                            X_drafts ["post"; "page"] Example.config 0%N)
                 = Ok X_drafts_posts)
    by (vm_compute; reflexivity).
  exact (collectPosts_records_consistent Example.platform Example.settings silent_network
           X_drafts ["post"; "page"] Example.config 0%N X_drafts_posts Hrun).
Defined.


(** ** X8 to X11: the requests *)

Lemma getEventMetadata_outcome (network : Network) (id : value) (t : N) (latency : N)
    (res : Response) :
  network (events_url id) = Responds latency res ->
  (latency < 10000)%N ->
  outcome (getEventMetadata network id t)
  = if ok res then
      match body res with
      | JsonBody m => Ok m
      | InvalidBody => Throw SyntaxError
      end
    else Ok MetaFalsy.
Proof.
  intros Hnet Hlat. apply N.ltb_lt in Hlat.
  unfold getEventMetadata, async_catch, await, fetch_with_abort. rewrite Hnet, Hlat. simpl.
  destruct (ok res); simpl; [|reflexivity].
  unfold json. destruct (body res); reflexivity.
Qed.




Section RequestFacts.

Variable P : Platform.
Variable settings : Settings.
Variable network : Network.
Variable config : Config.

Lemma requests_processPost_other (postType : string) (post : Item) (index : nat) (t : N) :
  postType <> "ai1ec_event" ->
  requests (processPost P settings network config postType post index t) = [].
Proof.
  intros Hty. destruct index as [|index].
  - apply (processPost_other_first P settings network config postType post t Hty).
  - rewrite processPost_later.
    apply (processPost_other_first P settings network config postType post _ Hty).
Qed.

Lemma requests_Promise_all {A : Type} (cs : list (Async A)) (t : N) :
  requests (Promise_all cs t) = concat (map (fun c => requests (c t)) cs).
Proof.
  unfold Promise_all. rewrite map_map.
  destruct (first_rejection _) as [[e t']|]; reflexivity.
Qed.

Lemma requests_mapi_other (postType : string) (items : list Item) (start : nat) (t : N) :
  postType <> "ai1ec_event" ->
  concat (map (fun c : Async Post.t => requests (c t))
            (mapi_from (processPost P settings network config postType) start items))
  = [].
Proof.
  intros Hty. revert start; induction items as [|it items IH]; intros start; simpl.
  - reflexivity.
  - rewrite requests_processPost_other by exact Hty. apply IH.
Qed.

Lemma requests_collectPosts_from (data : Data) (postTypes : list string)
    (allPosts : list Post.t) (t : N) :
  ~ In "ai1ec_event" postTypes ->
  requests (collectPosts_from P settings network data config postTypes allPosts t) = [].
Proof.
  revert allPosts t; induction postTypes as [|postType rest IH]; intros allPosts t Hnot.
  - reflexivity.
  - simpl. unfold await at 1. simpl.
    destruct (rbind (getItemsOfType data postType) _) as [postsForType|]; simpl;
      [|reflexivity].
    unfold await at 1.
    assert (Hreq : requests (Promise_all
                               (mapi (processPost P settings network config postType)
                                  postsForType) t) = []).
    { rewrite requests_Promise_all. apply requests_mapi_other.
      intros ->. apply Hnot. left. reflexivity. }
    rewrite Hreq.
    destruct (outcome (Promise_all _ t)); simpl; [|reflexivity].
    apply IH. intros Hin. apply Hnot. right. exact Hin.
Qed.

End RequestFacts.

(** X8. A run whose classified types do not include [ai1ec_event] starts
    no request at all, whatever the export holds. *)
Theorem collectPosts_without_events_no_request :
  forall P settings network data postTypes config t,
    ~ In "ai1ec_event" postTypes ->
    requests (collectPosts P settings network data postTypes config t) = [].
Proof.
  intros P settings network data postTypes config t Hnot.
  unfold collectPosts. apply requests_collectPosts_from. exact Hnot.
Qed.

Lemma collectPosts_without_events_no_request_witness :
  requests (collectPosts Example.platform Example.settings C3_network C1_data
              ["post"; "page"] Example.config 0%N) = [].
Proof.
  apply collectPosts_without_events_no_request.
  intros [H|[H|[]]]; discriminate.
Defined.

(** ** X9: an answer without event *)

Section UnenrichedFacts.

Variable P : Platform.
Variable settings : Settings.
Variable network : Network.
Variable config : Config.

Lemma outcome_index (index : nat) (t : N) :
  outcome ((if negb (index =? 0)%nat then delay 5000 else resolve tt) t) = Ok tt.
Proof. destruct index; reflexivity. Qed.

Lemma processPost_event_outcome (post : Item) (index : nat) (t : N) (id : string)
    (meta : Meta.t) (fm : Frontmatter.t) (latency : N) (res : Response) :
  post_id post = Some id ->
  build_meta P "ai1ec_event" post = Ok meta ->
  build_frontmatter P settings "ai1ec_event" post = Ok fm ->
  network (events_url (VStr id)) = Responds latency res ->
  (latency < 10000)%N ->
  outcome (processPost P settings network config "ai1ec_event" post index t)
  = if ok res then
      match body res with
      | JsonBody (MetaObject (Some d)) =>
          (let? content := getPostContent P post config in
           Ok {| Post.meta := meta;
                 Post.frontmatter := enrich fm d (compose_all d);
                 Post.content := content |})%result
      | JsonBody _ =>
          (let? content := getPostContent P post config in
           Ok {| Post.meta := meta; Post.frontmatter := fm; Post.content := content |})%result
      | InvalidBody => Throw SyntaxError
      end
    else
      (let? content := getPostContent P post config in
       Ok {| Post.meta := meta; Post.frontmatter := fm; Post.content := content |})%result.
Proof.
  intros Hid Hmeta Hfm Hnet Hlat. unfold processPost.
  rewrite (await_Ok _ _ _ tt (outcome_index index t)).
  rewrite (await_Ok _ _ _ meta) by exact Hmeta.
  rewrite (await_Ok _ _ _ fm) by exact Hfm.
  change (negb (String.eqb "ai1ec_event" "ai1ec_event")) with false. cbv iota.
  assert (Hgid : getPostId post = Ok (VStr id)) by (unfold getPostId; rewrite Hid; reflexivity).
  rewrite (await_Ok _ _ _ (VStr id)) by exact Hgid.
  rewrite (await_Ok _ _ _ (VStr id)) by exact Hgid.
  assert (Hbuild : forall frontmatter t',
             outcome (build_post P config post meta frontmatter t')
             = (let? content := getPostContent P post config in
                Ok {| Post.meta := meta; Post.frontmatter := frontmatter;
                      Post.content := content |})%result).
  { intros frontmatter t'. unfold build_post, await, lift, resolve. simpl.
    destruct (getPostContent P post config); reflexivity. }
  unfold await at 1.
  rewrite (getEventMetadata_outcome network (VStr id) _ latency res Hnet Hlat).
  destruct (ok res); simpl; [|apply Hbuild].
  destruct (body res) as [[|[d|]]|]; simpl; try apply Hbuild; reflexivity.
Qed.

End UnenrichedFacts.

(** X9. An event whose request is answered in time with a status that is
    not OK, or with a body without [event_data], is kept as it was built:
    its promise fulfils with the meta, the frontmatter before enrichment
    and the content. A body that is no JSON rejects it with the
    [SyntaxError] of [res.json()]. *)
Theorem processPost_answer_without_event :
  forall P settings network config post index t id meta fm content latency res,
    post_id post = Some id ->
    build_meta P "ai1ec_event" post = Ok meta ->
    build_frontmatter P settings "ai1ec_event" post = Ok fm ->
    getPostContent P post config = Ok content ->
    network (events_url (VStr id)) = Responds latency res ->
    (latency < 10000)%N ->
    (ok res = false \/ body res = JsonBody MetaFalsy \/ body res = JsonBody (MetaObject None)
     -> outcome (processPost P settings network config "ai1ec_event" post index t)
        = Ok {| Post.meta := meta; Post.frontmatter := fm; Post.content := content |})
    /\ (ok res = true -> body res = InvalidBody ->
        outcome (processPost P settings network config "ai1ec_event" post index t)
        = Throw SyntaxError).
Proof.
  intros P settings network config post index t id meta fm content latency res
    Hid Hmeta Hfm Hcontent Hnet Hlat.
  rewrite (processPost_event_outcome P settings network config post index t id meta fm
             latency res Hid Hmeta Hfm Hnet Hlat), Hcontent.
  split.
  - intros [Hok|[Hbody|Hbody]].
    + rewrite Hok. reflexivity.
    + rewrite Hbody. destruct (ok res); reflexivity.
    + rewrite Hbody. destruct (ok res); reflexivity.
  - intros Hok Hbody. rewrite Hok, Hbody. reflexivity.
Qed.


Lemma processPost_answer_without_event_witness :
  outcome (processPost Example.platform Example.settings X_not_found Example.config
             "ai1ec_event" (Example.item_of "ai1ec_event" "7" "seven" "") 1 0%N)
  = Ok {| Post.meta := X_event_meta; Post.frontmatter := X_event_frontmatter;
          Post.content := "" |}
  /\ outcome (processPost Example.platform Example.settings X_no_event Example.config
                "ai1ec_event" (Example.item_of "ai1ec_event" "7" "seven" "") 1 0%N)
     = Ok {| Post.meta := X_event_meta; Post.frontmatter := X_event_frontmatter;
             Post.content := "" |}
  /\ outcome (processPost Example.platform Example.settings X_garbled Example.config
                "ai1ec_event" (Example.item_of "ai1ec_event" "7" "seven" "") 1 0%N)
     = Throw SyntaxError.
Proof.
  assert (Hmeta : build_meta Example.platform "ai1ec_event"
                    (Example.item_of "ai1ec_event" "7" "seven" "") = Ok X_event_meta)
    by (vm_compute; reflexivity).
  assert (Hfm : build_frontmatter Example.platform Example.settings "ai1ec_event"
                  (Example.item_of "ai1ec_event" "7" "seven" "") = Ok X_event_frontmatter)
    by (vm_compute; reflexivity).
  assert (Hlat : (120 < 10000)%N) by reflexivity.
  split; [|split].
  - apply (proj1 (processPost_answer_without_event Example.platform Example.settings
                    X_not_found Example.config
                    (Example.item_of "ai1ec_event" "7" "seven" "") 1%nat 0%N "7"
                    X_event_meta X_event_frontmatter "" 120%N _
                    eq_refl Hmeta Hfm eq_refl eq_refl Hlat)).
    left. reflexivity.
  - apply (proj1 (processPost_answer_without_event Example.platform Example.settings
                    X_no_event Example.config
                    (Example.item_of "ai1ec_event" "7" "seven" "") 1%nat 0%N "7"
                    X_event_meta X_event_frontmatter "" 120%N _
                    eq_refl Hmeta Hfm eq_refl eq_refl Hlat)).
    right. right. reflexivity.
  - apply (proj2 (processPost_answer_without_event Example.platform Example.settings
                    X_garbled Example.config
                    (Example.item_of "ai1ec_event" "7" "seven" "") 1%nat 0%N "7"
                    X_event_meta X_event_frontmatter "" 120%N _
                    eq_refl Hmeta Hfm eq_refl eq_refl Hlat)); reflexivity.
Defined.

(** ** X11: the time that a run takes *)








Section DurationFacts.

Variable P : Platform.
Variable settings : Settings.
Variable network : Network.
Variable config : Config.





End DurationFacts.



(** ** X12 to X14: what the correlator changes *)

Lemma set_imageUrls_same (meta : Meta.t) : set_imageUrls meta (Meta.imageUrls meta) = meta.
Proof. destruct meta. reflexivity. Qed.

Lemma post_eta (post : Post.t) :
  {| Post.meta := Post.meta post; Post.frontmatter := Post.frontmatter post;
     Post.content := Post.content post |} = post.
Proof. destruct post. reflexivity. Qed.

Lemma last_cover_snoc (images : list Asset.t) (image : Asset.t) (post : Post.t) :
  last_cover (images ++ [image]) post
  = if cover_of image post then Some image else last_cover images post.
Proof.
  unfold last_cover. rewrite filter_app. simpl.
  destruct (cover_of image post).
  - rewrite rev_app_distr. reflexivity.
  - rewrite app_nil_r. reflexivity.
Qed.

Lemma mergeImageIntoPost_explicit (image : Asset.t) (post : Post.t) :
  mergeImageIntoPost image post
  = {| Post.meta :=
         set_imageUrls (Post.meta post)
           (if attaches image post
            then Set_add (Meta.imageUrls (Post.meta post)) (Asset.url image)
            else Meta.imageUrls (Post.meta post));
       Post.frontmatter :=
         if cover_of image post
         then set_coverImage (Post.frontmatter post) (getFilenameFromUrl (Asset.url image))
         else Post.frontmatter post;
       Post.content := Post.content post |}.
Proof.
  unfold mergeImageIntoPost, attaches, Set_add.
  destruct (attachment_of image post), (cover_of image post); simpl;
    try destruct (includes _ _); rewrite ?set_imageUrls_same; reflexivity.
Qed.

Lemma mergeImagesIntoPost_snoc (images : list Asset.t) (image : Asset.t) (post : Post.t) :
  mergeImagesIntoPost (images ++ [image]) post
  = mergeImageIntoPost image (mergeImagesIntoPost images post).
Proof. unfold mergeImagesIntoPost. rewrite fold_left_app. reflexivity. Qed.

(** The state of a post after the whole pass, in one piece. *)
Lemma mergeImagesIntoPost_explicit (images : list Asset.t) (post : Post.t) :
  mergeImagesIntoPost images post
  = {| Post.meta :=
         set_imageUrls (Post.meta post)
           (fold_left Set_add
              (map Asset.url (filter (fun image => attaches image post) images))
              (Meta.imageUrls (Post.meta post)));
       Post.frontmatter :=
         match last_cover images post with
         | Some image =>
             set_coverImage (Post.frontmatter post) (getFilenameFromUrl (Asset.url image))
         | None => Post.frontmatter post
         end;
       Post.content := Post.content post |}.
Proof.
  induction images as [|image images IH] using rev_ind.
  - unfold mergeImagesIntoPost, last_cover. simpl.
    rewrite set_imageUrls_same. symmetry. apply post_eta.
  - rewrite mergeImagesIntoPost_snoc.
    destruct (attaches_mergeImagesIntoPost image images post) as [HA HB].
    rewrite mergeImageIntoPost_explicit. unfold attaches at 1. rewrite HA, HB.
    fold (attaches image post). rewrite IH. clear IH HA HB.
    rewrite last_cover_snoc, filter_app, map_app, fold_left_app.
    cbn [Post.meta Post.frontmatter Post.content filter].
    unfold attaches at 3. fold (attaches image post).
    destruct (attaches image post), (cover_of image post), (last_cover images post);
      reflexivity.
Qed.

(** X12. The correlator returns the records in their number and order and
    changes nothing of a record but its image URLs and its cover image:
    the id, the slug, the type, the cover image id, the content and the rest
    of the frontmatter stay, and the image URLs that a record had stay in
    front of the new ones. A record for which no asset satisfies rule A or
    rule B stays as it is. *)
Theorem mergeImagesIntoPosts_keeps :
  forall images posts,
    Forall2
      (fun post post' =>
         Meta.id (Post.meta post') = Meta.id (Post.meta post)
         /\ Meta.slug (Post.meta post') = Meta.slug (Post.meta post)
         /\ Meta.type (Post.meta post') = Meta.type (Post.meta post)
         /\ Meta.coverImageId (Post.meta post') = Meta.coverImageId (Post.meta post)
         /\ Post.content post' = Post.content post
         /\ (forall name,
                set_coverImage (Post.frontmatter post') name
                = set_coverImage (Post.frontmatter post) name)
         /\ (exists added,
                Meta.imageUrls (Post.meta post') = Meta.imageUrls (Post.meta post) ++ added)
         /\ ((forall image, In image images -> attaches image post = false) ->
             post' = post))
      posts (mergeImagesIntoPosts images posts).
Proof.
  intros images posts. rewrite mergeImagesIntoPosts_map.
  induction posts as [|post posts IH]; simpl; constructor; [|exact IH].
  rewrite mergeImagesIntoPost_explicit. simpl.
  repeat split.
  - intros name. destruct (last_cover images post); reflexivity.
  - rewrite fold_Set_add. eexists. reflexivity.
  - intros Hnone.
    assert (Hfilter : forall p, (forall image, In image images -> p image = false) ->
                                filter p images = []).
    { intros p Hp. clear - Hp. induction images as [|im ims IHi]; simpl; [reflexivity|].
      rewrite (Hp im (or_introl eq_refl)). apply IHi.
      intros image Hin. apply Hp. right. exact Hin. }
    unfold last_cover.
    rewrite (Hfilter (fun image => attaches image post) Hnone).
    rewrite (Hfilter (fun image => cover_of image post)).
    + simpl. rewrite set_imageUrls_same. apply post_eta.
    + intros image Hin. specialize (Hnone image Hin). unfold attaches in Hnone.
      apply orb_false_iff in Hnone. apply Hnone.
Qed.

Lemma mergeImagesIntoPosts_keeps_witness :
  mergeImagesIntoPosts [X_unrelated] [C4_record] = [C4_record].
Proof.
  pose proof (mergeImagesIntoPosts_keeps [X_unrelated] [C4_record]) as H.
  change (mergeImagesIntoPosts [X_unrelated] [C4_record])
    with [mergeImageIntoPost X_unrelated C4_record] in H |- *.
  apply Forall2_cons_iff in H as [[_ [_ [_ [_ [_ [_ [_ Hsame]]]]]]] _].
  apply (f_equal (fun post => [post])). apply Hsame.
  intros image [<-|[]]. reflexivity.
Defined.

(** X13. After the pass, the cover image of a record is the filename of
    the last asset, in the order of the assets, that satisfies rule B for
    it, and the cover image that it had when there is none: a later cover
    asset replaces an earlier one, while the image URLs keep the first. *)
Theorem mergeImagesIntoPosts_last_cover :
  forall images posts,
    map (fun post => Frontmatter.coverImage (Post.frontmatter post))
      (mergeImagesIntoPosts images posts)
    = map (fun post =>
             match last_cover images post with
             | Some image => Some (getFilenameFromUrl (Asset.url image))
             | None => Frontmatter.coverImage (Post.frontmatter post)
             end)
        posts.
Proof.
  intros images posts. rewrite mergeImagesIntoPosts_map, map_map.
  apply map_ext. intros post. rewrite mergeImagesIntoPost_explicit. simpl.
  destruct (last_cover images post); reflexivity.
Qed.

Lemma fold_Set_add_absorb (l acc : list string) :
  (forall x, In x l -> In x acc) -> fold_left Set_add l acc = acc.
Proof.
  revert acc; induction l as [|x l IH]; intros acc Hin; simpl; [reflexivity|].
  unfold Set_add at 2.
  rewrite (proj2 (includes_In acc x)) by (apply Hin; left; reflexivity).
  apply IH. intros y Hy. apply Hin. right. exact Hy.
Qed.

(** X14. A second pass of the correlator with the same assets changes
    nothing, and a pass with two lists of assets one after the other is the
    pass with the first followed by the pass with the second. *)
Theorem mergeImagesIntoPosts_twice :
  (forall images posts,
      mergeImagesIntoPosts images (mergeImagesIntoPosts images posts)
      = mergeImagesIntoPosts images posts)
  /\ (forall attached scraped posts,
         mergeImagesIntoPosts (attached ++ scraped) posts
         = mergeImagesIntoPosts scraped (mergeImagesIntoPosts attached posts)).
Proof.
  split.
  - intros images posts. rewrite !mergeImagesIntoPosts_map, map_map.
    apply map_ext. intros post.
    rewrite (mergeImagesIntoPost_explicit images (mergeImagesIntoPost images post)).
    assert (Hatt : forall image,
               attaches image (mergeImagesIntoPost images post) = attaches image post).
    { intros image. unfold attaches.
      destruct (attaches_mergeImagesIntoPost image images post) as [-> ->]. reflexivity. }
    assert (Hcov : last_cover images (mergeImagesIntoPost images post)
                   = last_cover images post).
    { unfold last_cover.
      rewrite (filter_ext (fun image => cover_of image (mergeImagesIntoPost images post))
                 (fun image => cover_of image post)); [reflexivity|].
      intros image. apply (attaches_mergeImagesIntoPost image images post). }
    rewrite Hcov, (filter_ext _ _ Hatt).
    rewrite (mergeImagesIntoPost_explicit images post).
    cbn [Post.meta Post.frontmatter Post.content Meta.imageUrls set_imageUrls].
    rewrite (fold_Set_add_absorb
               (map Asset.url (filter (fun image => attaches image post) images))
               (fold_left Set_add
                  (map Asset.url (filter (fun image => attaches image post) images))
                  (Meta.imageUrls (Post.meta post)))).
    + destruct (last_cover images post); reflexivity.
    + intros u Hu. apply In_fold_Set_add. right. exact Hu.
  - intros attached scraped posts. unfold mergeImagesIntoPosts. apply fold_left_app.
Qed.

(** ** X15: the correlator of the other version *)

Lemma strict_eq_truthy (a b : value) : strict_eq a b = true -> truthy a = truthy b.
Proof.
  destruct a, b; simpl; try discriminate; try reflexivity.
  - intros H. apply Z.eqb_eq in H. subst. reflexivity.
  - intros H. apply String.eqb_eq in H. subst. reflexivity.
Qed.

Lemma EventsJson_rules (image : Asset.t) (post : Post.t) :
  EventsJson.attachment_of image post
  = attachment_of image post && truthy (Asset.postId image)
  /\ EventsJson.cover_of image post = cover_of image post && truthy (Asset.id image).
Proof.
  unfold EventsJson.attachment_of, EventsJson.cover_of, attachment_of, cover_of. split.
  - destruct (strict_eq (Asset.postId image) (Meta.id (Post.meta post))) eqn:Heq.
    + rewrite <- (strict_eq_truthy _ _ Heq). simpl.
      destruct (truthy (Asset.postId image)); reflexivity.
    + rewrite andb_false_r. reflexivity.
  - destruct (strict_eq (Asset.id image) (Meta.coverImageId (Post.meta post))) eqn:Heq.
    + rewrite <- (strict_eq_truthy _ _ Heq). simpl.
      destruct (truthy (Asset.id image)); reflexivity.
    + rewrite andb_false_r. reflexivity.
Qed.

(** X15. The correlator of the version that reads [events.json] tests its
    operands before it compares them, so that its rule A is rule A for an
    asset whose parent id is truthy and its rule B is rule B for an asset
    whose id is truthy, and neither holds otherwise. On assets whose id and
    parent id are truthy, such as the number [-1] and every text that is not
    empty, the two correlators return the same records. *)
Theorem EventsJson_mergeImagesIntoPosts_agrees :
  (forall image post,
      EventsJson.attachment_of image post
      = attachment_of image post && truthy (Asset.postId image)
      /\ EventsJson.cover_of image post = cover_of image post && truthy (Asset.id image))
  /\ (forall images posts,
         Forall (fun image => truthy (Asset.id image) && truthy (Asset.postId image) = true)
           images ->
         EventsJson.mergeImagesIntoPosts images posts = mergeImagesIntoPosts images posts).
Proof.
  split; [apply EventsJson_rules|].
  intros images posts Hall. unfold EventsJson.mergeImagesIntoPosts, mergeImagesIntoPosts.
  revert posts; induction Hall as [|image images Htruthy _ IH]; intros posts; simpl.
  - reflexivity.
  - rewrite IH. f_equal. apply map_ext. intros post.
    apply andb_true_iff in Htruthy as [Hid Hparent].
    unfold EventsJson.mergeImageIntoPost, mergeImageIntoPost.
    destruct (EventsJson_rules image post) as [-> ->].
    rewrite Hid, Hparent, !andb_true_r. reflexivity.
Qed.

Lemma EventsJson_mergeImagesIntoPosts_agrees_witness :
  EventsJson.mergeImagesIntoPosts [C4_a; C4_b; C5_scraped] [C4_record]
  = mergeImagesIntoPosts [C4_a; C4_b; C5_scraped] [C4_record].
Proof.
  apply (proj2 EventsJson_mergeImagesIntoPosts_agrees).
  repeat (apply Forall_cons; [reflexivity|]). apply Forall_nil.
Defined.

(** ** X16: the records of the whole parse *)

Lemma Forall2_map_r {A B C : Type} (R : A -> C -> Prop) (f : B -> C) (l : list A)
    (l' : list B) :
  Forall2 (fun x y => R x (f y)) l l' -> Forall2 R l (map f l').
Proof. induction 1; simpl; constructor; assumption. Qed.

(** X16. When [parseFilePromise] fulfils, it returns one record for every
    selected item of the classified types, in the order of the types and of
    the export, each with the type and the id of its item and with a
    frontmatter that repeats them: the correlation of the images neither
    drops, adds nor reorders a record. *)
Theorem parseFilePromise_records :
  forall P settings network data config t posts,
    outcome (parseFilePromise P settings network data config t) = Ok posts ->
    exists postTypes,
      getPostTypes data config = Ok postTypes
      /\ Forall2
           (fun selected p =>
              Meta.type (Post.meta p) = fst selected
              /\ option_map VStr (post_id (snd selected)) = Some (Meta.id (Post.meta p))
              /\ Frontmatter.wp_id (Post.frontmatter p) = Meta.id (Post.meta p)
              /\ Frontmatter.wp_type (Post.frontmatter p) = Meta.type (Post.meta p)
              /\ Frontmatter.wp_slug (Post.frontmatter p) = Meta.slug (Post.meta p))
           (selection data postTypes) posts.
Proof.
  intros P settings network data config t posts H.
  apply parseFilePromise_inv in H as [postTypes [t' [posts0 [images [Htypes [Hposts ->]]]]]].
  exists postTypes. split; [exact Htypes|].
  unfold collectPosts in Hposts. apply collectPosts_from_order in Hposts as [new [-> Hnew]].
  simpl. rewrite mergeImagesIntoPosts_map. apply Forall2_map_r.
  eapply Forall2_impl; [|exact Hnew].
  intros [postType it] p [index [t'' Hp]]. simpl in *.
  apply processPost_consistent in Hp as [H1 [H2 [H3 [H4 [H5 _]]]]].
  rewrite mergeImagesIntoPost_explicit. simpl.
  destruct (last_cover images p); simpl; repeat split; assumption.
Qed.


Lemma parseFilePromise_records_witness :
  exists postTypes,
    getPostTypes X_drafts Example.config = Ok postTypes
    /\ Forall2
         (fun selected p =>
            Meta.type (Post.meta p) = fst selected
            /\ option_map VStr (post_id (snd selected)) = Some (Meta.id (Post.meta p))
            /\ Frontmatter.wp_id (Post.frontmatter p) = Meta.id (Post.meta p)
            /\ Frontmatter.wp_type (Post.frontmatter p) = Meta.type (Post.meta p)
            /\ Frontmatter.wp_slug (Post.frontmatter p) = Meta.slug (Post.meta p))
         (selection X_drafts postTypes) X_drafts_parsed.
Proof.
  assert (Hrun : outcome (parseFilePromise Example.platform Example.settings silent_network
                            X_drafts Example.config 0%N)
                 = Ok X_drafts_parsed)
    by (vm_compute; reflexivity).
  exact (parseFilePromise_records Example.platform Example.settings silent_network X_drafts
           Example.config 0%N X_drafts_parsed Hrun).
Defined.


(** ** X17 and X18: the version that reads [events.json] *)

Lemma Promise_all_iff {A : Type} (cs : list (Async A)) (t : N) (l : list A) :
  outcome (Promise_all cs t) = Ok l <-> Forall2 (fun c a => outcome (c t) = Ok a) cs l.
Proof.
  split; [apply Promise_all_inv|].
  intros H. unfold Promise_all.
  assert (Hrs : first_rejection (map (fun c => c t) cs) = None
                /\ fulfilled_values (map (fun c => c t) cs) = l).
  { induction H as [|c a cs l Hc _ [IH1 IH2]]; simpl; [split; reflexivity|].
    rewrite Hc, IH1, IH2. split; reflexivity. }
  destruct Hrs as [-> ->]. reflexivity.
Qed.

Lemma mapi_from_Forall2_iff {A B C : Type} (f : A -> nat -> B) (R : B -> C -> Prop)
    (Q : A -> C -> Prop) (l : list A) (start : nat) (l' : list C) :
  (forall x index c, R (f x index) c <-> Q x c) ->
  (Forall2 R (mapi_from f start l) l' <-> Forall2 Q l l').
Proof.
  intros HRQ. revert start l'; induction l as [|x l IH]; simpl; intros start l'.
  - split; inversion 1; constructor.
  - split; inversion 1; subst; constructor;
      try (apply (HRQ x start); assumption);
      apply (IH (S start)); assumption.
Qed.

Section VersionFacts.

Variable P : Platform.
Variable settings : Settings.
Variable network : Network.
Variable eventsData : EventsJson.EventsData.
Variable config : Config.

(** A record of another type than the event type is built alike by the
    two versions. *)
Lemma processPost_other_outcome (postType : string) (post : Item) (index : nat) (t : N) :
  postType <> "ai1ec_event" ->
  outcome (processPost P settings network config postType post index t)
  = EventsJson.processPost P settings eventsData config postType post.
Proof.
  intros Hty. apply String.eqb_neq in Hty.
  unfold processPost, EventsJson.processPost, EventsJson.enrichFromLookup.
  rewrite (await_Ok _ _ _ tt (outcome_index index t)).
  unfold await at 1. simpl.
  destruct (build_meta P postType post) as [meta|]; simpl; [|reflexivity].
  unfold await at 1. simpl.
  destruct (build_frontmatter P settings postType post) as [fm|]; simpl; [|reflexivity].
  rewrite Hty. simpl.
  unfold build_post, await, lift, resolve. simpl.
  destruct (getPostContent P post config); reflexivity.
Qed.

Lemma collectPosts_from_versions (data : Data) (postTypes : list string)
    (allPosts : list Post.t) (t : N) (posts : list Post.t) :
  ~ In "ai1ec_event" postTypes ->
  (outcome (collectPosts_from P settings network data config postTypes allPosts t) = Ok posts
   <-> exists perType,
       map_result (EventsJson.postsForType P settings eventsData data config) postTypes
       = Ok perType
       /\ posts = allPosts ++ concat perType).
Proof.
  revert allPosts t; induction postTypes as [|postType rest IH]; intros allPosts t Hnot.
  - simpl. split.
    + intros H. injection H as <-. exists []. split; [reflexivity|].
      symmetry. apply app_nil_r.
    + intros [perType [H ->]]. injection H as <-. simpl. rewrite app_nil_r. reflexivity.
  - assert (Hty : postType <> "ai1ec_event") by (intros ->; apply Hnot; left; reflexivity).
    assert (Hrest : ~ In "ai1ec_event" rest) by (intros Hin; apply Hnot; right; exact Hin).
    simpl. unfold EventsJson.postsForType at 1. unfold await at 1. simpl.
    destruct (getItemsOfType data postType) as [items|]; simpl;
      [|split; [discriminate | intros [perType [H _]]; discriminate]].
    destruct (filter_result published items) as [kept|]; simpl;
      [|split; [discriminate | intros [perType [H _]]; discriminate]].
    assert (Hall : forall resolved,
               outcome (Promise_all (mapi (processPost P settings network config postType)
                                       kept) t) = Ok resolved
               <-> map_result (EventsJson.processPost P settings eventsData config postType)
                     kept = Ok resolved).
    { intros resolved. rewrite Promise_all_iff, map_result_iff. unfold mapi.
      apply mapi_from_Forall2_iff. intros it index p.
      rewrite (processPost_other_outcome postType it index t Hty). reflexivity. }
    unfold await at 1.
    destruct (outcome (Promise_all _ t)) as [resolved|e] eqn:Hout.
    + rewrite (proj1 (Hall resolved) eq_refl). simpl.
      rewrite (IH _ _ Hrest), filter_Boolean. split.
      * intros [perType [Hmap ->]]. rewrite Hmap. simpl.
        exists (resolved :: perType). split; [reflexivity|].
        simpl. symmetry. apply app_assoc.
      * intros [perType [Hmap ->]].
        destruct (map_result _ rest) as [perRest|]; simpl in Hmap; [|discriminate].
        injection Hmap as <-. exists perRest. split; [reflexivity|].
        simpl. apply app_assoc.
    + simpl. split; [discriminate|].
      intros [perType [Hmap _]].
      destruct (map_result (EventsJson.processPost P settings eventsData config postType)
                  kept) as [resolved|] eqn:Hsync; simpl in Hmap; [|discriminate].
      pose proof (proj2 (Hall resolved) eq_refl) as Habs. discriminate Habs.
Qed.

End VersionFacts.

(** X17. When the event type is not among the classified types, the two
    versions of [collectPosts] return the same records: the asynchronous
    one fulfils with a list of records, whatever the network and the time,
    if and only if the synchronous one returns this list, whatever
    [events.json] holds. *)
Theorem collectPosts_versions_agree :
  forall P settings network eventsData data postTypes config t posts,
    ~ In "ai1ec_event" postTypes ->
    (outcome (collectPosts P settings network data postTypes config t) = Ok posts
     <-> EventsJson.collectPosts P settings eventsData data postTypes config = Ok posts).
Proof.
  intros P settings network eventsData data postTypes config t posts Hnot.
  unfold collectPosts, EventsJson.collectPosts.
  rewrite (collectPosts_from_versions P settings network eventsData config data postTypes
             [] t posts Hnot).
  simpl. split.
  - intros [perType [-> ->]]. reflexivity.
  - destruct (map_result _ postTypes) as [perType|]; simpl; [|discriminate].
    intros H. injection H as <-. exists perType. split; reflexivity.
Qed.

Lemma collectPosts_versions_agree_witness :
  EventsJson.collectPosts Example.platform Example.settings X_eventsData X_drafts
    ["post"; "page"] Example.config
  = Ok X_drafts_posts.
Proof.
  assert (Hnot : ~ In "ai1ec_event" ["post"; "page"])
    by (intros [H|[H|[]]]; discriminate).
  assert (Hrun : outcome (collectPosts Example.platform Example.settings silent_network
                            X_drafts ["post"; "page"] Example.config 0%N)
                 = Ok X_drafts_posts)
    by (vm_compute; reflexivity).
  exact (proj1 (collectPosts_versions_agree Example.platform Example.settings silent_network
                  X_eventsData X_drafts ["post"; "page"] Example.config 0%N X_drafts_posts
                  Hnot) Hrun).
Defined.




(** ** X19: where the scraper finds its matches *)

Lemma matchAll_from_In_suffix (r : regex) (s : list ascii) (skip : nat)
    (cap : option (list ascii)) :
  In cap (matchAll_from r s skip) ->
  exists pre s0 rest, s = pre ++ s0 /\ match_here r s0 = Some (rest, cap).
Proof.
  revert skip; induction s as [|c s IH]; intros skip; simpl.
  - destruct skip; [|contradiction].
    destruct (match_here r []) as [[rest cap0]|] eqn:Hm; [|contradiction].
    intros [<-|[]]. exists [], [], rest. split; [reflexivity | exact Hm].
  - assert (Hlater : forall n, In cap (matchAll_from r s n) ->
                               exists pre s0 rest,
                                 c :: s = pre ++ s0 /\ match_here r s0 = Some (rest, cap)).
    { intros n Hin. apply IH in Hin as [pre [s0 [rest [-> Hm]]]].
      exists (c :: pre), s0, rest. split; [reflexivity | exact Hm]. }
    destruct skip as [|n]; [|apply Hlater].
    destruct (match_here r (c :: s)) as [[rest cap0]|] eqn:Hm; [|apply Hlater].
    intros [<-|Hin]; [|apply Hlater in Hin; exact Hin].
    exists [], (c :: s), rest. split; [reflexivity | exact Hm].
Qed.

Lemma accepts_Star cl s cap s' cap' :
  accepts (Star cl) s cap s' cap' ->
  exists w, Forall (fun c => class_matches cl c = true) w /\ s = w ++ s' /\ cap' = cap.
Proof.
  remember (Star cl) as r eqn:Hr. induction 1; try discriminate.
  - exists []. repeat split. constructor.
  - injection Hr as ->. destruct (IHaccepts eq_refl) as [w [Hw [-> _]]].
    exists (c :: w). repeat split. constructor; assumption.
Qed.


Lemma to_lower_dquote (x : ascii) : to_lower x = to_lower dquote -> x = dquote.
Proof.
  destruct x as [[] [] [] [] [] [] [] []]; vm_compute; intros H;
    first [reflexivity | discriminate H].
Qed.

Lemma to_lower_gt (x : ascii) : to_lower x = to_lower ">"%char -> x = ">"%char.
Proof.
  destruct x as [[] [] [] [] [] [] [] []]; vm_compute; intros H;
    first [reflexivity | discriminate H].
Qed.

Lemma NotChar_gt (w : list ascii) :
  Forall (fun c => class_matches (NotChar ">") c = true) w -> ~ In ">"%char w.
Proof.
  intros Hw Hin. rewrite Forall_forall in Hw. apply Hw in Hin.
  vm_compute in Hin. discriminate.
Qed.

(** The text that a match of [img_pattern] consumes. *)
Lemma match_here_img_pattern_shape (s rest : list ascii) (cap : option (list ascii)) :
  match_here img_pattern s = Some (rest, cap) ->
  exists opening mid attr m tail,
    s = opening ++ mid ++ attr ++ dquote :: m ++ dquote :: tail ++ ">"%char :: rest
    /\ cap = Some m
    /\ map to_lower opening = list_ascii_of_string "<img"
    /\ map to_lower attr = list_ascii_of_string "src="
    /\ ~ In ">"%char mid
    /\ ~ In ">"%char tail.
Proof.
  unfold match_here. intros H.
  apply rmatch_sound in H as [s' [cap' [Hacc Hk]]].
  injection Hk as -> ->.
  unfold img_pattern in Hacc.
  apply accepts_Seq_inv in Hacc as [s1 [cap1 [Hopen Hacc]]].
  apply accepts_Seq_inv in Hacc as [s2 [cap2 [Hmid Hacc]]].
  apply accepts_Seq_inv in Hacc as [s3 [cap3 [Hattr Hacc]]].
  apply accepts_Seq_inv in Hacc as [s4 [cap4 [Hq1 Hacc]]].
  apply accepts_Seq_inv in Hacc as [s5 [cap5 [Hgroup Hacc]]].
  apply accepts_Seq_inv in Hacc as [s6 [cap6 [Hq2 Hacc]]].
  apply accepts_Seq_inv in Hacc as [s7 [cap7 [Htail Hclose]]].
  apply (accepts_lit "<img") in Hopen as [opening [-> [Hopening _]]].
  apply accepts_Star in Hmid as [mid [Hmid [-> _]]].
  apply (accepts_lit "src=") in Hattr as [attr [-> [Hattr _]]].
  apply accepts_Char_inv in Hq1 as [q1 [-> [Hq1 _]]].
  apply to_lower_dquote in Hq1 as ->.
  apply accepts_Char_inv in Hq2 as [q2 [-> [Hq2 ->]]].
  apply to_lower_dquote in Hq2 as ->.
  apply accepts_Star in Htail as [tail [Htail [-> ->]]].
  apply accepts_Char_inv in Hclose as [close [-> [Hclose ->]]].
  apply to_lower_gt in Hclose as ->.
  inversion Hgroup as [| | | | | | | | | | |r s0 c0 s0' c0' Hsrc|]; subst.
  apply accepts_suffix in Hsrc as [m Hm]. rewrite Hm, firstn_consumed.
  exists opening, mid, attr, m, tail.
  repeat split; try assumption; try (apply NotChar_gt; assumption).
Qed.

Lemma matchAll_img_pattern_written (content m : string) :
  In m (matchAll img_pattern content) -> written_in m content.
Proof.
  unfold matchAll. intros H. apply in_map_iff in H as [cap [<- Hcap]].
  apply matchAll_from_In_suffix in Hcap as [pre [s0 [rest [Hcontent Hm]]]].
  apply match_here_img_pattern_shape in Hm
    as [opening [mid [attr [m [tail [-> [-> [Hopening [Hattr [Hmid Htail]]]]]]]]]].
  exists pre, opening, mid, attr, tail, rest. simpl.
  rewrite list_ascii_of_string_of_list_ascii.
  repeat split; assumption.
Qed.

(** X19. Every match of the scraper is written in the body between double
    quotes after [src=], inside a tag that opens with [<img] (in any case)
    and that no [>] closes before the match; so a record whose body holds
    no double quote gives no scraped asset, whatever images it shows. *)
Theorem scraper_reads_double_quoted_src :
  (forall content m, In m (matchAll img_pattern content) -> written_in m content)
  /\ (forall P post id content lnk,
         post_id post = Some id -> encoded post = Some content -> link post = Some lnk ->
         ~ In dquote (list_ascii_of_string content) ->
         scrapePost P post = Ok []).
Proof.
  split; [apply matchAll_img_pattern_written|].
  intros P post id content lnk Hid Hcontent Hlink Hnone.
  unfold scrapePost. rewrite Hid, Hcontent, Hlink. simpl.
  destruct (matchAll img_pattern content) as [|m matches] eqn:Hmatches; [reflexivity|].
  exfalso. apply Hnone.
  destruct (matchAll_img_pattern_written content m) as
    [pre [opening [mid [attr [tail [post' [Hshape _]]]]]]].
  { rewrite Hmatches. left. reflexivity. }
  rewrite Hshape. repeat (apply in_or_app; right). left. reflexivity.
Qed.

Lemma scraper_reads_double_quoted_src_witness :
  scrapePost Example.platform X_single_quotes = Ok [].
Proof.
  apply (proj2 scraper_reads_double_quoted_src Example.platform X_single_quotes
           "1" "<img src='../img/x.jpg'>" "https://site.test/post/1/");
    try reflexivity.
  vm_compute. intros H.
  repeat (destruct H as [H|H]; [discriminate H|]). exact H.
Defined.
